(** * Resume parsing and deterministic question answering

    A shallow embedding of the text pipeline of the resume chatbot:
    - the enhanced text parser [parseResumeTextFallback] with its section
      segmentation, [processSectionBuffer], the field extractors and the
      two-tier skills fallback;
    - the header loop of the plain parser (lib/layoutlmParser.ts);
    - [normalizeParsed] and [answerFromParsedDeterministic] of
      lib/chatbot.ts.

    JavaScript strings are sequences of UTF-16 code units, so a string is a
    [list N] here and [length] is the JavaScript [.length].  Objects whose
    key order is observable ([Object.keys], [JSON.stringify]) are
    insertion-ordered association lists. *)

From Stdlib Require Import String Ascii NArith Bool Arith Lia Sorted List.
Import ListNotations.

Local Open Scope bool_scope.

(** ** Strings *)

Definition codeunit := N.
Definition jsstring := list codeunit.

(** An ASCII literal of the source as a code-unit sequence. *)
Definition str (s : string) : jsstring :=
  map N_of_ascii (list_ascii_of_string s).

(** Code units of the non-ASCII characters the source mentions. *)
Definition cu_bullet : codeunit := 8226%N.      (* U+2022 *)
Definition cu_middot : codeunit := 183%N.       (* U+00B7 *)
Definition cu_endash : codeunit := 8211%N.      (* U+2013 *)
Definition cu_emdash : codeunit := 8212%N.      (* U+2014 *)

Definition cu_newline : codeunit := 10%N.
Definition cu_tab : codeunit := 9%N.
Definition cu_space : codeunit := 32%N.
Definition cu_comma : codeunit := 44%N.
Definition cu_period : codeunit := 46%N.
Definition cu_colon : codeunit := 58%N.
Definition cu_pipe : codeunit := 124%N.
Definition cu_minus : codeunit := 45%N.
Definition cu_star : codeunit := 42%N.
Definition cu_rparen : codeunit := 41%N.
Definition cu_at : codeunit := 64%N.

Local Open Scope N_scope.

Definition inRange (lo hi c : codeunit) : bool :=
  N.leb lo c && N.leb c hi.

Definition isOneOf (cs : list codeunit) (c : codeunit) : bool :=
  existsb (N.eqb c) cs.

(** WhiteSpace and LineTerminator of ECMAScript: what [trim] removes and
    what [\s] matches. *)
Definition isSpace (c : codeunit) : bool :=
  inRange 9 13 c || N.eqb c 32 || N.eqb c 160 || N.eqb c 5760
  || inRange 8192 8202 c || N.eqb c 8232 || N.eqb c 8233 || N.eqb c 8239
  || N.eqb c 8287 || N.eqb c 12288 || N.eqb c 65279.

Definition isDigit (c : codeunit) : bool := inRange 48 57 c.
Definition isUpperAZ (c : codeunit) : bool := inRange 65 90 c.
Definition isLowerAZ (c : codeunit) : bool := inRange 97 122 c.
Definition isLetterAZ (c : codeunit) : bool := isUpperAZ c || isLowerAZ c.

(** [\w] without the unicode flag. *)
Definition isWordChar (c : codeunit) : bool :=
  isLetterAZ c || isDigit c || N.eqb c 95.

Definition isLeadSurrogate (c : codeunit) : bool := inRange 55296 56319 c.
Definition isTrailSurrogate (c : codeunit) : bool := inRange 56320 57343 c.

(** ** [String.prototype.toLowerCase]

    The string is read as code points: a lead surrogate followed by a trail
    surrogate is one code point, any other code unit is one by itself.  Each
    code point is replaced by its lowercase mapping in the Unicode Character
    Database (version 14.0): the simple mapping, except for U+0130, which
    becomes U+0069 U+0307, and for U+03A3, which becomes U+03C2 in the
    Final_Sigma context and U+03C3 elsewhere.  No mapping depends on the
    locale. *)

(** The simple lowercase mappings, as runs [(first, last, step, image)]:
    the code points [first], [first + step], ... up to [last] map to
    [image], [image + step], ... *)
Definition lowercaseRuns : list (N * N * N * N) :=
  [(65, 90, 1, 97); (192, 214, 1, 224); (216, 222, 1, 248);
   (256, 302, 2, 257); (306, 310, 2, 307); (313, 327, 2, 314);
   (330, 374, 2, 331); (376, 376, 1, 255); (377, 381, 2, 378);
   (385, 385, 1, 595); (386, 388, 2, 387); (390, 390, 1, 596);
   (391, 391, 1, 392); (393, 394, 1, 598); (395, 395, 1, 396);
   (398, 398, 1, 477); (399, 399, 1, 601); (400, 400, 1, 603);
   (401, 401, 1, 402); (403, 403, 1, 608); (404, 404, 1, 611);
   (406, 406, 1, 617); (407, 407, 1, 616); (408, 408, 1, 409);
   (412, 412, 1, 623); (413, 413, 1, 626); (415, 415, 1, 629);
   (416, 420, 2, 417); (422, 422, 1, 640); (423, 423, 1, 424);
   (425, 425, 1, 643); (428, 428, 1, 429); (430, 430, 1, 648);
   (431, 431, 1, 432); (433, 434, 1, 650); (435, 437, 2, 436);
   (439, 439, 1, 658); (440, 440, 1, 441); (444, 444, 1, 445);
   (452, 452, 1, 454); (453, 453, 1, 454); (455, 455, 1, 457);
   (456, 456, 1, 457); (458, 458, 1, 460); (459, 475, 2, 460);
   (478, 494, 2, 479); (497, 497, 1, 499); (498, 500, 2, 499);
   (502, 502, 1, 405); (503, 503, 1, 447); (504, 542, 2, 505);
   (544, 544, 1, 414); (546, 562, 2, 547); (570, 570, 1, 11365);
   (571, 571, 1, 572); (573, 573, 1, 410); (574, 574, 1, 11366);
   (577, 577, 1, 578); (579, 579, 1, 384); (580, 580, 1, 649);
   (581, 581, 1, 652); (582, 590, 2, 583); (880, 882, 2, 881);
   (886, 886, 1, 887); (895, 895, 1, 1011); (902, 902, 1, 940);
   (904, 906, 1, 941); (908, 908, 1, 972); (910, 911, 1, 973);
   (913, 929, 1, 945); (931, 939, 1, 963); (975, 975, 1, 983);
   (984, 1006, 2, 985); (1012, 1012, 1, 952); (1015, 1015, 1, 1016);
   (1017, 1017, 1, 1010); (1018, 1018, 1, 1019); (1021, 1023, 1, 891);
   (1024, 1039, 1, 1104); (1040, 1071, 1, 1072); (1120, 1152, 2, 1121);
   (1162, 1214, 2, 1163); (1216, 1216, 1, 1231); (1217, 1229, 2, 1218);
   (1232, 1326, 2, 1233); (1329, 1366, 1, 1377); (4256, 4293, 1, 11520);
   (4295, 4295, 1, 11559); (4301, 4301, 1, 11565); (5024, 5103, 1, 43888);
   (5104, 5109, 1, 5112); (7312, 7354, 1, 4304); (7357, 7359, 1, 4349);
   (7680, 7828, 2, 7681); (7838, 7838, 1, 223); (7840, 7934, 2, 7841);
   (7944, 7951, 1, 7936); (7960, 7965, 1, 7952); (7976, 7983, 1, 7968);
   (7992, 7999, 1, 7984); (8008, 8013, 1, 8000); (8025, 8031, 2, 8017);
   (8040, 8047, 1, 8032); (8072, 8079, 1, 8064); (8088, 8095, 1, 8080);
   (8104, 8111, 1, 8096); (8120, 8121, 1, 8112); (8122, 8123, 1, 8048);
   (8124, 8124, 1, 8115); (8136, 8139, 1, 8050); (8140, 8140, 1, 8131);
   (8152, 8153, 1, 8144); (8154, 8155, 1, 8054); (8168, 8169, 1, 8160);
   (8170, 8171, 1, 8058); (8172, 8172, 1, 8165); (8184, 8185, 1, 8056);
   (8186, 8187, 1, 8060); (8188, 8188, 1, 8179); (8486, 8486, 1, 969);
   (8490, 8490, 1, 107); (8491, 8491, 1, 229); (8498, 8498, 1, 8526);
   (8544, 8559, 1, 8560); (8579, 8579, 1, 8580); (9398, 9423, 1, 9424);
   (11264, 11311, 1, 11312); (11360, 11360, 1, 11361); (11362, 11362, 1, 619);
   (11363, 11363, 1, 7549); (11364, 11364, 1, 637); (11367, 11371, 2, 11368);
   (11373, 11373, 1, 593); (11374, 11374, 1, 625); (11375, 11375, 1, 592);
   (11376, 11376, 1, 594); (11378, 11378, 1, 11379); (11381, 11381, 1, 11382);
   (11390, 11391, 1, 575); (11392, 11490, 2, 11393); (11499, 11501, 2, 11500);
   (11506, 11506, 1, 11507); (42560, 42604, 2, 42561); (42624, 42650, 2, 42625);
   (42786, 42798, 2, 42787); (42802, 42862, 2, 42803); (42873, 42875, 2, 42874);
   (42877, 42877, 1, 7545); (42878, 42886, 2, 42879); (42891, 42891, 1, 42892);
   (42893, 42893, 1, 613); (42896, 42898, 2, 42897); (42902, 42920, 2, 42903);
   (42922, 42922, 1, 614); (42923, 42923, 1, 604); (42924, 42924, 1, 609);
   (42925, 42925, 1, 620); (42926, 42926, 1, 618); (42928, 42928, 1, 670);
   (42929, 42929, 1, 647); (42930, 42930, 1, 669); (42931, 42931, 1, 43859);
   (42932, 42946, 2, 42933); (42948, 42948, 1, 42900); (42949, 42949, 1, 642);
   (42950, 42950, 1, 7566); (42951, 42953, 2, 42952); (42960, 42960, 1, 42961);
   (42966, 42968, 2, 42967); (42997, 42997, 1, 42998); (65313, 65338, 1, 65345);
   (66560, 66599, 1, 66600); (66736, 66771, 1, 66776); (66928, 66938, 1, 66967);
   (66940, 66954, 1, 66979); (66956, 66962, 1, 66995); (66964, 66965, 1, 67003);
   (68736, 68786, 1, 68800); (71840, 71871, 1, 71872); (93760, 93791, 1, 93792);
   (125184, 125217, 1, 125218)].

(** The code points with the property Case_Ignorable. *)
Definition caseIgnorableRanges : list (N * N) :=
  [(39, 39); (46, 46); (58, 58); (94, 94);
   (96, 96); (168, 168); (173, 173); (175, 175);
   (180, 180); (183, 184); (688, 879); (884, 885);
   (890, 890); (900, 901); (903, 903); (1155, 1161);
   (1369, 1369); (1375, 1375); (1425, 1469); (1471, 1471);
   (1473, 1474); (1476, 1477); (1479, 1479); (1524, 1524);
   (1536, 1541); (1552, 1562); (1564, 1564); (1600, 1600);
   (1611, 1631); (1648, 1648); (1750, 1757); (1759, 1768);
   (1770, 1773); (1807, 1807); (1809, 1809); (1840, 1866);
   (1958, 1968); (2027, 2037); (2042, 2042); (2045, 2045);
   (2070, 2093); (2137, 2139); (2184, 2184); (2192, 2193);
   (2200, 2207); (2249, 2306); (2362, 2362); (2364, 2364);
   (2369, 2376); (2381, 2381); (2385, 2391); (2402, 2403);
   (2417, 2417); (2433, 2433); (2492, 2492); (2497, 2500);
   (2509, 2509); (2530, 2531); (2558, 2558); (2561, 2562);
   (2620, 2620); (2625, 2626); (2631, 2632); (2635, 2637);
   (2641, 2641); (2672, 2673); (2677, 2677); (2689, 2690);
   (2748, 2748); (2753, 2757); (2759, 2760); (2765, 2765);
   (2786, 2787); (2810, 2815); (2817, 2817); (2876, 2876);
   (2879, 2879); (2881, 2884); (2893, 2893); (2901, 2902);
   (2914, 2915); (2946, 2946); (3008, 3008); (3021, 3021);
   (3072, 3072); (3076, 3076); (3132, 3132); (3134, 3136);
   (3142, 3144); (3146, 3149); (3157, 3158); (3170, 3171);
   (3201, 3201); (3260, 3260); (3263, 3263); (3270, 3270);
   (3276, 3277); (3298, 3299); (3328, 3329); (3387, 3388);
   (3393, 3396); (3405, 3405); (3426, 3427); (3457, 3457);
   (3530, 3530); (3538, 3540); (3542, 3542); (3633, 3633);
   (3636, 3642); (3654, 3662); (3761, 3761); (3764, 3772);
   (3782, 3782); (3784, 3789); (3864, 3865); (3893, 3893);
   (3895, 3895); (3897, 3897); (3953, 3966); (3968, 3972);
   (3974, 3975); (3981, 3991); (3993, 4028); (4038, 4038);
   (4141, 4144); (4146, 4151); (4153, 4154); (4157, 4158);
   (4184, 4185); (4190, 4192); (4209, 4212); (4226, 4226);
   (4229, 4230); (4237, 4237); (4253, 4253); (4348, 4348);
   (4957, 4959); (5906, 5908); (5938, 5939); (5970, 5971);
   (6002, 6003); (6068, 6069); (6071, 6077); (6086, 6086);
   (6089, 6099); (6103, 6103); (6109, 6109); (6155, 6159);
   (6211, 6211); (6277, 6278); (6313, 6313); (6432, 6434);
   (6439, 6440); (6450, 6450); (6457, 6459); (6679, 6680);
   (6683, 6683); (6742, 6742); (6744, 6750); (6752, 6752);
   (6754, 6754); (6757, 6764); (6771, 6780); (6783, 6783);
   (6823, 6823); (6832, 6862); (6912, 6915); (6964, 6964);
   (6966, 6970); (6972, 6972); (6978, 6978); (7019, 7027);
   (7040, 7041); (7074, 7077); (7080, 7081); (7083, 7085);
   (7142, 7142); (7144, 7145); (7149, 7149); (7151, 7153);
   (7212, 7219); (7222, 7223); (7288, 7293); (7376, 7378);
   (7380, 7392); (7394, 7400); (7405, 7405); (7412, 7412);
   (7416, 7417); (7468, 7530); (7544, 7544); (7579, 7679);
   (8125, 8125); (8127, 8129); (8141, 8143); (8157, 8159);
   (8173, 8175); (8189, 8190); (8203, 8207); (8216, 8217);
   (8228, 8228); (8231, 8231); (8234, 8238); (8288, 8292);
   (8294, 8303); (8305, 8305); (8319, 8319); (8336, 8348);
   (8400, 8432); (11388, 11389); (11503, 11505); (11631, 11631);
   (11647, 11647); (11744, 11775); (11823, 11823); (12293, 12293);
   (12330, 12333); (12337, 12341); (12347, 12347); (12441, 12446);
   (12540, 12542); (40981, 40981); (42232, 42237); (42508, 42508);
   (42607, 42610); (42612, 42621); (42623, 42623); (42652, 42655);
   (42736, 42737); (42752, 42785); (42864, 42864); (42888, 42890);
   (42994, 42996); (43000, 43001); (43010, 43010); (43014, 43014);
   (43019, 43019); (43045, 43046); (43052, 43052); (43204, 43205);
   (43232, 43249); (43263, 43263); (43302, 43309); (43335, 43345);
   (43392, 43394); (43443, 43443); (43446, 43449); (43452, 43453);
   (43471, 43471); (43493, 43494); (43561, 43566); (43569, 43570);
   (43573, 43574); (43587, 43587); (43596, 43596); (43632, 43632);
   (43644, 43644); (43696, 43696); (43698, 43700); (43703, 43704);
   (43710, 43711); (43713, 43713); (43741, 43741); (43756, 43757);
   (43763, 43764); (43766, 43766); (43867, 43871); (43881, 43883);
   (44005, 44005); (44008, 44008); (44013, 44013); (64286, 64286);
   (64434, 64450); (65024, 65039); (65043, 65043); (65056, 65071);
   (65106, 65106); (65109, 65109); (65279, 65279); (65287, 65287);
   (65294, 65294); (65306, 65306); (65342, 65342); (65344, 65344);
   (65392, 65392); (65438, 65439); (65507, 65507); (65529, 65531);
   (66045, 66045); (66272, 66272); (66422, 66426); (67456, 67461);
   (67463, 67504); (67506, 67514); (68097, 68099); (68101, 68102);
   (68108, 68111); (68152, 68154); (68159, 68159); (68325, 68326);
   (68900, 68903); (69291, 69292); (69446, 69456); (69506, 69509);
   (69633, 69633); (69688, 69702); (69744, 69744); (69747, 69748);
   (69759, 69761); (69811, 69814); (69817, 69818); (69821, 69821);
   (69826, 69826); (69837, 69837); (69888, 69890); (69927, 69931);
   (69933, 69940); (70003, 70003); (70016, 70017); (70070, 70078);
   (70089, 70092); (70095, 70095); (70191, 70193); (70196, 70196);
   (70198, 70199); (70206, 70206); (70367, 70367); (70371, 70378);
   (70400, 70401); (70459, 70460); (70464, 70464); (70502, 70508);
   (70512, 70516); (70712, 70719); (70722, 70724); (70726, 70726);
   (70750, 70750); (70835, 70840); (70842, 70842); (70847, 70848);
   (70850, 70851); (71090, 71093); (71100, 71101); (71103, 71104);
   (71132, 71133); (71219, 71226); (71229, 71229); (71231, 71232);
   (71339, 71339); (71341, 71341); (71344, 71349); (71351, 71351);
   (71453, 71455); (71458, 71461); (71463, 71467); (71727, 71735);
   (71737, 71738); (71995, 71996); (71998, 71998); (72003, 72003);
   (72148, 72151); (72154, 72155); (72160, 72160); (72193, 72202);
   (72243, 72248); (72251, 72254); (72263, 72263); (72273, 72278);
   (72281, 72283); (72330, 72342); (72344, 72345); (72752, 72758);
   (72760, 72765); (72767, 72767); (72850, 72871); (72874, 72880);
   (72882, 72883); (72885, 72886); (73009, 73014); (73018, 73018);
   (73020, 73021); (73023, 73029); (73031, 73031); (73104, 73105);
   (73109, 73109); (73111, 73111); (73459, 73460); (78896, 78904);
   (92912, 92916); (92976, 92982); (92992, 92995); (94031, 94031);
   (94095, 94111); (94176, 94177); (94179, 94180); (110576, 110579);
   (110581, 110587); (110589, 110590); (113821, 113822); (113824, 113827);
   (118528, 118573); (118576, 118598); (119143, 119145); (119155, 119170);
   (119173, 119179); (119210, 119213); (119362, 119364); (121344, 121398);
   (121403, 121452); (121461, 121461); (121476, 121476); (121499, 121503);
   (121505, 121519); (122880, 122886); (122888, 122904); (122907, 122913);
   (122915, 122916); (122918, 122922); (123184, 123197); (123566, 123566);
   (123628, 123631); (125136, 125142); (125252, 125259); (127995, 127999);
   (917505, 917505); (917536, 917631); (917760, 917999)].

(** The code points with the property Cased and without Case_Ignorable. *)
Definition casedRanges : list (N * N) :=
  [(65, 90); (97, 122); (170, 170); (181, 181);
   (186, 186); (192, 214); (216, 246); (248, 442);
   (444, 447); (452, 659); (661, 687); (880, 883);
   (886, 887); (891, 893); (895, 895); (902, 902);
   (904, 906); (908, 908); (910, 929); (931, 1013);
   (1015, 1153); (1162, 1327); (1329, 1366); (1376, 1416);
   (4256, 4293); (4295, 4295); (4301, 4301); (4304, 4346);
   (4349, 4351); (5024, 5109); (5112, 5117); (7296, 7304);
   (7312, 7354); (7357, 7359); (7424, 7467); (7531, 7543);
   (7545, 7578); (7680, 7957); (7960, 7965); (7968, 8005);
   (8008, 8013); (8016, 8023); (8025, 8025); (8027, 8027);
   (8029, 8029); (8031, 8061); (8064, 8116); (8118, 8124);
   (8126, 8126); (8130, 8132); (8134, 8140); (8144, 8147);
   (8150, 8155); (8160, 8172); (8178, 8180); (8182, 8188);
   (8450, 8450); (8455, 8455); (8458, 8467); (8469, 8469);
   (8473, 8477); (8484, 8484); (8486, 8486); (8488, 8488);
   (8490, 8493); (8495, 8500); (8505, 8505); (8508, 8511);
   (8517, 8521); (8526, 8526); (8544, 8575); (8579, 8580);
   (9398, 9449); (11264, 11387); (11390, 11492); (11499, 11502);
   (11506, 11507); (11520, 11557); (11559, 11559); (11565, 11565);
   (42560, 42605); (42624, 42651); (42786, 42863); (42865, 42887);
   (42891, 42894); (42896, 42954); (42960, 42961); (42963, 42963);
   (42965, 42969); (42997, 42998); (43002, 43002); (43824, 43866);
   (43872, 43880); (43888, 43967); (64256, 64262); (64275, 64279);
   (65313, 65338); (65345, 65370); (66560, 66639); (66736, 66771);
   (66776, 66811); (66928, 66938); (66940, 66954); (66956, 66962);
   (66964, 66965); (66967, 66977); (66979, 66993); (66995, 67001);
   (67003, 67004); (68736, 68786); (68800, 68850); (71840, 71903);
   (93760, 93823); (119808, 119892); (119894, 119964); (119966, 119967);
   (119970, 119970); (119973, 119974); (119977, 119980); (119982, 119993);
   (119995, 119995); (119997, 120003); (120005, 120069); (120071, 120074);
   (120077, 120084); (120086, 120092); (120094, 120121); (120123, 120126);
   (120128, 120132); (120134, 120134); (120138, 120144); (120146, 120485);
   (120488, 120512); (120514, 120538); (120540, 120570); (120572, 120596);
   (120598, 120628); (120630, 120654); (120656, 120686); (120688, 120712);
   (120714, 120744); (120746, 120770); (120772, 120779); (122624, 122633);
   (122635, 122654); (125184, 125251); (127280, 127305); (127312, 127337);
   (127344, 127369)].

Fixpoint inRanges (ranges : list (N * N)) (cp : N) : bool :=
  match ranges with
  | [] => false
  | (lo, hi) :: rest => inRange lo hi cp || inRanges rest cp
  end.

Fixpoint lowerRun (runs : list (N * N * N * N)) (cp : N) : N :=
  match runs with
  | [] => cp
  | (lo, hi, step, image) :: rest =>
      if inRange lo hi cp && N.eqb ((cp - lo) mod step) 0
      then image + (cp - lo)
      else lowerRun rest cp
  end.

Definition isCaseIgnorable (cp : N) : bool := inRanges caseIgnorableRanges cp.
Definition isCased (cp : N) : bool := inRanges casedRanges cp.

(** The simple lowercase mapping; the code points below U+0080 are answered
    without the table. *)
Definition lowerSimple (cp : N) : N :=
  if N.ltb cp 128 then (if isUpperAZ cp then cp + 32 else cp)
  else lowerRun lowercaseRuns cp.

Fixpoint codePoints (s : jsstring) : list N :=
  match s with
  | [] => []
  | c :: s' =>
      match s' with
      | d :: s'' =>
          if isLeadSurrogate c && isTrailSurrogate d
          then (65536 + (c - 55296) * 1024 + (d - 56320)) :: codePoints s''
          else c :: codePoints s'
      | [] => [c]
      end
  end.

Definition codeUnits (cp : N) : jsstring :=
  if N.ltb cp 65536 then [cp]
  else [55296 + (cp - 65536) / 1024; 56320 + (cp - 65536) mod 1024].

Fixpoint skipCaseIgnorable (cps : list N) : list N :=
  match cps with
  | [] => []
  | cp :: rest => if isCaseIgnorable cp then skipCaseIgnorable rest else cps
  end.

(** The first code point of [cps] that is not Case_Ignorable is Cased. *)
Definition reachesCased (cps : list N) : bool :=
  match skipCaseIgnorable cps with
  | cp :: _ => isCased cp
  | [] => false
  end.

(** Final_Sigma: a cased letter before, none after, case-ignorable code
    points skipped on both sides.  [before] holds the preceding code points,
    nearest first. *)
Definition finalSigma (before after : list N) : bool :=
  reachesCased before && negb (reachesCased after).

Definition lowerCodePoint (before after : list N) (cp : N) : list N :=
  if N.eqb cp 931 then [if finalSigma before after then 962 else 963]
  else if N.eqb cp 304 then [105; 775]
  else [lowerSimple cp].

Fixpoint lowerFrom (before cps : list N) : list N :=
  match cps with
  | [] => []
  | cp :: after => lowerCodePoint before after cp ++ lowerFrom (cp :: before) after
  end.

Definition toLowerCase (s : jsstring) : jsstring :=
  flat_map codeUnits (lowerFrom [] (codePoints s)).

(** A code unit that is a code point by itself and its own lowercase. *)
Definition unchangedUnit (c : codeunit) : bool :=
  N.ltb c 65536 && negb (isLeadSurrogate c)
  && negb (N.eqb c 931) && negb (N.eqb c 304)
  && N.eqb (lowerSimple c) c.

(** Canonicalize of a case-insensitive regular expression (no unicode flag):
    ASCII letters fold to upper case; a code unit outside ASCII never folds
    to an ASCII one, so against the ASCII patterns of the program it only
    equals itself. *)
Definition canonUnit (c : codeunit) : codeunit :=
  if isLowerAZ c then c - 32 else c.

Definition eqUnitCI (p c : codeunit) : bool :=
  N.eqb (canonUnit p) (canonUnit c).

Local Close Scope N_scope.

Fixpoint streq (a b : jsstring) : bool :=
  match a, b with
  | [], [] => true
  | x :: a', y :: b' => N.eqb x y && streq a' b'
  | _, _ => false
  end.

Definition isEmpty (s : jsstring) : bool :=
  match s with [] => true | _ => false end.

Fixpoint dropWhile (p : codeunit -> bool) (s : jsstring) : jsstring :=
  match s with
  | [] => []
  | c :: s' => if p c then dropWhile p s' else s
  end.

Definition trimStart (s : jsstring) : jsstring := dropWhile isSpace s.
Definition trimEnd (s : jsstring) : jsstring := rev (dropWhile isSpace (rev s)).
Definition trim (s : jsstring) : jsstring := trimEnd (trimStart s).

Fixpoint startsWith (s p : jsstring) : bool :=
  match p, s with
  | [], _ => true
  | x :: p', c :: s' => N.eqb x c && startsWith s' p'
  | _ :: _, [] => false
  end.

Fixpoint includes (s p : jsstring) : bool :=
  startsWith s p ||
  match s with
  | [] => false
  | _ :: s' => includes s' p
  end.

Definition includesUnit (s : jsstring) (c : codeunit) : bool :=
  existsb (N.eqb c) s.

(** [s.split(sep)] for a separator that matches exactly one code unit: a
    one-character string or a character class. *)
Fixpoint splitOn (sep : codeunit -> bool) (s : jsstring) : list jsstring :=
  match s with
  | [] => [[]]
  | c :: s' =>
      match splitOn sep s' with
      | cur :: rest => if sep c then [] :: cur :: rest else (c :: cur) :: rest
      | [] => [[]]
      end
  end.

Fixpoint join (sep : jsstring) (l : list jsstring) : jsstring :=
  match l with
  | [] => []
  | [x] => x
  | x :: l' => x ++ sep ++ join sep l'
  end.

Definition memStr (x : jsstring) (l : list jsstring) : bool :=
  existsb (streq x) l.

(** A JavaScript [Set] of strings: insertion-ordered, no duplicates. *)
Definition setAdd (s : list jsstring) (x : jsstring) : list jsstring :=
  if memStr x s then s else s ++ [x].

Definition setFromList (l : list jsstring) : list jsstring :=
  fold_left setAdd l [].

(** ** Regular expressions

    A backtracking matcher in continuation-passing style with the priorities
    of ECMAScript: the left alternative first, greedy repetition, and an
    iteration of a repetition that consumes nothing is rejected.  [prev] is
    the code unit before the current position ([None] at the start of the
    input); the continuation receives the position after the match. *)

Inductive regex :=
| RUnit (p : codeunit -> bool)
| REmpty
| RSeq (a b : regex)
| RAlt (a b : regex)
| RStar (a : regex)
| RBol
| REol
| RWordB.

Definition RSeqs (l : list regex) : regex := fold_right RSeq REmpty l.
Definition RAlts (l : list regex) : regex :=
  match l with
  | [] => REmpty
  | a :: l' => fold_left RAlt l' a
  end.
Definition RPlus (a : regex) : regex := RSeq a (RStar a).
Definition ROpt (a : regex) : regex := RAlt a REmpty.
Fixpoint RRep (n : nat) (a : regex) : regex :=
  match n with
  | O => REmpty
  | S n' => RSeq a (RRep n' a)
  end.
(** [a{0,extra}], greedy. *)
Fixpoint RUpTo (extra : nat) (a : regex) : regex :=
  match extra with
  | O => REmpty
  | S n' => ROpt (RSeq a (RUpTo n' a))
  end.
Definition RLit (s : jsstring) : regex := RSeqs (map (fun c => RUnit (N.eqb c)) s).
Definition RLitI (s : jsstring) : regex := RSeqs (map (fun c => RUnit (eqUnitCI c)) s).

Definition isWordOpt (o : option codeunit) : bool :=
  match o with Some c => isWordChar c | None => false end.

Definition atWordBoundary (prev : option codeunit) (s : jsstring) : bool :=
  xorb (isWordOpt prev) (isWordOpt (hd_error s)).

Definition Cont := option codeunit -> jsstring -> option jsstring.

(** The loop of a greedy repetition.  [ma] matches one iteration; [n]
    bounds the number of further iterations and starts at the length of the
    remaining input, which is enough because an iteration that consumes
    nothing is rejected. *)
Definition starLoop (ma : option codeunit -> jsstring -> Cont -> option jsstring)
  (k : Cont) : nat -> option codeunit -> jsstring -> option jsstring :=
  fix loop (n : nat) (prev : option codeunit) (s : jsstring) : option jsstring :=
    match
      ma prev s
        (fun p' s' =>
           if Nat.ltb (length s') (length s) then
             match n with
             | S n' => loop n' p' s'
             | O => None
             end
           else None)
    with
    | Some x => Some x
    | None => k prev s
    end.

Fixpoint rmatch (r : regex) (prev : option codeunit) (s : jsstring) (k : Cont)
  {struct r} : option jsstring :=
  match r with
  | RUnit p =>
      match s with
      | c :: s' => if p c then k (Some c) s' else None
      | [] => None
      end
  | REmpty => k prev s
  | RSeq a b => rmatch a prev s (fun p' s' => rmatch b p' s' k)
  | RAlt a b =>
      match rmatch a prev s k with
      | Some x => Some x
      | None => rmatch b prev s k
      end
  | RStar a => starLoop (rmatch a) k (length s) prev s
  | RBol => match prev with None => k prev s | Some _ => None end
  | REol => match s with [] => k prev s | _ :: _ => None end
  | RWordB => if atWordBoundary prev s then k prev s else None
  end.

(** The text matched by [r] starting exactly at this position. *)
Definition matchHere (r : regex) (prev : option codeunit) (s : jsstring)
  : option jsstring :=
  match rmatch r prev s (fun _ rest => Some rest) with
  | Some rest => Some (firstn (length s - length rest) s)
  | None => None
  end.

(** The leftmost match: [match[0]] of [s.match(r)] and of [r.exec(s)]. *)
Fixpoint searchFrom (r : regex) (prev : option codeunit) (s : jsstring)
  : option jsstring :=
  match matchHere r prev s with
  | Some m => Some m
  | None =>
      match s with
      | [] => None
      | c :: s' => searchFrom r (Some c) s'
      end
  end.

Definition regexMatch (r : regex) (s : jsstring) : option jsstring :=
  searchFrom r None s.

Definition regexTest (r : regex) (s : jsstring) : bool :=
  match regexMatch r s with Some _ => true | None => false end.

(** [s.replace(/^.../, '')] for an anchored pattern: the matched prefix is
    removed, and the string is unchanged when there is no match. *)
Definition removePrefixMatch (r : regex) (s : jsstring) : jsstring :=
  match matchHere r None s with
  | Some m => skipn (length m) s
  | None => s
  end.

(** ** Data model (lib/types.ts)

    Entries are built field by field and read back through chains such as
    [e.title || e.role || e.position]; they are objects with string-valued
    properties in insertion order, plus the one array-valued property of
    their type. *)

Definition StrObj := list (string * jsstring).

Fixpoint prop (o : StrObj) (k : string) : option jsstring :=
  match o with
  | [] => None
  | (k', v) :: o' => if String.eqb k k' then Some v else prop o' k
  end.

Fixpoint setProp (o : StrObj) (k : string) (v : jsstring) : StrObj :=
  match o with
  | [] => [(k, v)]
  | (k', v') :: o' =>
      if String.eqb k k' then (k', v) :: o' else (k', v') :: setProp o' k v
  end.

(** Truthiness of an optional string: [undefined] and the empty string are
    falsy. *)
Definition truthy (v : option jsstring) : bool :=
  match v with
  | Some (_ :: _) => true
  | _ => false
  end.

(** [a || b] on optional strings. *)
Definition orElse (a b : option jsstring) : option jsstring :=
  if truthy a then a else b.

(** [a || ''] *)
Definition orEmpty (a : option jsstring) : jsstring :=
  match a with
  | Some (c :: s) => c :: s
  | _ => []
  end.

Definition EducationEntry := StrObj.

Record ExperienceEntry := {
  exp_fields : StrObj;
  responsibilities : option (list jsstring)
}.

Record ProjectEntry := {
  proj_fields : StrObj;
  technologies : option (list jsstring)
}.

Record ContactInfo := {
  name : option jsstring;
  email : option jsstring;
  phone : option jsstring;
  location : option jsstring
}.

Inductive SectionKind :=
| Objective | Skills | Education | Experience | Projects | Certifications
| Languages.

Definition SectionKind_eqb (a b : SectionKind) : bool :=
  match a, b with
  | Objective, Objective | Skills, Skills | Education, Education
  | Experience, Experience | Projects, Projects
  | Certifications, Certifications | Languages, Languages => true
  | _, _ => false
  end.

(** Iteration order of [Object.entries(sectionKeywords)]. *)
Definition sectionOrder : list SectionKind :=
  [Objective; Skills; Education; Experience; Projects; Certifications;
   Languages].

(** [_raw_sections]: one optional string per section key. *)
Module Raw.
Record t := {
  objective : option jsstring;
  skills : option jsstring;
  education : option jsstring;
  experience : option jsstring;
  projects : option jsstring;
  certifications : option jsstring;
  languages : option jsstring
}.

Definition empty : t := Build_t None None None None None None None.

Definition get (k : SectionKind) (r : t) : option jsstring :=
  match k with
  | Objective => objective r
  | Skills => skills r
  | Education => education r
  | Experience => experience r
  | Projects => projects r
  | Certifications => certifications r
  | Languages => languages r
  end.

Definition set (k : SectionKind) (v : jsstring) (r : t) : t :=
  match k with
  | Objective =>
      Build_t (Some v) (skills r) (education r) (experience r) (projects r)
        (certifications r) (languages r)
  | Skills =>
      Build_t (objective r) (Some v) (education r) (experience r)
        (projects r) (certifications r) (languages r)
  | Education =>
      Build_t (objective r) (skills r) (Some v) (experience r) (projects r)
        (certifications r) (languages r)
  | Experience =>
      Build_t (objective r) (skills r) (education r) (Some v) (projects r)
        (certifications r) (languages r)
  | Projects =>
      Build_t (objective r) (skills r) (education r) (experience r)
        (Some v) (certifications r) (languages r)
  | Certifications =>
      Build_t (objective r) (skills r) (education r) (experience r)
        (projects r) (Some v) (languages r)
  | Languages =>
      Build_t (objective r) (skills r) (education r) (experience r)
        (projects r) (certifications r) (Some v)
  end.
End Raw.

Record ResumeData := {
  objective_or_summary : option jsstring;
  skills_or_tech_stack : option (list jsstring);
  education : option (list EducationEntry);
  experience : option (list ExperienceEntry);
  projects : option (list ProjectEntry);
  certifications : option (list jsstring);
  languages : option (list jsstring);
  contact_information : option ContactInfo;
  _raw_sections : option Raw.t;
  _raw_text : option jsstring
}.

(** [parsed._raw_sections?.<kind>] *)
Definition rawSection (parsed : ResumeData) (k : SectionKind) : option jsstring :=
  match _raw_sections parsed with
  | Some r => Raw.get k r
  | None => None
  end.

Definition set_objective_or_summary (v : jsstring) (p : ResumeData) :=
  Build_ResumeData (Some v) (skills_or_tech_stack p) (education p)
    (experience p) (projects p) (certifications p) (languages p)
    (contact_information p) (_raw_sections p) (_raw_text p).
Definition set_skills_or_tech_stack (v : list jsstring) (p : ResumeData) :=
  Build_ResumeData (objective_or_summary p) (Some v) (education p)
    (experience p) (projects p) (certifications p) (languages p)
    (contact_information p) (_raw_sections p) (_raw_text p).
Definition set_education (v : list EducationEntry) (p : ResumeData) :=
  Build_ResumeData (objective_or_summary p) (skills_or_tech_stack p) (Some v)
    (experience p) (projects p) (certifications p) (languages p)
    (contact_information p) (_raw_sections p) (_raw_text p).
Definition set_experience (v : list ExperienceEntry) (p : ResumeData) :=
  Build_ResumeData (objective_or_summary p) (skills_or_tech_stack p)
    (education p) (Some v) (projects p) (certifications p) (languages p)
    (contact_information p) (_raw_sections p) (_raw_text p).
Definition set_projects (v : list ProjectEntry) (p : ResumeData) :=
  Build_ResumeData (objective_or_summary p) (skills_or_tech_stack p)
    (education p) (experience p) (Some v) (certifications p) (languages p)
    (contact_information p) (_raw_sections p) (_raw_text p).
Definition set_certifications (v : list jsstring) (p : ResumeData) :=
  Build_ResumeData (objective_or_summary p) (skills_or_tech_stack p)
    (education p) (experience p) (projects p) (Some v) (languages p)
    (contact_information p) (_raw_sections p) (_raw_text p).
Definition set_languages (v : list jsstring) (p : ResumeData) :=
  Build_ResumeData (objective_or_summary p) (skills_or_tech_stack p)
    (education p) (experience p) (projects p) (certifications p) (Some v)
    (contact_information p) (_raw_sections p) (_raw_text p).
Definition set_contact_information (v : ContactInfo) (p : ResumeData) :=
  Build_ResumeData (objective_or_summary p) (skills_or_tech_stack p)
    (education p) (experience p) (projects p) (certifications p)
    (languages p) (Some v) (_raw_sections p) (_raw_text p).
Definition set_raw_sections (v : Raw.t) (p : ResumeData) :=
  Build_ResumeData (objective_or_summary p) (skills_or_tech_stack p)
    (education p) (experience p) (projects p) (certifications p)
    (languages p) (contact_information p) (Some v) (_raw_text p).

(** [!arr || arr.length === 0] *)
Definition noItems {A} (l : option (list A)) : bool :=
  match l with
  | Some (_ :: _) => false
  | _ => true
  end.

(** [arr || []] *)
Definition orNil {A} (l : option (list A)) : list A :=
  match l with
  | Some x => x
  | None => []
  end.

(** ** Regular expressions of the parser *)

Definition cls (p : codeunit -> bool) : regex := RUnit p.
Definition digit : regex := RUnit isDigit.
Definition space : regex := RUnit isSpace.

(** [/^[A-Z\s:]+$/] *)
Definition allCapsRe : regex :=
  RSeqs [RBol; RPlus (cls (fun c => isUpperAZ c || isSpace c || N.eqb c cu_colon)); REol].

(** [/^[-•·\d.)\s]+/] *)
Definition leadingMarksRe : regex :=
  RSeqs [RBol;
         RPlus (cls (fun c => isOneOf [cu_minus; cu_bullet; cu_middot] c
                              || isDigit c
                              || isOneOf [cu_period; cu_rparen] c
                              || isSpace c))].

(** [/^\d+$/] *)
Definition digitsOnlyRe : regex := RSeqs [RBol; RPlus digit; REol].

(** [/\b(19|20)\d{2}\b/] *)
Definition yearRe : regex :=
  RSeqs [RWordB; RAlt (RLit (str "19")) (RLit (str "20")); RRep 2 digit; RWordB].

(** [/\b(Jan|Feb|Mar|Apr|May|Jun|Jul|Aug|Sep|Oct|Nov|Dec)[a-z]*\s+\d{4}\b|\b\d{4}\s*[-–—]\s*(present|current|\d{4})\b/i] *)
Definition datePattern : regex :=
  RAlt
    (RSeqs [RWordB;
            RAlts (map (fun m => RLitI (str m))
                     ["Jan"; "Feb"; "Mar"; "Apr"; "May"; "Jun"; "Jul"; "Aug";
                      "Sep"; "Oct"; "Nov"; "Dec"]%string);
            RStar (cls isLetterAZ); RPlus space; RRep 4 digit; RWordB])
    (RSeqs [RWordB; RRep 4 digit; RStar space;
            cls (isOneOf [cu_minus; cu_endash; cu_emdash]); RStar space;
            RAlts [RLitI (str "present"); RLitI (str "current"); RRep 4 digit];
            RWordB]).

(** [/^[-•·]\s*/] *)
Definition bulletRe : regex :=
  RSeqs [RBol; cls (isOneOf [cu_minus; cu_bullet; cu_middot]); RStar space].

(** [/^\d+[.)]\s/] *)
Definition numberedRe : regex :=
  RSeqs [RBol; RPlus digit; cls (isOneOf [cu_period; cu_rparen]); space].

(** [/^\d{4}/] *)
Definition year4Re : regex := RSeqs [RBol; RRep 4 digit].

(** [/^[-•*\d.)\s]+/] *)
Definition projectMarksRe : regex :=
  RSeqs [RBol;
         RPlus (cls (fun c => isOneOf [cu_minus; cu_bullet; cu_star] c
                              || isDigit c
                              || isOneOf [cu_period; cu_rparen] c
                              || isSpace c))].

(** [/(javascript|python|...|graphql)/i] *)
Definition techPattern : regex :=
  RAlts (map (fun w => RLitI (str w))
           ["javascript"; "python"; "java"; "react"; "node"; "sql"; "html";
            "css"; "typescript"; "angular"; "vue"; "docker"; "aws"; "azure";
            "git"; "mongodb"; "postgresql"; "mysql"; "redis"; "linux";
            "windows"; "api"; "rest"; "graphql"]%string).

(** [/\b[A-Za-z0-9._%+-]+@[A-Za-z0-9.-]+\.[A-Z|a-z]{2,}\b/g] *)
Definition emailRegex : regex :=
  RSeqs [RWordB;
         RPlus (cls (fun c => isLetterAZ c || isDigit c
                              || isOneOf (str "._%+-") c));
         cls (N.eqb cu_at);
         RPlus (cls (fun c => isLetterAZ c || isDigit c || isOneOf (str ".-") c));
         cls (N.eqb cu_period);
         RRep 2 (cls (fun c => isLetterAZ c || N.eqb c cu_pipe));
         RStar (cls (fun c => isLetterAZ c || N.eqb c cu_pipe));
         RWordB].

(** [/(\+?\d{1,3}[-.\s]?)?\(?\d{3}\)?[-.\s]?\d{3}[-.\s]?\d{4}/g] *)
Definition phoneRegex : regex :=
  let sepOpt := ROpt (cls (fun c => isOneOf (str "-.") c || isSpace c)) in
  RSeqs [ROpt (RSeqs [ROpt (RLit (str "+")); digit; RUpTo 2 digit; sepOpt]);
         ROpt (RLit (str "(")); RRep 3 digit; ROpt (RLit (str ")")); sepOpt;
         RRep 3 digit; sepOpt; RRep 4 digit].

(** [/(?:https?:\/\/)?(?:www\.)?linkedin\.com\/in\/[\w-]+/gi] *)
Definition linkedinRegex : regex :=
  RSeqs [ROpt (RSeqs [RLitI (str "http"); ROpt (RLitI (str "s")); RLit (str "://")]);
         ROpt (RLitI (str "www."));
         RLitI (str "linkedin.com/in/");
         RPlus (cls (fun c => isWordChar c || N.eqb c cu_minus))].

(** ** Field extractors of the enhanced parser *)

Definition techKeywords : list jsstring :=
  map str
    ["javascript"; "typescript"; "python"; "java"; "c++"; "c#"; "php"; "ruby";
     "go"; "rust"; "swift"; "kotlin";
     "react"; "angular"; "vue"; "node"; "express"; "django"; "flask"; "spring";
     "laravel"; "rails";
     "html"; "css"; "sass"; "scss"; "less"; "bootstrap"; "tailwind";
     "material-ui";
     "sql"; "mysql"; "postgresql"; "mongodb"; "redis"; "elasticsearch"; "oracle";
     "aws"; "azure"; "gcp"; "docker"; "kubernetes"; "jenkins"; "git"; "github";
     "gitlab";
     "linux"; "windows"; "macos"; "unix";
     "agile"; "scrum"; "devops"; "ci/cd"; "microservices"; "rest"; "graphql";
     "api"]%string.

Definition nonSkillWords : list jsstring :=
  map str ["and"; "or"; "the"; "with"; "using"; "experience"; "years";
           "proficient"]%string.

Definition nonSkillWordsLenient : list jsstring :=
  map str ["and"; "or"; "the"; "with"; "using"; "experience"; "years";
           "proficient"; "skills"; "technical"]%string.

(** [line.length < 30 && /^[A-Z\s:]+$/.test(line)] *)
Definition looksLikeHeader (line : jsstring) : bool :=
  (length line <? 30)%nat && regexTest allCapsRe line.

(** [/[,|•·\n\t]/] *)
Definition skillDelimiter (c : codeunit) : bool :=
  isOneOf [cu_comma; cu_pipe; cu_bullet; cu_middot; cu_newline; cu_tab] c.

(** Body of the inner loop of the first pass: [Some t] when [skills.add(t)]
    is reached for this part. *)
Definition strictToken (part : jsstring) : option jsstring :=
  let trimmed := trim part in
  let trimmed := trim (removePrefixMatch leadingMarksRe trimmed) in
  if (1 <? length trimmed)%nat && (length trimmed <? 100)%nat then
    let lowerTrimmed := toLowerCase trimmed in
    if existsb (fun keyword => includes lowerTrimmed keyword
                               || includes keyword lowerTrimmed) techKeywords
    then Some trimmed
    else if (2 <? length trimmed)%nat then
      if negb (memStr lowerTrimmed nonSkillWords) then Some trimmed else None
    else None
  else None.

(** Body of the inner loop of the second pass: [Some t] when
    [allSkills.push(t)] is reached. *)
Definition lenientToken (part : jsstring) : option jsstring :=
  let trimmed := trim (removePrefixMatch leadingMarksRe part) in
  if (1 <? length trimmed)%nat && (length trimmed <? 50)%nat then
    let lowerTrimmed := toLowerCase trimmed in
    if negb (memStr lowerTrimmed nonSkillWordsLenient)
       && negb (regexTest digitsOnlyRe lowerTrimmed)
    then Some trimmed else None
  else None.

(** First pass: the [Set] after the nested loops. *)
Definition strictPass (lines : list jsstring) : list jsstring :=
  fold_left
    (fun skills line =>
       if looksLikeHeader line then skills
       else
         fold_left
           (fun skills part =>
              match strictToken part with
              | Some t => setAdd skills t
              | None => skills
              end)
           (splitOn skillDelimiter line) skills)
    lines [].

(** Second pass: the array [allSkills] after the nested loops. *)
Definition lenientPass (lines : list jsstring) : list jsstring :=
  fold_left
    (fun allSkills line =>
       if looksLikeHeader line then allSkills
       else
         fold_left
           (fun allSkills part =>
              match lenientToken part with
              | Some t => allSkills ++ [t]
              | None => allSkills
              end)
           (splitOn skillDelimiter line) allSkills)
    lines [].

Definition extractSkills (lines : list jsstring) : list jsstring :=
  let skills := strictPass lines in
  if (length skills <? 3)%nat then
    let allSkills := lenientPass lines in
    setFromList (skills ++ allSkills)
  else skills.

(** [extractEducation]: the loop state is [(entries, currentEntry)]. *)
Definition educationStep (st : list EducationEntry * EducationEntry)
  (line : jsstring) : list EducationEntry * EducationEntry :=
  let '(entries, currentEntry) := st in
  match regexMatch yearRe line with
  | Some year =>
      (match currentEntry with
       | [] => entries
       | _ :: _ => entries ++ [currentEntry]
       end,
       [("year"%string, year); ("details"%string, line)])
  | None =>
      if negb (truthy (prop currentEntry "institution")) && (3 <? length line)%nat then
        (entries, setProp currentEntry "institution" line)
      else if negb (truthy (prop currentEntry "degree")) && (3 <? length line)%nat then
        (entries, setProp currentEntry "degree" line)
      else if truthy (prop currentEntry "degree") then
        (entries,
         setProp currentEntry "details"
           (orEmpty (prop currentEntry "details") ++ str " " ++ line))
      else st
  end.

Definition extractEducation (lines : list jsstring) : list EducationEntry :=
  let '(entries, currentEntry) := fold_left educationStep lines ([], []) in
  match currentEntry with
  | [] => entries
  | _ :: _ => entries ++ [currentEntry]
  end.

(** [extractExperience]: the loop state is
    [(entries, currentEntry, responsibilities)]. *)
Definition experienceStep
  (st : list ExperienceEntry * StrObj * list jsstring) (line : jsstring)
  : list ExperienceEntry * StrObj * list jsstring :=
  let '(entries, currentEntry, resp) := st in
  if regexTest datePattern line then
    match currentEntry with
    | [] => (entries, [("duration"%string, line)], resp)
    | _ :: _ =>
        (entries ++ [Build_ExperienceEntry currentEntry (Some resp)],
         [("duration"%string, line)], [])
    end
  else if regexTest bulletRe line then
    (entries, currentEntry, resp ++ [trim (removePrefixMatch bulletRe line)])
  else if negb (truthy (prop currentEntry "company")) && (2 <? length line)%nat then
    (entries, setProp currentEntry "company" line, resp)
  else if negb (truthy (prop currentEntry "position")) && (2 <? length line)%nat then
    (entries, setProp currentEntry "position" line, resp)
  else if (0 <? length (trim line))%nat then
    (entries,
     setProp currentEntry "details"
       (orEmpty (prop currentEntry "details") ++ str " " ++ line),
     resp)
  else st.

Definition extractExperience (lines : list jsstring) : list ExperienceEntry :=
  let '(entries, currentEntry, resp) :=
    fold_left experienceStep lines ([], [], []) in
  match currentEntry with
  | [] => entries
  | _ :: _ => entries ++ [Build_ExperienceEntry currentEntry (Some resp)]
  end.

Definition emptyProject : ProjectEntry := Build_ProjectEntry [] None.

(** [currentEntry.name || currentEntry.description] *)
Definition projectHasContent (e : ProjectEntry) : bool :=
  truthy (prop (proj_fields e) "name") || truthy (prop (proj_fields e) "description").

Definition isNewProject (trimmedLine : jsstring) : bool :=
  startsWith trimmedLine (str "-")
  || startsWith trimmedLine [cu_bullet]
  || startsWith trimmedLine (str "*")
  || regexTest numberedRe trimmedLine
  || ((length trimmedLine <? 80)%nat
      && negb (includes trimmedLine (str ","))
      && negb (regexTest year4Re trimmedLine)).

(** [str.split(/[,|]/).map(t => t.trim()).filter(Boolean)] *)
Definition splitTechnologies (s : jsstring) : list jsstring :=
  filter (fun t => negb (isEmpty t))
    (map trim (splitOn (isOneOf [cu_comma; cu_pipe]) s)).

(** [extractProjects]: the loop state is [(entries, currentEntry)]. *)
Definition projectStep (st : list ProjectEntry * ProjectEntry) (line : jsstring)
  : list ProjectEntry * ProjectEntry :=
  let '(entries, currentEntry) := st in
  let trimmedLine := trim line in
  if isEmpty trimmedLine then st
  else if isNewProject trimmedLine then
    let entries :=
      if projectHasContent currentEntry then entries ++ [currentEntry]
      else entries in
    let cleanLine := trim (removePrefixMatch projectMarksRe trimmedLine) in
    if isEmpty cleanLine then (entries, emptyProject)
    else (entries, Build_ProjectEntry [("name"%string, cleanLine)] None)
  else if truthy (prop (proj_fields currentEntry) "name") then
    let fields := proj_fields currentEntry in
    (* [description += ' ' + trimmedLine]; the description is set and
       non-empty wherever this is reached *)
    let appended :=
      setProp fields "description"
        (orEmpty (prop fields "description") ++ str " " ++ trimmedLine) in
    if negb (truthy (prop fields "description")) then
      (entries,
       Build_ProjectEntry (setProp fields "description" trimmedLine)
         (technologies currentEntry))
    else
      match technologies currentEntry with
      | None =>
          if regexTest techPattern trimmedLine
             || includes trimmedLine (str ",")
             || includes trimmedLine (str "|")
          then (entries, Build_ProjectEntry fields (Some (splitTechnologies trimmedLine)))
          else (entries, Build_ProjectEntry appended None)
      | Some techs => (entries, Build_ProjectEntry appended (Some techs))
      end
  else if (length trimmedLine <? 100)%nat
          && negb (regexTest year4Re trimmedLine)
          && (5 <? length trimmedLine)%nat
  then (entries, Build_ProjectEntry [("name"%string, trimmedLine)] None)
  else st.

(** The last-resort loop of [extractProjects]. *)
Definition bareProjects (lines : list jsstring) : list ProjectEntry :=
  fold_left
    (fun entries line =>
       let trimmed := trim line in
       if negb (isEmpty trimmed) && (10 <? length trimmed)%nat
          && (length trimmed <? 200)%nat
       then
         if negb (regexTest year4Re trimmed)
            && negb (regexTest allCapsRe trimmed)
            && negb (includes trimmed (str "@"))
            && (10 <? length trimmed)%nat
         then entries ++ [Build_ProjectEntry
                            [("name"%string, trimmed); ("description"%string, [])]
                            None]
         else entries
       else entries)
    lines [].

Definition extractProjects (lines : list jsstring) : list ProjectEntry :=
  let '(entries, currentEntry) := fold_left projectStep lines ([], emptyProject) in
  let entries :=
    if projectHasContent currentEntry then entries ++ [currentEntry]
    else entries in
  match entries, lines with
  | [], _ :: _ => bareProjects lines
  | _, _ => entries
  end.

(** ** Segmentation *)

Definition nl : jsstring := [cu_newline].

(** [processSectionBuffer]; the section [''] of the source is [None]. *)
Definition processSectionBuffer (parsed : ResumeData)
  (section : option SectionKind) (buffer : list jsstring) : ResumeData :=
  let content := join nl buffer in
  let raw := match _raw_sections parsed with Some r => r | None => Raw.empty end in
  let parsed := set_raw_sections raw parsed in
  match section with
  | Some Objective =>
      set_raw_sections (Raw.set Objective content raw)
        (set_objective_or_summary content parsed)
  | Some Skills =>
      set_skills_or_tech_stack (extractSkills buffer)
        (set_raw_sections (Raw.set Skills content raw) parsed)
  | Some Education =>
      set_education (extractEducation buffer)
        (set_raw_sections (Raw.set Education content raw) parsed)
  | Some Experience =>
      set_experience (extractExperience buffer)
        (set_raw_sections (Raw.set Experience content raw) parsed)
  | Some Projects =>
      set_projects (extractProjects buffer)
        (set_raw_sections (Raw.set Projects content raw) parsed)
  | Some Certifications =>
      set_certifications
        (filter (fun line => (0 <? length (trim line))%nat) buffer)
        (set_raw_sections (Raw.set Certifications content raw) parsed)
  | Some Languages =>
      set_languages
        (filter (fun line => (0 <? length (trim line))%nat) buffer)
        (set_raw_sections (Raw.set Languages content raw) parsed)
  | None => parsed
  end.

Definition sectionKeywords (section : SectionKind) : list jsstring :=
  map str
    match section with
    | Objective =>
        ["objective"; "summary"; "profile"; "about"; "professional summary"]
    | Skills =>
        ["skills"; "technical skills"; "tech stack"; "technologies";
         "competencies"; "expertise"; "core competencies";
         "technical expertise"; "programming languages"; "tools"; "software"]
    | Education =>
        ["education"; "academic"; "qualification"; "degree"; "university";
         "college"; "academic background"]
    | Experience =>
        ["experience"; "work history"; "employment";
         "professional experience"; "work experience"; "career";
         "employment history"]
    | Projects =>
        ["projects"; "personal projects"; "portfolio"; "project experience";
         "key projects"; "project"; "side projects"; "academic projects";
         "notable projects"]
    | Certifications =>
        ["certifications"; "certificates"; "licenses"; "certification";
         "credentials"]
    | Languages =>
        ["languages"; "language proficiency"; "language skills";
         "spoken languages"]
    end%string.

(** The [isHeader] test of the header loop for one section's keywords. *)
Definition isHeader (keywords : list jsstring) (line lowerLine : jsstring) : bool :=
  existsb
    (fun keyword =>
       streq lowerLine keyword
       || streq lowerLine (keyword ++ str ":")
       || startsWith lowerLine (keyword ++ str ":")
       || startsWith lowerLine (keyword ++ str " -")
       || startsWith lowerLine (keyword ++ str " ")
       || (includes lowerLine keyword
           && ((length line <? 60)%nat
               || regexTest allCapsRe line
               || includes line (str ":")
               || ((length line <? 100)%nat
                   && negb (includes line (str ","))
                   && negb (includes line (str "."))))))
    keywords.

Record ScanState := {
  parsed : ResumeData;
  currentSection : option SectionKind;
  buffer : list jsstring
}.

(** One iteration of the loop over [Object.entries(sectionKeywords)].  The
    [continue] that ends the [if (isHeader)] block belongs to this inner
    loop, so the iteration goes on with the next section. *)
Definition headerIter (line lowerLine : jsstring) (acc : ScanState * bool)
  (section : SectionKind) : ScanState * bool :=
  let '(st, foundSection) := acc in
  if isHeader (sectionKeywords section) line lowerLine then
    let parsed' :=
      match buffer st with
      | [] => parsed st
      | _ :: _ => processSectionBuffer (parsed st) (currentSection st) (buffer st)
      end in
    (Build_ScanState parsed' (Some section) [], true)
  else acc.

Definition headerLoop (line lowerLine : jsstring) (st : ScanState)
  : ScanState * bool :=
  fold_left (headerIter line lowerLine) sectionOrder (st, false).

(** Contact extraction on the first five lines.  [contact_information] is
    initialised by the parser, so the [None] case is never reached from
    [parseResumeTextFallback]. *)
Definition contactStep (line : jsstring) (parsed : ResumeData) : ResumeData :=
  match contact_information parsed with
  | None => parsed
  | Some ci =>
      let ci :=
        match regexMatch emailRegex line with
        | Some m =>
            if negb (truthy (email ci))
            then Build_ContactInfo (name ci) (Some m) (phone ci) (location ci)
            else ci
        | None => ci
        end in
      let ci :=
        match regexMatch phoneRegex line with
        | Some m =>
            if negb (truthy (phone ci))
            then Build_ContactInfo (name ci) (email ci) (Some m) (location ci)
            else ci
        | None => ci
        end in
      let ci :=
        match regexMatch linkedinRegex line with
        | Some m =>
            if negb (truthy (location ci))
            then Build_ContactInfo (name ci) (email ci) (phone ci) (Some m)
            else ci
        | None => ci
        end in
      set_contact_information ci parsed
  end.

(** The name is the first line unless it contains a section keyword. *)
Definition nameStep (line lowerLine : jsstring) (parsed : ResumeData) : ResumeData :=
  match contact_information parsed with
  | None => parsed
  | Some ci =>
      if negb (truthy (name ci))
         && negb (existsb (fun keyword => includes lowerLine keyword)
                    (flat_map sectionKeywords sectionOrder))
      then set_contact_information
             (Build_ContactInfo (Some line) (email ci) (phone ci) (location ci))
             parsed
      else parsed
  end.

(** Body of the main loop for [lines[i]]. *)
Definition lineStep (i : nat) (rawLine : jsstring) (st : ScanState) : ScanState :=
  let line := trim rawLine in
  if isEmpty line then st
  else
    let lowerLine := toLowerCase line in
    let parsed1 := if (i <? 5)%nat then contactStep line (parsed st) else parsed st in
    let parsed2 := if (i =? 0)%nat then nameStep line lowerLine parsed1 else parsed1 in
    let '(st', foundSection) :=
      headerLoop line lowerLine
        (Build_ScanState parsed2 (currentSection st) (buffer st)) in
    if negb foundSection && (0 <? length line)%nat
    then Build_ScanState (parsed st') (currentSection st') (buffer st' ++ [line])
    else st'.

Fixpoint scanLines (i : nat) (lines : list jsstring) (st : ScanState) : ScanState :=
  match lines with
  | [] => st
  | rawLine :: rest => scanLines (S i) rest (lineStep i rawLine st)
  end.

(** The flush after the main loop. *)
Definition flushBuffer (st : ScanState) : ResumeData :=
  match buffer st with
  | [] => parsed st
  | _ :: _ => processSectionBuffer (parsed st) (currentSection st) (buffer st)
  end.

Definition initialParsed : ResumeData :=
  Build_ResumeData None (Some []) (Some []) (Some []) (Some []) (Some [])
    (Some []) (Some (Build_ContactInfo (Some []) (Some []) (Some []) (Some [])))
    None None.

(** [text.split('\n').filter(line => line.trim())] *)
Definition nonBlankLines (text : jsstring) : list jsstring :=
  filter (fun line => negb (isEmpty (trim line))) (splitOn (N.eqb cu_newline) text).

(** The parse before the skills fallback. *)
Definition segment (text : jsstring) : ResumeData :=
  flushBuffer (scanLines 0 (nonBlankLines text) (Build_ScanState initialParsed None [])).

(** ** Skills fallback *)

(** First pass of the fallback: is this line a loose skills header? *)
Definition looseSkillsHeader (rawLine : jsstring) : bool :=
  let lowerLine := trim (toLowerCase rawLine) in
  existsb
    (fun keyword =>
       includes lowerLine keyword
       && ((length rawLine <? 150)%nat
           || streq lowerLine keyword
           || startsWith lowerLine keyword))
    (sectionKeywords Skills).

(** [skillsStartIndex]; [None] is the [-1] of the source. *)
Fixpoint skillsStartIndex (allLines : list jsstring) : option nat :=
  match allLines with
  | [] => None
  | l :: rest =>
      if looseSkillsHeader l then Some O
      else match skillsStartIndex rest with
           | Some i => Some (S i)
           | None => None
           end
  end.

Definition isNewSection (line : jsstring) : bool :=
  let lowerLine := toLowerCase line in
  existsb
    (fun section =>
       negb (SectionKind_eqb section Skills)
       && existsb
            (fun keyword => includes lowerLine keyword && (length line <? 100)%nat)
            (sectionKeywords section))
    sectionOrder.

(** The collecting loop over [allLines] from [skillsStartIndex + 1]. *)
Fixpoint collectSkillsLines (rest : list jsstring) (skillsLines : list jsstring)
  : list jsstring :=
  match rest with
  | [] => skillsLines
  | rawLine :: rest' =>
      let line := trim rawLine in
      if isEmpty line then
        match skillsLines with
        | [] => collectSkillsLines rest' skillsLines
        | _ :: _ =>
            match find (fun l => negb (isEmpty (trim l))) rest' with
            | Some next =>
                if isNewSection (trim next) then skillsLines
                else collectSkillsLines rest' skillsLines
            | None => collectSkillsLines rest' skillsLines
            end
        end
      else if isNewSection line then skillsLines
      else collectSkillsLines rest' (skillsLines ++ [line])
  end.

Definition sweepKeywords : list jsstring :=
  map str
    ["javascript"; "typescript"; "python"; "java"; "c++"; "c#"; "php"; "ruby";
     "go"; "rust";
     "react"; "angular"; "vue"; "node"; "express"; "django"; "flask"; "spring";
     "html"; "css"; "sql"; "mongodb"; "postgresql"; "mysql"; "aws"; "azure";
     "docker"; "kubernetes"]%string.

(** The pattern built for one keyword: [/\bc\+\+/], [/\bc#/], or
    [\b<keyword>\b] with the keyword escaped, that is, taken literally; all
    with the [i] flag. *)
Definition keywordRegex (keyword : jsstring) : regex :=
  if streq keyword (str "c++") then RSeqs [RWordB; RLitI (str "c++")]
  else if streq keyword (str "c#") then RSeqs [RWordB; RLitI (str "c#")]
  else RSeqs [RWordB; RLitI keyword; RWordB].

Definition sweepIter (originalText : jsstring) (foundSkills : list jsstring)
  (keyword : jsstring) : list jsstring :=
  if regexTest (keywordRegex keyword) originalText then
    match regexMatch (keywordRegex keyword) originalText with
    | Some m => foundSkills ++ [m]
    | None => foundSkills
    end
  else foundSkills.

Definition keywordSweep (originalText : jsstring) : list jsstring :=
  fold_left (sweepIter originalText) sweepKeywords [].

(** [!raw || raw.trim().length === 0] *)
Definition rawBlank (raw : option jsstring) : bool :=
  negb (truthy raw) || (length (trim (orEmpty raw)) =? 0)%nat.

Definition setRawSkills (content : jsstring) (parsed : ResumeData) : ResumeData :=
  let raw := match _raw_sections parsed with Some r => r | None => Raw.empty end in
  set_raw_sections (Raw.set Skills content raw) parsed.

Definition fallbackRuns (parsed : ResumeData) : bool :=
  noItems (skills_or_tech_stack parsed) && rawBlank (rawSection parsed Skills).

Definition skillsFallback (originalText : jsstring) (parsed : ResumeData)
  : ResumeData :=
  if fallbackRuns parsed then
    let allLines := splitOn (N.eqb cu_newline) originalText in
    match skillsStartIndex allLines with
    | Some i =>
        let skillsLines := collectSkillsLines (skipn (S i) allLines) [] in
        match skillsLines with
        | [] => parsed
        | _ :: _ =>
            set_skills_or_tech_stack (extractSkills skillsLines)
              (setRawSkills (join nl skillsLines) parsed)
        end
    | None =>
        let foundSkills := keywordSweep originalText in
        match foundSkills with
        | [] => parsed
        | _ :: _ =>
            set_skills_or_tech_stack foundSkills
              (setRawSkills (join (str ", ") foundSkills) parsed)
        end
    end
  else parsed.

Definition parseResumeTextFallback (text : jsstring) : ResumeData :=
  skillsFallback text (segment text).

(** ** The header loop of the plain parser (lib/layoutlmParser.ts) *)

Module Plain.

Definition sectionKeywords (section : SectionKind) : list jsstring :=
  map str
    match section with
    | Objective =>
        ["objective"; "summary"; "profile"; "about"; "professional summary"]
    | Skills =>
        ["skills"; "technical skills"; "tech stack"; "technologies";
         "competencies"; "expertise"]
    | Education =>
        ["education"; "academic"; "qualification"; "degree"; "university";
         "college"]
    | Experience =>
        ["experience"; "work history"; "employment";
         "professional experience"; "work"; "career"]
    | Projects =>
        ["projects"; "personal projects"; "portfolio"; "project experience"]
    | Certifications =>
        ["certifications"; "certificates"; "licenses"; "certification"]
    | Languages =>
        ["languages"; "language proficiency"; "language skills"]
    end%string.

Definition isHeader (keywords : list jsstring) (line lowerLine : jsstring) : bool :=
  existsb (fun keyword => includes lowerLine keyword && (length line <? 50)%nat)
    keywords.

(** The section at which the loop over the entries leaves with [break],
    [None] when it runs to the end with [foundSection] false. *)
Definition headerLoop (line lowerLine : jsstring) : option SectionKind :=
  find (fun section => isHeader (sectionKeywords section) line lowerLine)
    sectionOrder.

End Plain.

(** ** The deterministic responder (lib/chatbot.ts)

    [answerFromParsedDeterministic] takes a [ResumeData]; the entries are
    read through the property chains of the source ([e.title || e.role ||
    e.position], ...), on objects whose property values are strings. *)

Definition FALLBACK : jsstring :=
  str "The resume does not contain this information.".

Definition HELP : jsstring :=
  str "Please ask a question about the resume. Try: 'skills', 'experience', 'education', 'projects', 'contact', or 'summary'.".

(** [" — "] and ["• "] of the template literals. *)
Definition emDashSep : jsstring := [cu_space; cu_emdash; cu_space].
Definition bulletPrefix : jsstring := [cu_bullet; cu_space].

Definition bold (s : jsstring) : jsstring := str "**" ++ s ++ str "**".

Definition formatList (items : list jsstring) : option jsstring :=
  match items with
  | [] => None
  | _ :: _ => Some (join nl (map (fun it => str "- " ++ bold it) items))
  end.

Definition extractSkillNames (skillsRaw : list jsstring) : list jsstring :=
  filter (fun s => negb (isEmpty s)) (map trim skillsRaw).

(** [JSON.stringify] of an object with string-valued properties. *)
Definition hexDigit (n : N) : codeunit :=
  if N.ltb n 10%N then (48 + n)%N else (87 + n)%N.

Definition unicodeEscape (c : codeunit) : jsstring :=
  str "\u" ++ [hexDigit ((c / 4096) mod 16)%N; hexDigit ((c / 256) mod 16)%N;
               hexDigit ((c / 16) mod 16)%N; hexDigit (c mod 16)%N].


Fixpoint quoteJSONBody (s : jsstring) : jsstring :=
  match s with
  | [] => []
  | c :: s' =>
      if N.eqb c 8%N then str "\b" ++ quoteJSONBody s'
      else if N.eqb c 9%N then str "\t" ++ quoteJSONBody s'
      else if N.eqb c 10%N then str "\n" ++ quoteJSONBody s'
      else if N.eqb c 12%N then str "\f" ++ quoteJSONBody s'
      else if N.eqb c 13%N then str "\r" ++ quoteJSONBody s'
      else if N.eqb c 34%N then [92; 34]%N ++ quoteJSONBody s'
      else if N.eqb c 92%N then [92; 92]%N ++ quoteJSONBody s'
      else if N.ltb c 32%N then unicodeEscape c ++ quoteJSONBody s'
      else if isLeadSurrogate c then
        match s' with
        | d :: s'' =>
            if isTrailSurrogate d then c :: d :: quoteJSONBody s''
            else unicodeEscape c ++ quoteJSONBody s'
        | [] => unicodeEscape c
        end
      else if isTrailSurrogate c then unicodeEscape c ++ quoteJSONBody s'
      else c :: quoteJSONBody s'
  end.

Definition quoteJSON (s : jsstring) : jsstring := [34%N] ++ quoteJSONBody s ++ [34%N].

Definition JSON_stringify (o : StrObj) : jsstring :=
  str "{"
  ++ join (str ",")
       (map (fun kv => quoteJSON (str (fst kv)) ++ str ":" ++ quoteJSON (snd kv)) o)
  ++ str "}".

(** [raw && raw.trim().length > 0] *)
Definition rawPresent (raw : option jsstring) : bool :=
  truthy raw && (0 <? length (trim (orEmpty raw)))%nat.

Definition formatExperience (e : ExperienceEntry) : jsstring :=
  let f := prop (exp_fields e) in
  let title := trim (orEmpty (orElse (orElse (f "title"%string) (f "role"%string)) (f "position"%string))) in
  let org := trim (orEmpty (orElse (orElse (f "organization"%string) (f "company"%string)) (f "employer"%string))) in
  let start := orEmpty (orElse (orElse (orElse (f "start_date"%string) (f "start_year"%string)) (f "from"%string)) (f "duration"%string)) in
  let end_ := orEmpty (orElse (orElse (f "end_date"%string) (f "end_year"%string)) (f "to"%string)) in
  let dateRange :=
    if negb (isEmpty start) || negb (isEmpty end_) then
      emDashSep ++ start
      ++ (if negb (isEmpty start) && negb (isEmpty end_) then str " to " else [])
      ++ end_
    else [] in
  let primary :=
    if negb (isEmpty title) then bold title
    else if negb (isEmpty org) then bold org else [] in
  let orgText :=
    if negb (isEmpty title) && negb (isEmpty org) then str ", " ++ org
    else if negb (isEmpty org) then bold org else [] in
  let desc := orEmpty (orElse (f "description"%string) (f "details"%string)) in
  let resp := orNil (responsibilities e) in
  let respText :=
    match resp with
    | [] => []
    | _ :: _ =>
        nl ++ str "  " ++ join (nl ++ str "  ") (map (fun r => bulletPrefix ++ r) resp)
    end in
  str "- " ++ primary ++ orgText ++ dateRange
  ++ (if negb (isEmpty desc) then nl ++ str "  " ++ desc else [])
  ++ respText.

Definition formatEducation (e : EducationEntry) : jsstring :=
  let f := prop e in
  let degree := trim (orEmpty (orElse (f "degree"%string) (f "title"%string))) in
  let inst := trim (orEmpty (orElse (f "institution"%string) (f "school"%string))) in
  let field := trim (orEmpty (f "field"%string)) in
  let year := trim (orEmpty (orElse (f "year"%string) (f "end_year"%string))) in
  let years := if negb (isEmpty year) then emDashSep ++ year else [] in
  let fieldText := if negb (isEmpty field) then str " in " ++ field else [] in
  if negb (isEmpty degree) && negb (isEmpty inst) then
    str "- " ++ bold degree ++ fieldText ++ str ", " ++ inst ++ years
  else if negb (isEmpty degree) then str "- " ++ bold degree ++ fieldText ++ years
  else if negb (isEmpty inst) then str "- " ++ bold inst ++ years
  else if truthy (f "details"%string) then str "- " ++ orEmpty (f "details"%string) ++ years
  else str "- " ++ JSON_stringify e.

Definition formatProject (p : ProjectEntry) : jsstring :=
  let f := prop (proj_fields p) in
  let title := trim (orEmpty (orElse (f "title"%string) (f "name"%string))) in
  let desc := orEmpty (orElse (f "description"%string) (f "details"%string)) in
  let techs := orNil (technologies p) in
  let techText :=
    match techs with
    | [] => []
    | _ :: _ => str " (" ++ join (str ", ") techs ++ str ")"
    end in
  if negb (isEmpty title) then
    str "- " ++ bold title
    ++ (if negb (isEmpty desc) then emDashSep ++ desc else []) ++ techText
  else if negb (isEmpty desc) then str "- " ++ desc ++ techText
  else str "- " ++ firstn 180 (str "[object Object]").

Definition formatContact (ci : ContactInfo) : list jsstring :=
  (if truthy (name ci) then [str "- **Name:** " ++ orEmpty (name ci)] else [])
  ++ (if truthy (email ci) then [str "- **Email:** " ++ orEmpty (email ci)] else [])
  ++ (if truthy (phone ci) then [str "- **Phone:** " ++ orEmpty (phone ci)] else [])
  ++ (if truthy (location ci) then [str "- **Location:** " ++ orEmpty (location ci)] else []).

(** [keys.some((k) => q === k || q.includes(k))] *)
Definition queryMatches (q : jsstring) (keys : list string) : bool :=
  existsb (fun k => streq q (str k) || includes q (str k)) keys.

Definition isSkillQuery (q : jsstring) : bool :=
  queryMatches q ["skill"; "skills"; "technical skills"; "tech"; "tech stack";
                  "technologies"; "competencies"]%string.
Definition isExperienceQuery (q : jsstring) : bool :=
  queryMatches q ["experience"; "work"; "employment"; "jobs"; "job";
                  "work history"; "career"]%string.
Definition isEducationQuery (q : jsstring) : bool :=
  queryMatches q ["education"; "degree"; "college"; "university";
                  "qualification"; "academic"]%string.
Definition isProjectsQuery (q : jsstring) : bool :=
  queryMatches q ["projects"; "project"; "portfolio"; "what projects"]%string.
Definition isCertificationsQuery (q : jsstring) : bool :=
  queryMatches q ["certifications"; "certificate"; "licenses"; "certification";
                  "credentials"]%string.
Definition isContactQuery (q : jsstring) : bool :=
  queryMatches q ["contact"; "email"; "phone"; "contact information";
                  "phone number"]%string.
Definition isSummaryQuery (q : jsstring) : bool :=
  queryMatches q ["summary"; "about"; "objective"; "overview"; "profile"]%string.
Definition isLanguagesQuery (q : jsstring) : bool :=
  queryMatches q ["languages"; "language"; "language skills"]%string.

(** The structured answers, reached when the raw section is absent or blank. *)
Definition structuredLines {A} (format : A -> jsstring) (items : option (list A))
  : jsstring :=
  match orNil items with
  | [] => FALLBACK
  | x :: l => join nl (map format (x :: l))
  end.

Definition answerFromParsedDeterministic (parsed : ResumeData) (q : jsstring)
  : jsstring :=
  if isSkillQuery q then
    let rawSkills := rawSection parsed Skills in
    if rawPresent rawSkills then trim (orEmpty rawSkills)
    else
      let skills := extractSkillNames (orNil (skills_or_tech_stack parsed)) in
      match skills with
      | [] => FALLBACK
      | _ :: _ => orEmpty (orElse (formatList skills) (Some FALLBACK))
      end
  else if isExperienceQuery q then
    let rawExperience := rawSection parsed Experience in
    if rawPresent rawExperience then trim (orEmpty rawExperience)
    else structuredLines formatExperience (experience parsed)
  else if isEducationQuery q then
    let rawEducation := rawSection parsed Education in
    if rawPresent rawEducation then trim (orEmpty rawEducation)
    else structuredLines formatEducation (education parsed)
  else if isProjectsQuery q then
    let rawProjects := rawSection parsed Projects in
    if rawPresent rawProjects then trim (orEmpty rawProjects)
    else structuredLines formatProject (projects parsed)
  else if isCertificationsQuery q then
    let rawCertifications := rawSection parsed Certifications in
    if rawPresent rawCertifications then trim (orEmpty rawCertifications)
    else structuredLines (fun it => str "- " ++ bold it) (certifications parsed)
  else if isContactQuery q then
    let parts :=
      match contact_information parsed with
      | Some ci => formatContact ci
      | None => []
      end in
    match parts with
    | [] => FALLBACK
    | _ :: _ => join nl parts
    end
  else if isSummaryQuery q then
    let rawObjective := rawSection parsed Objective in
    if rawPresent rawObjective then trim (orEmpty rawObjective)
    else
      let text := orEmpty (objective_or_summary parsed) in
      if isEmpty text || isEmpty (trim text) then FALLBACK else trim text
  else if isLanguagesQuery q then
    let rawLanguages := rawSection parsed Languages in
    if rawPresent rawLanguages then trim (orEmpty rawLanguages)
    else
      match orNil (languages parsed) with
      | [] => FALLBACK
      | l :: langs => orEmpty (orElse (formatList (l :: langs)) (Some FALLBACK))
      end
  else if (length q =? 0)%nat then HELP
  else FALLBACK.

(** ** [normalizeParsed] on untyped values

    The argument is [any]: a JSON-like value.  Reading a property of
    [undefined] or [null] throws a TypeError; on every other value the ten
    names read here are own properties or absent (no prototype of a primitive
    or an array defines them). *)

Inductive JSValue :=
| VUndefined
| VNull
| VBool (b : bool)
| VNumber (bits : N)
| VString (s : jsstring)
| VArray (items : list JSValue)
| VObject (props : list (string * JSValue)).

Inductive Completion (A : Type) :=
| Normal (v : A)
| ThrowTypeError.
Arguments Normal {A} v.
Arguments ThrowTypeError {A}.

Definition bind {A B} (c : Completion A) (k : A -> Completion B) : Completion B :=
  match c with
  | Normal v => k v
  | ThrowTypeError => ThrowTypeError
  end.

Notation "x <- c ;; k" := (bind c (fun x => k))
  (at level 61, c at next level, right associativity).

Fixpoint lookup (props : list (string * JSValue)) (k : string) : JSValue :=
  match props with
  | [] => VUndefined
  | (k', v) :: rest => if String.eqb k k' then v else lookup rest k
  end.

(** [v.k] *)
Definition getProp (v : JSValue) (k : string) : Completion JSValue :=
  match v with
  | VUndefined | VNull => ThrowTypeError
  | VObject props => Normal (lookup props k)
  | _ => Normal VUndefined
  end.

Definition isNullish (v : JSValue) : bool :=
  match v with
  | VUndefined | VNull => true
  | _ => false
  end.

(** [a ?? b] *)
Definition coalesce (a b : JSValue) : JSValue := if isNullish a then b else a.

Definition isArray (v : JSValue) : bool :=
  match v with
  | VArray _ => true
  | _ => false
  end.

(** [Array.isArray(v) ? v : []] *)
Definition arrayOrEmpty (v : JSValue) : JSValue := if isArray v then v else VArray [].

Definition defaultContact : JSValue :=
  VObject [("name", VString []); ("email", VString []); ("phone", VString []);
           ("location", VString [])]%string.

Definition normalizeParsed (parsed : JSValue) : Completion JSValue :=
  objective_or_summary <- getProp parsed "objective_or_summary" ;;
  skills_or_tech_stack <- getProp parsed "skills_or_tech_stack" ;;
  education <- getProp parsed "education" ;;
  experience <- getProp parsed "experience" ;;
  projects <- getProp parsed "projects" ;;
  certifications <- getProp parsed "certifications" ;;
  languages <- getProp parsed "languages" ;;
  contact_information <- getProp parsed "contact_information" ;;
  raw_sections <- getProp parsed "_raw_sections" ;;
  raw_text <- getProp parsed "_raw_text" ;;
  Normal
    (VObject
       [("objective_or_summary", coalesce objective_or_summary VNull);
        ("skills_or_tech_stack", arrayOrEmpty skills_or_tech_stack);
        ("education", arrayOrEmpty education);
        ("experience", arrayOrEmpty experience);
        ("projects", arrayOrEmpty projects);
        ("certifications", arrayOrEmpty certifications);
        ("languages", arrayOrEmpty languages);
        ("contact_information", coalesce contact_information defaultContact);
        ("_raw_sections", coalesce raw_sections (VObject []));
        ("_raw_text", coalesce raw_text VUndefined)]%string).

(** ** Vocabulary of the statements *)

Definition acmeBuffer : list jsstring :=
  map str ["Acme Co"; "Engineer"; "2019 - Present"; "- Built X"; "- Shipped Y"]%string.

Inductive Intent :=
| ISkills | IExperience | IEducation | IProjects | ICertifications | IContact
| ISummary | ILanguages.

(** The branch of the [if] chain a query takes: the first matching intent. *)
Definition intentOf (q : jsstring) : option Intent :=
  if isSkillQuery q then Some ISkills
  else if isExperienceQuery q then Some IExperience
  else if isEducationQuery q then Some IEducation
  else if isProjectsQuery q then Some IProjects
  else if isCertificationsQuery q then Some ICertifications
  else if isContactQuery q then Some IContact
  else if isSummaryQuery q then Some ISummary
  else if isLanguagesQuery q then Some ILanguages
  else None.

(** The raw section an intent reads; the contact branch reads none. *)
Definition intentSection (i : Intent) : option SectionKind :=
  match i with
  | ISkills => Some Skills
  | IExperience => Some Experience
  | IEducation => Some Education
  | IProjects => Some Projects
  | ICertifications => Some Certifications
  | IContact => None
  | ISummary => Some Objective
  | ILanguages => Some Languages
  end.

Definition blankSkillsRecord : ResumeData :=
  set_raw_sections (Raw.set Skills (str " ") Raw.empty) initialParsed.

Definition pythonGoSqlRecord : ResumeData :=
  set_skills_or_tech_stack [str "Rust"]
    (set_raw_sections (Raw.set Skills (str "Python, Go, SQL") Raw.empty)
       initialParsed).

Definition intentNames : list string :=
  ["skills"; "experience"; "education"; "projects"; "certifications";
   "contact"; "summary"; "languages"]%string.

(** The value [v.k] of a property read that does not throw. *)
Definition field (v : JSValue) (k : string) : JSValue :=
  match v with
  | VObject props => lookup props k
  | _ => VUndefined
  end.

Definition canonicalKeys : list string :=
  ["objective_or_summary"; "skills_or_tech_stack"; "education"; "experience";
   "projects"; "certifications"; "languages"; "contact_information";
   "_raw_sections"; "_raw_text"]%string.

Definition collectionKeys : list string :=
  ["skills_or_tech_stack"; "education"; "experience"; "projects";
   "certifications"; "languages"]%string.

(** A stored record whose contact object holds a name only, as the plain
    parser builds it from [contact_information: {}]. *)
Definition partialContactRecord : JSValue :=
  VObject [("skills_or_tech_stack", VArray [VString (str "Go")]);
           ("contact_information", VObject [("name", VString (str "Jane Doe"))])]%string.

(** The distinct members of a list, each at its first occurrence. *)
Fixpoint dedupFirst (l : list jsstring) : list jsstring :=
  match l with
  | [] => []
  | x :: l' => x :: filter (fun y => negb (streq y x)) (dedupFirst l')
  end.

(** Index of the first occurrence of [x] in [l]. *)
Fixpoint firstIndex (x : jsstring) (l : list jsstring) : nat :=
  match l with
  | [] => O
  | y :: l' => if streq x y then O else S (firstIndex x l')
  end.

(** [out] lists the members of [l] without repetition, ordered by where each
    is first seen in [l]. *)
Definition FirstSeenOrder (out l : list jsstring) : Prop :=
  NoDup out
  /\ (forall x, In x out <-> In x l)
  /\ StronglySorted lt (map (fun x => firstIndex x l) out).

(** The tokens a pass keeps, in scan order and with repetitions. *)
Definition keptTokens (token : jsstring -> option jsstring)
  (lines : list jsstring) : list jsstring :=
  flat_map
    (fun line =>
       if looksLikeHeader line then []
       else
         flat_map
           (fun part => match token part with Some t => [t] | None => [] end)
           (splitOn skillDelimiter line))
    lines.

(** The section that is current after the header loop has run on a line:
    the last section of the iteration order whose keywords make the line a
    header, [None] when no section does. *)
Definition headerKind (line : jsstring) : option SectionKind :=
  fold_left
    (fun acc section =>
       if isHeader (sectionKeywords section) line (toLowerCase line)
       then Some section else acc)
    sectionOrder None.

(** The first section of the iteration order whose keywords make the line a
    header. *)
Definition firstMatch (line : jsstring) : option SectionKind :=
  find (fun section => isHeader (sectionKeywords section) line (toLowerCase line))
    sectionOrder.

(** The lines the main loop works on. *)
Definition docLines (text : jsstring) : list jsstring :=
  map trim (nonBlankLines text).

Definition unlines (l : list string) : jsstring := join nl (map str l).

(** The record the header loop of [lines[i]] starts from. *)
Definition contactUpdated (i : nat) (line : jsstring) (P : ResumeData) : ResumeData :=
  let P1 := if (i <? 5)%nat then contactStep line P else P in
  if (i =? 0)%nat then nameStep line (toLowerCase line) P1 else P1.

(** A document whose skills body is indented and holds a blank line. *)
Definition indentedSkillsDoc : jsstring :=
  unlines ["Skills"; "  Python, Go"; EmptyString; "SQL"]%string.

(** A sample resume. *)
Definition sampleResume : jsstring :=
  unlines ["Jane Doe"; "jane@x.com, (555) 123-4567"; "Skills";
           "  Python, Go"; EmptyString; "SQL"; "Experience"; "Acme Co"; "Engineer";
           "2019 - Present"; "- Built X"]%string.

(** Does [s] start with [kw], up to the case of ASCII letters? *)
Fixpoint prefixCI (kw s : jsstring) : bool :=
  match kw, s with
  | [], _ => true
  | p :: kw', c :: s' => eqUnitCI p c && prefixCI kw' s'
  | _ :: _, [] => false
  end.

(** The code unit before the position reached by reading [s] from a position
    preceded by [prev]. *)
Definition lastUnit (prev : option codeunit) (s : jsstring) : option codeunit :=
  fold_left (fun _ c => Some c) s prev.

Definition sameLettersCI (kw m : jsstring) : Prop :=
  map canonUnit m = map canonUnit kw.

(** The patterns for "c++" and "c#" ask for no word boundary at the end. *)
Definition needsEndBoundary (kw : jsstring) : bool :=
  negb (streq kw (str "c++") || streq kw (str "c#")).

(** [m], between [pre] and [post], is an occurrence of the keyword [kw] as
    the sweep looks for it: the same letters up to case, a word boundary in
    front, and one behind unless the keyword is "c++" or "c#". *)
Definition occursAsWord (kw pre m post : jsstring) : Prop :=
  sameLettersCI kw m
  /\ atWordBoundary (lastUnit None pre) (m ++ post) = true
  /\ (needsEndBoundary kw = true ->
      atWordBoundary (lastUnit None (pre ++ m)) post = true).

(** A one-line document: no header for the main loop (over 100 characters,
    with a comma and a period, no colon), yet a loose skills header for the
    fallback (it contains "software" and is under 150 characters). *)
Definition looseHeaderDoc : jsstring :=
  str "Worked with Python, Docker and other software for many years. Also built several internal dashboards at a bank.".

Definition proseDoc : jsstring :=
  str "I know Python and c++ and JavaScript, also GO.".

(** ** Vocabulary of the further properties *)

Definition headNonSpace (s : jsstring) : bool :=
  match s with
  | c :: _ => negb (isSpace c)
  | [] => false
  end.

(** A non-empty string with no white space at either end. *)
Definition tight (s : jsstring) : bool :=
  headNonSpace s && headNonSpace (rev s).

(** Buffered lines and stored raw sections are all [tight]. *)
Definition tightState (st : ScanState) : Prop :=
  Forall (fun l => tight l = true) (buffer st)
  /\ forall k v, rawSection (parsed st) k = Some v -> tight v = true.

Fixpoint takeWhile (p : jsstring -> bool) (l : list jsstring) : list jsstring :=
  match l with
  | [] => []
  | x :: l' => if p x then x :: takeWhile p l' else []
  end.

(** Nothing is stored for section [k]: no raw text and no structured data. *)
Definition sectionEmpty (k : SectionKind) (P : ResumeData) : Prop :=
  rawSection P k = None
  /\ match k with
     | Objective => objective_or_summary P = None
     | Skills => skills_or_tech_stack P = Some []
     | Education => education P = Some []
     | Experience => experience P = Some []
     | Projects => projects P = Some []
     | Certifications => certifications P = Some []
     | Languages => languages P = Some []
     end.

(** A document of white space only: spaces, tabs and three line breaks. *)
Definition blankDoc : jsstring := str "  " ++ nl ++ [cu_tab] ++ nl ++ nl ++ str " ".

(** [parsed.contact_information?.name || ''] *)
Definition parsedName (P : ResumeData) : jsstring :=
  match contact_information P with
  | Some ci => orEmpty (name ci)
  | None => []
  end.

(** Does the line, in lower case, contain a trigger phrase of any section? *)
Definition containsKeyword (line : jsstring) : bool :=
  existsb (fun keyword => includes (toLowerCase line) keyword)
    (flat_map sectionKeywords sectionOrder).

(** A line that [extractExperience] takes as a responsibility: it starts
    with a bullet marker and does not match the date pattern. *)
Definition isBulletLine (line : jsstring) : bool :=
  negb (regexTest datePattern line) && regexTest bulletRe line.

(** [line.replace(/^[-•·]\s*/, '').trim()] *)
Definition stripBullet (line : jsstring) : jsstring :=
  trim (removePrefixMatch bulletRe line).

Definition allResponsibilities (entries : list ExperienceEntry) : list jsstring :=
  flat_map (fun e => orNil (responsibilities e)) entries.

(** The invariant of the loop of [extractExperience] after the lines [seen]. *)
Definition experienceInv
  (st : list ExperienceEntry * StrObj * list jsstring) (seen : list jsstring) : Prop :=
  let '(entries, currentEntry, resp) := st in
  allResponsibilities entries ++ resp = map stripBullet (filter isBulletLine seen)
  /\ (entries <> [] -> currentEntry <> [])
  /\ Forall (fun e => exp_fields e <> [] /\ exists r, responsibilities e = Some r)
       entries.

Definition optList (o : option jsstring) : list jsstring :=
  match o with
  | Some x => [x]
  | None => []
  end.

(** The years matched in the lines, and the years held by the entries. *)
Definition yearsOfLines (lines : list jsstring) : list jsstring :=
  flat_map (fun l => optList (regexMatch yearRe l)) lines.

Definition yearsOfEntries (entries : list EducationEntry) : list jsstring :=
  flat_map (fun e => optList (prop e "year")) entries.

Definition isYear (y : jsstring) : bool :=
  (length y =? 4)%nat && forallb isDigit y
  && (startsWith y (str "19") || startsWith y (str "20")).

(** The invariant of the loop of [extractEducation] after the lines [seen]. *)
Definition educationInv (st : list EducationEntry * EducationEntry)
  (seen : list jsstring) : Prop :=
  let '(entries, currentEntry) := st in
  yearsOfEntries entries ++ optList (prop currentEntry "year") = yearsOfLines seen
  /\ Forall (fun e => e <> []) entries.

(** A project entry with no [title] and a trimmed, non-empty [name]. *)
Definition namedProject (e : ProjectEntry) : Prop :=
  prop (proj_fields e) "title" = None
  /\ exists n, prop (proj_fields e) "name" = Some n /\ tight n = true.

(** The invariant of the loop of [extractProjects]. *)
Definition projectInv (st : list ProjectEntry * ProjectEntry) : Prop :=
  let '(entries, currentEntry) := st in
  Forall namedProject entries
  /\ (proj_fields currentEntry = [] \/ namedProject currentEntry).

(** ** The extractors of lib/layoutlmParser.ts

    [extractEducation] and [extractExperience] of this file are those
    modelled above, line for line; [extractSkills] and [extractProjects]
    differ. *)

Module Layoutlm.

(** [/[,|•·\n]/] *)
Definition skillPatterns : codeunit -> bool :=
  isOneOf [cu_comma; cu_pipe; cu_bullet; cu_middot; cu_newline].

Definition extractSkills (lines : list jsstring) : list jsstring :=
  let skills :=
    fold_left
      (fun skills line =>
         fold_left
           (fun skills part =>
              let trimmed := trim part in
              if (1 <? length trimmed)%nat && (length trimmed <? 50)%nat
              then skills ++ [trimmed] else skills)
           (splitOn skillPatterns line) skills)
      lines [] in
  setFromList skills.

(** [Object.keys(currentEntry).length > 0] *)
Definition hasKeys (e : ProjectEntry) : bool :=
  negb (match proj_fields e with [] => true | _ :: _ => false end)
  || match technologies e with Some _ => true | None => false end.

Definition projectStep (st : list ProjectEntry * ProjectEntry) (line : jsstring)
  : list ProjectEntry * ProjectEntry :=
  let '(entries, currentEntry) := st in
  let fields := proj_fields currentEntry in
  if regexTest bulletRe line then
    (if hasKeys currentEntry then entries ++ [currentEntry] else entries,
     Build_ProjectEntry
       [("name"%string, trim (removePrefixMatch bulletRe line))] None)
  else if truthy (prop fields "name") && negb (truthy (prop fields "description"))
  then
    (entries,
     Build_ProjectEntry (setProp fields "description" line)
       (technologies currentEntry))
  else if truthy (prop fields "description") then
    let techs :=
      filter (fun t => (0 <? length t)%nat)
        (map trim (splitOn (isOneOf [cu_comma; cu_pipe]) line)) in
    (entries,
     Build_ProjectEntry fields (Some (orNil (technologies currentEntry) ++ techs)))
  else st.

Definition extractProjects (lines : list jsstring) : list ProjectEntry :=
  let '(entries, currentEntry) := fold_left projectStep lines ([], emptyProject) in
  if hasKeys currentEntry then entries ++ [currentEntry] else entries.

End Layoutlm.

(** The parts [Layoutlm.extractSkills] pushes, in scan order and with
    repetitions. *)
Definition plainTokens (lines : list jsstring) : list jsstring :=
  flat_map
    (fun line =>
       filter (fun t => (1 <? length t)%nat && (length t <? 50)%nat)
         (map trim (splitOn Layoutlm.skillPatterns line)))
    lines.

Definition projectNames (entries : list ProjectEntry) : list (option jsstring) :=
  map (fun e => prop (proj_fields e) "name") entries.

(** The invariant of the loop of [Layoutlm.extractProjects] after the lines
    [seen]. *)
Definition plainProjectInv (st : list ProjectEntry * ProjectEntry)
  (seen : list jsstring) : Prop :=
  let '(entries, currentEntry) := st in
  projectNames entries
  ++ (if Layoutlm.hasKeys currentEntry
      then [prop (proj_fields currentEntry) "name"] else [])
  = map (fun l => Some (stripBullet l)) (filter (regexTest bulletRe) seen).

(** [q] contains one of the [stems]. *)
Definition containsAny (q : jsstring) (stems : list string) : bool :=
  existsb (fun stem => includes q (str stem)) stems.

(** ** [sanitizeData] (App.tsx)

    The record returned by [normalizeParsed] is passed through
    [sanitizeData] before it is stored.  An object is the list of its own
    entries in the order of [Object.entries]. *)

(** [/[\u0000-\u0008\u000B\u000C\u000E-\u001F\u007F-\u009F]/] *)
Definition isControlUnit (c : codeunit) : bool :=
  inRange 0%N 8%N c || N.eqb c 11%N || N.eqb c 12%N
  || inRange 14%N 31%N c || inRange 127%N 159%N c.

(** [data.replace(/\u0000/g, '').replace(/[...]/g, '')] *)
Definition sanitizeString (data : jsstring) : jsstring :=
  filter (fun c => negb (isControlUnit c))
    (filter (fun c => negb (N.eqb c 0%N)) data).

(** [sanitized[key] = value] where [sanitized] has the own entries [props]:
    an existing entry keeps its place and takes the new value, a new one is
    added last. *)
Fixpoint assignOwn (props : list (string * JSValue)) (key : string)
  (value : JSValue) : list (string * JSValue) :=
  match props with
  | [] => [(key, value)]
  | (k, v) :: rest =>
      if String.eqb key k then (k, value) :: rest
      else (k, v) :: assignOwn rest key value
  end.

(** Assigning to [__proto__] runs the setter of [Object.prototype] and
    creates no own entry. *)
Definition assign (props : list (string * JSValue)) (key : string)
  (value : JSValue) : list (string * JSValue) :=
  if String.eqb key "__proto__" then props else assignOwn props key value.

Fixpoint sanitizeData (data : JSValue) : JSValue :=
  match data with
  | VString s => VString (sanitizeString s)
  | VArray items => VArray (map sanitizeData items)
  | VObject props =>
      VObject
        (fold_left
           (fun sanitized kv => assign sanitized (fst kv) (sanitizeData (snd kv)))
           props [])
  | _ => data
  end.

(** No string value anywhere in [v] holds a code unit of the removed class. *)
Fixpoint clean (v : JSValue) : bool :=
  match v with
  | VString s => forallb (fun c => negb (isControlUnit c)) s
  | VArray items => forallb clean items
  | VObject props => forallb (fun kv => clean (snd kv)) props
  | _ => true
  end.

Fixpoint distinctKeys (keys : list string) : bool :=
  match keys with
  | [] => true
  | k :: rest => negb (existsb (String.eqb k) rest) && distinctKeys rest
  end.

(** [v] is a value as [JSON.parse] or an object literal builds it: the
    entries of every object in it have distinct keys, none of them
    [__proto__]. *)
Fixpoint plain (v : JSValue) : bool :=
  match v with
  | VArray items => forallb plain items
  | VObject props =>
      distinctKeys (map fst props)
      && forallb (fun kv => negb (String.eqb (fst kv) "__proto__") && plain (snd kv))
           props
  | _ => true
  end.

(** An entry whose key is not [__proto__] and whose value satisfies [Q]. *)
Definition goodEntry (Q : JSValue -> Prop) (kv : string * JSValue) : Prop :=
  String.eqb (fst kv) "__proto__" = false /\ Q (snd kv).

(** Induction on values, with the hypothesis for every item of an array and
    every entry of an object. *)
Section JSValueInduction.
Variable P : JSValue -> Prop.
Hypothesis HUndefined : P VUndefined.
Hypothesis HNull : P VNull.
Hypothesis HBool : forall b, P (VBool b).
Hypothesis HNumber : forall bits, P (VNumber bits).
Hypothesis HString : forall s, P (VString s).
Hypothesis HArray : forall items, Forall P items -> P (VArray items).
Hypothesis HObject :
  forall props, Forall (fun kv => P (snd kv)) props -> P (VObject props).

Fixpoint JSValue_induction (v : JSValue) : P v :=
  match v with
  | VUndefined => HUndefined
  | VNull => HNull
  | VBool b => HBool b
  | VNumber bits => HNumber bits
  | VString s => HString s
  | VArray items =>
      HArray items
        ((fix go (l : list JSValue) : Forall P l :=
            match l with
            | [] => Forall_nil P
            | x :: l' => Forall_cons x (JSValue_induction x) (go l')
            end) items)
  | VObject props =>
      HObject props
        ((fix go (l : list (string * JSValue))
            : Forall (fun kv => P (snd kv)) l :=
            match l with
            | [] => Forall_nil (fun kv => P (snd kv))
            | kv :: l' =>
                Forall_cons kv (JSValue_induction (snd kv)) (go l')
            end) props)
  end.
End JSValueInduction.

(** [o[key] = value] on the object [o]. *)
Definition setField (o : JSValue) (key : string) (value : JSValue) : JSValue :=
  match o with
  | VObject props => VObject (assign props key value)
  | _ => o
  end.

(** The record [handleFileUpload] stores: [normalizeParsed(parsedData)], with
    [_raw_text] set to the text of the file, through [sanitizeData]. *)
Definition storedRecord (parsedData : JSValue) (text : jsstring)
  : Completion JSValue :=
  normalizedData <- normalizeParsed parsedData ;;
  Normal (sanitizeData (setField normalizedData "_raw_text" (VString text))).

(** A record as the enhanced parser leaves it, with a form feed in a skill. *)
Definition formFeedRecord : JSValue :=
  VObject [("skills_or_tech_stack"%string, VArray [VString (str "Go" ++ [12%N])]);
           ("_raw_sections"%string,
            VObject [("skills"%string, VString (str "Go" ++ [12%N]))])].

(** * Properties *)

(** ** Basic facts about strings *)

Lemma streq_eq (a b : jsstring) : streq a b = true <-> a = b.
Proof.
  revert b; induction a as [|x a IH]; intros [|y b]; simpl; split;
    try discriminate; try reflexivity.
  - intros H. apply andb_true_iff in H as [Hx Hab].
    apply N.eqb_eq in Hx. apply IH in Hab. congruence.
  - intros H. injection H as -> ->.
    rewrite N.eqb_refl. simpl. apply IH. reflexivity.
Qed.

Lemma streq_refl (a : jsstring) : streq a a = true.
Proof. apply streq_eq. reflexivity. Qed.


Lemma memStr_app (x : jsstring) (l1 l2 : list jsstring) :
  memStr x (l1 ++ l2) = memStr x l1 || memStr x l2.
Proof. unfold memStr. apply existsb_app. Qed.

(** ** The matcher: a repetition is never cut short by its bound *)

Lemma starLoop_ext (ma : option codeunit -> jsstring -> Cont -> option jsstring) :
  (forall prev s k1 k2,
      (forall p' s', k1 p' s' = k2 p' s') -> ma prev s k1 = ma prev s k2) ->
  forall k1 k2,
    (forall p' s', k1 p' s' = k2 p' s') ->
    forall n prev s, starLoop ma k1 n prev s = starLoop ma k2 n prev s.
Proof.
  intros Hma k1 k2 Hk.
  induction n as [|n IH]; intros prev s; cbn [starLoop].
  - rewrite Hk. reflexivity.
  - rewrite (Hma prev s _ (fun p' s' =>
               if Nat.ltb (length s') (length s)
               then starLoop ma k2 n p' s' else None)).
    + rewrite Hk. reflexivity.
    + intros p' s'. destruct (Nat.ltb _ _); [apply IH | reflexivity].
Qed.

Lemma rmatch_ext (r : regex) :
  forall prev s k1 k2,
    (forall p' s', k1 p' s' = k2 p' s') ->
    rmatch r prev s k1 = rmatch r prev s k2.
Proof.
  induction r as [p| |a IHa b IHb|a IHa b IHb|a IHa| | |];
    intros prev s k1 k2 Hk; cbn [rmatch].
  - destruct s as [|c s]; [reflexivity|]. destruct (p c); [apply Hk | reflexivity].
  - apply Hk.
  - apply IHa. intros p' s'. apply IHb. exact Hk.
  - rewrite (IHa prev s k1 k2 Hk), (IHb prev s k1 k2 Hk). reflexivity.
  - apply starLoop_ext; assumption.
  - destruct prev; [reflexivity | apply Hk].
  - destruct s; [apply Hk | reflexivity].
  - destruct (atWordBoundary prev s); [apply Hk | reflexivity].
Qed.

Lemma starLoop_bound (a : regex) (k : Cont) :
  forall n m prev s,
    length s <= n -> length s <= m ->
    starLoop (rmatch a) k n prev s = starLoop (rmatch a) k m prev s.
Proof.
  induction n as [|n IH]; intros m prev s Hn Hm.
  - destruct m as [|m]; [reflexivity|]. cbn [starLoop].
    rewrite (rmatch_ext a prev s _
               (fun p' s' =>
                  if Nat.ltb (length s') (length s)
                  then starLoop (rmatch a) k m p' s' else None));
      [reflexivity|].
    intros p' s'. destruct (Nat.ltb (length s') (length s)) eqn:E; [|reflexivity].
    apply Nat.ltb_lt in E. lia.
  - destruct m as [|m]; cbn [starLoop].
    + rewrite (rmatch_ext a prev s _
                 (fun p' s' =>
                    if Nat.ltb (length s') (length s) then None else None));
        [reflexivity|].
      intros p' s'. destruct (Nat.ltb (length s') (length s)) eqn:E; [|reflexivity].
      apply Nat.ltb_lt in E. lia.
    + rewrite (rmatch_ext a prev s _
                 (fun p' s' =>
                    if Nat.ltb (length s') (length s)
                    then starLoop (rmatch a) k m p' s' else None));
        [reflexivity|].
      intros p' s'. destruct (Nat.ltb (length s') (length s)) eqn:E; [|reflexivity].
      apply Nat.ltb_lt in E. apply IH; lia.
Qed.

(** The equation of greedy repetition: one more iteration that consumes
    input, then the repetition again; otherwise the continuation. *)
Lemma rmatch_star (a : regex) (prev : option codeunit) (s : jsstring) (k : Cont) :
  rmatch (RStar a) prev s k =
    match
      rmatch a prev s
        (fun p' s' =>
           if Nat.ltb (length s') (length s)
           then rmatch (RStar a) p' s' k else None)
    with
    | Some x => Some x
    | None => k prev s
    end.
Proof.
  assert (H : forall n, length s <= n ->
                starLoop (rmatch a) k n prev s =
                  match
                    rmatch a prev s
                      (fun p' s' =>
                         if Nat.ltb (length s') (length s)
                         then rmatch (RStar a) p' s' k else None)
                  with
                  | Some x => Some x
                  | None => k prev s
                  end).
  { intros n Hn. destruct n as [|n]; cbn [starLoop].
    - rewrite (rmatch_ext a prev s _
                 (fun p' s' =>
                    if Nat.ltb (length s') (length s)
                    then rmatch (RStar a) p' s' k else None));
        [reflexivity|].
      intros p' s'. destruct (Nat.ltb (length s') (length s)) eqn:E; [|reflexivity].
      apply Nat.ltb_lt in E. lia.
    - rewrite (rmatch_ext a prev s _
                 (fun p' s' =>
                    if Nat.ltb (length s') (length s)
                    then rmatch (RStar a) p' s' k else None));
        [reflexivity|].
      intros p' s'. destruct (Nat.ltb (length s') (length s)) eqn:E; [|reflexivity].
      apply Nat.ltb_lt in E. cbn [rmatch]. apply starLoop_bound; lia. }
  apply (H (length s)). lia.
Qed.

(** ** Experience extraction on the sample buffer *)

(** C3, as stated, fails: the date line "2019 - Present" closes the entry
    that holds the company and the position, so no single entry carries
    company, position, duration and the two responsibilities. *)
Lemma extractExperience_acme_not_one_entry :
  ~ (exists e,
        extractExperience acmeBuffer = [e]
        /\ prop (exp_fields e) "company" = Some (str "Acme Co")
        /\ prop (exp_fields e) "position" = Some (str "Engineer")
        /\ prop (exp_fields e) "duration" = Some (str "2019 - Present")
        /\ responsibilities e = Some [str "Built X"; str "Shipped Y"]).
Proof.
  intros [e [H _]]. vm_compute in H. discriminate H.
Qed.

(** C3 (amended): the sample buffer yields two entries, split at the date
    line: the first holds company "Acme Co" and position "Engineer" with no
    responsibilities, the second holds duration "2019 - Present" with the
    responsibilities "Built X" and "Shipped Y". *)
Theorem extractExperience_acme :
  extractExperience acmeBuffer =
    [ Build_ExperienceEntry
        [("company"%string, str "Acme Co"); ("position"%string, str "Engineer")]
        (Some []);
      Build_ExperienceEntry
        [("duration"%string, str "2019 - Present")]
        (Some [str "Built X"; str "Shipped Y"]) ].
Proof. vm_compute. reflexivity. Qed.

(** ** The deterministic responder *)

Lemma orEmpty_Some (s : jsstring) : orEmpty (Some s) = s.
Proof. destruct s; reflexivity. Qed.

Lemma rawPresent_trim (raw : jsstring) :
  trim raw <> [] -> rawPresent (Some raw) = true.
Proof.
  intros H. unfold rawPresent.
  destruct raw as [|c raw]; [exfalso; apply H; reflexivity|].
  simpl truthy. simpl orEmpty.
  destruct (trim (c :: raw)) eqn:E; [contradiction H; reflexivity | reflexivity].
Qed.

(** C4, as stated, fails on a raw section that is non-empty but holds only
    white space: the responder does not return the trimmed raw text (the
    empty string) but goes on to the structured answer, here the sentinel. *)
Lemma answer_blank_raw_not_verbatim :
  rawSection blankSkillsRecord Skills = Some (str " ")
  /\ str " " <> []
  /\ intentOf (str "skill") = Some ISkills
  /\ answerFromParsedDeterministic blankSkillsRecord (str "skill") = FALLBACK
  /\ answerFromParsedDeterministic blankSkillsRecord (str "skill") <> trim (str " ").
Proof.
  repeat split; try (vm_compute; reflexivity); vm_compute; discriminate.
Qed.

(** C4 (amended): for every record and every query that maps to an intent
    with a raw section, if that section's raw text is non-empty after
    trimming, the responder returns the trimmed raw text, whatever the
    structured entries hold. *)
Theorem answer_raw_section_first (parsed : ResumeData) (q : jsstring)
  (i : Intent) (k : SectionKind) (raw : jsstring) :
  intentOf q = Some i ->
  intentSection i = Some k ->
  rawSection parsed k = Some raw ->
  trim raw <> [] ->
  answerFromParsedDeterministic parsed q = trim raw.
Proof.
  intros Hq Hk Hraw Htrim.
  pose proof (rawPresent_trim raw Htrim) as Hp.
  unfold intentOf in Hq. unfold answerFromParsedDeterministic.
  destruct (isSkillQuery q);
    [injection Hq as <-; injection Hk as <-; rewrite Hraw, Hp, orEmpty_Some; reflexivity|].
  destruct (isExperienceQuery q);
    [injection Hq as <-; injection Hk as <-; rewrite Hraw, Hp, orEmpty_Some; reflexivity|].
  destruct (isEducationQuery q);
    [injection Hq as <-; injection Hk as <-; rewrite Hraw, Hp, orEmpty_Some; reflexivity|].
  destruct (isProjectsQuery q);
    [injection Hq as <-; injection Hk as <-; rewrite Hraw, Hp, orEmpty_Some; reflexivity|].
  destruct (isCertificationsQuery q);
    [injection Hq as <-; injection Hk as <-; rewrite Hraw, Hp, orEmpty_Some; reflexivity|].
  destruct (isContactQuery q); [injection Hq as <-; discriminate Hk|].
  destruct (isSummaryQuery q);
    [injection Hq as <-; injection Hk as <-; rewrite Hraw, Hp, orEmpty_Some; reflexivity|].
  destruct (isLanguagesQuery q);
    [injection Hq as <-; injection Hk as <-; rewrite Hraw, Hp, orEmpty_Some; reflexivity|].
  discriminate Hq.
Qed.

Lemma answer_raw_section_first_witness :
  answerFromParsedDeterministic pythonGoSqlRecord (str "skill")
  = str "Python, Go, SQL".
Proof.
  apply (answer_raw_section_first pythonGoSqlRecord (str "skill") ISkills
           Skills (str "Python, Go, SQL")).
  - reflexivity.
  - reflexivity.
  - reflexivity.
  - vm_compute. discriminate.
Defined.

(** C5: the sentinel is the literal "The resume does not contain this
    information.", and for every record whose raw experience section is
    absent or empty and whose experience list is absent or empty, the query
    "work" is answered with exactly the sentinel, which is not the empty
    string. *)
Theorem answer_work_without_experience (parsed : ResumeData) :
  orEmpty (rawSection parsed Experience) = [] ->
  orNil (experience parsed) = [] ->
  FALLBACK = str "The resume does not contain this information."
  /\ answerFromParsedDeterministic parsed (str "work") = FALLBACK
  /\ FALLBACK <> [].
Proof.
  intros Hraw Hexp. split; [reflexivity|]. split; [|discriminate].
  unfold answerFromParsedDeterministic.
  replace (isSkillQuery (str "work")) with false by (vm_compute; reflexivity).
  replace (isExperienceQuery (str "work")) with true by (vm_compute; reflexivity).
  unfold rawPresent. rewrite Hraw.
  replace (0 <? length (trim []))%nat with false by reflexivity.
  rewrite andb_false_r.
  unfold structuredLines. rewrite Hexp. reflexivity.
Qed.

Lemma answer_work_without_experience_witness :
  FALLBACK = str "The resume does not contain this information."
  /\ answerFromParsedDeterministic initialParsed (str "work") = FALLBACK
  /\ FALLBACK <> [].
Proof.
  apply (answer_work_without_experience initialParsed); reflexivity.
Defined.

(** C6, as stated, fails: the help message does not name all eight intents;
    "certifications" and "languages" do not occur in it. *)
Lemma help_does_not_name_all_intents :
  ~ Forall (fun n => includes HELP (str n) = true) intentNames.
Proof.
  intros H.
  rewrite Forall_forall in H.
  specialize (H "certifications"%string).
  assert (Hin : In "certifications"%string intentNames)
    by (vm_compute; tauto).
  apply H in Hin. vm_compute in Hin. discriminate Hin.
Qed.

(** C6 (amended): for every record the empty query is answered with the fixed
    help message, which differs from the sentinel; the message names six of
    the eight intents (skills, experience, education, projects, contact,
    summary) and does not name certifications and languages. *)
Theorem answer_empty_query_help (parsed : ResumeData) :
  answerFromParsedDeterministic parsed [] = HELP
  /\ HELP <> FALLBACK
  /\ Forall (fun n => includes HELP (str n) = true)
       ["skills"; "experience"; "education"; "projects"; "contact"; "summary"]%string
  /\ includes HELP (str "certifications") = false
  /\ includes HELP (str "languages") = false.
Proof.
  split; [reflexivity|].
  split; [vm_compute; discriminate|].
  split; [|split; vm_compute; reflexivity].
  repeat constructor.
Qed.

(** ** The normalizer *)

(** C9, as stated, fails twice: on [null] (and [undefined]) the first
    property read throws, and a contact object that is present but partial
    is kept as it is, so its missing fields are not filled with empty
    strings. *)
Lemma normalizeParsed_not_total_nor_filling :
  normalizeParsed VNull = ThrowTypeError
  /\ exists r,
       normalizeParsed partialContactRecord = Normal r
       /\ field r "contact_information"
          = VObject [("name"%string, VString (str "Jane Doe"))]
       /\ field (field r "contact_information") "email" = VUndefined.
Proof.
  split; [reflexivity|].
  eexists. split; [reflexivity|]. split; reflexivity.
Qed.

Lemma arrayOrEmpty_isArray (v : JSValue) : isArray (arrayOrEmpty v) = true.
Proof. destruct v; reflexivity. Qed.

Lemma arrayOrEmpty_array (v : JSValue) : isArray v = true -> arrayOrEmpty v = v.
Proof. destruct v; simpl; intros H; try discriminate H; reflexivity. Qed.

Lemma arrayOrEmpty_other (v : JSValue) :
  isArray v = false -> arrayOrEmpty v = VArray [].
Proof. destruct v; simpl; intros H; try discriminate H; reflexivity. Qed.

Lemma coalesce_nullish (a b : JSValue) : isNullish a = true -> coalesce a b = b.
Proof. unfold coalesce. intros ->. reflexivity. Qed.

Lemma coalesce_value (a b : JSValue) : isNullish a = false -> coalesce a b = a.
Proof. unfold coalesce. intros ->. reflexivity. Qed.

Lemma normalizeParsed_fields (parsed : JSValue) :
  isNullish parsed = false ->
  normalizeParsed parsed =
    Normal
      (VObject
         [("objective_or_summary", coalesce (field parsed "objective_or_summary") VNull);
          ("skills_or_tech_stack", arrayOrEmpty (field parsed "skills_or_tech_stack"));
          ("education", arrayOrEmpty (field parsed "education"));
          ("experience", arrayOrEmpty (field parsed "experience"));
          ("projects", arrayOrEmpty (field parsed "projects"));
          ("certifications", arrayOrEmpty (field parsed "certifications"));
          ("languages", arrayOrEmpty (field parsed "languages"));
          ("contact_information", coalesce (field parsed "contact_information") defaultContact);
          ("_raw_sections", coalesce (field parsed "_raw_sections") (VObject []));
          ("_raw_text", coalesce (field parsed "_raw_text") VUndefined)]%string).
Proof.
  destruct parsed; simpl; intros H; try discriminate H; reflexivity.
Qed.

(** C9 (amended): for every input value other than [null] and [undefined],
    [normalizeParsed] returns without throwing an object with exactly the ten
    canonical keys; every collection field is an array (the input's own array
    when it is one, the empty array otherwise); a missing
    [objective_or_summary] becomes [null]; a missing contact object becomes
    the record of four empty strings, while a contact object that is present
    is returned as it is; a missing [_raw_sections] becomes the empty
    object and a missing [_raw_text] becomes [undefined], while values that
    are present are returned as they are. *)
Theorem normalizeParsed_canonical (parsed : JSValue) :
  isNullish parsed = false ->
  exists props,
    normalizeParsed parsed = Normal (VObject props)
    /\ map fst props = canonicalKeys
    /\ Forall
         (fun k =>
            isArray (lookup props k) = true
            /\ (isArray (field parsed k) = true -> lookup props k = field parsed k)
            /\ (isArray (field parsed k) = false -> lookup props k = VArray []))
         collectionKeys
    /\ (isNullish (field parsed "objective_or_summary") = true ->
        lookup props "objective_or_summary" = VNull)
    /\ (isNullish (field parsed "objective_or_summary") = false ->
        lookup props "objective_or_summary" = field parsed "objective_or_summary")
    /\ (isNullish (field parsed "contact_information") = true ->
        lookup props "contact_information" = defaultContact)
    /\ (isNullish (field parsed "contact_information") = false ->
        lookup props "contact_information" = field parsed "contact_information")
    /\ isNullish (lookup props "_raw_sections") = false
    /\ (isNullish (field parsed "_raw_sections") = true ->
        lookup props "_raw_sections" = VObject [])
    /\ (isNullish (field parsed "_raw_sections") = false ->
        lookup props "_raw_sections" = field parsed "_raw_sections")
    /\ (isNullish (field parsed "_raw_text") = true ->
        lookup props "_raw_text" = VUndefined)
    /\ (isNullish (field parsed "_raw_text") = false ->
        lookup props "_raw_text" = field parsed "_raw_text").
Proof.
  intros Hn. eexists. split; [apply (normalizeParsed_fields parsed Hn)|].
  split; [reflexivity|].
  split.
  { repeat constructor; simpl;
      auto using arrayOrEmpty_isArray, arrayOrEmpty_array, arrayOrEmpty_other. }
  simpl.
  repeat split; auto using coalesce_nullish, coalesce_value.
  unfold coalesce.
  destruct (isNullish (field parsed "_raw_sections")) eqn:E; [reflexivity | exact E].
Qed.

Lemma normalizeParsed_canonical_witness :
  exists props,
    normalizeParsed partialContactRecord = Normal (VObject props)
    /\ map fst props = canonicalKeys
    /\ lookup props "skills_or_tech_stack" = VArray [VString (str "Go")]
    /\ lookup props "education" = VArray []
    /\ lookup props "objective_or_summary" = VNull
    /\ lookup props "_raw_sections" = VObject [].
Proof.
  destruct (normalizeParsed_canonical partialContactRecord eq_refl)
    as (props & Hn & Hk & Hc & Ho & _ & _ & _ & _ & Hr & _).
  exists props. split; [exact Hn|]. split; [exact Hk|].
  apply Forall_cons_iff in Hc. destruct Hc as [[_ [Hs _]] Hc].
  apply Forall_cons_iff in Hc. destruct Hc as [[_ [_ He]] _].
  split; [exact (Hs eq_refl)|]. split; [exact (He eq_refl)|].
  split; [exact (Ho eq_refl) | exact (Hr eq_refl)].
Defined.

(** C10: [normalizeParsed] is idempotent.  Applying it to its own result
    gives that result again, for every input; on an object it always returns
    a result, so each normalized record is a fixed point. *)
Theorem normalizeParsed_idempotent :
  (forall x, bind (normalizeParsed x) normalizeParsed = normalizeParsed x)
  /\ (forall props,
        exists r,
          normalizeParsed (VObject props) = Normal r
          /\ normalizeParsed r = Normal r).
Proof.
  assert (H : forall x, isNullish x = false ->
                        bind (normalizeParsed x) normalizeParsed = normalizeParsed x).
  { intros x Hx. rewrite (normalizeParsed_fields x Hx).
    unfold bind at 1.
    rewrite normalizeParsed_fields by reflexivity.
    unfold field at 1 3 5 7 9 11 13 15 17 19. simpl lookup.
    do 2 f_equal.
    repeat match goal with
           | |- (_ :: _) = (_ :: _) => f_equal
           | |- (_, _) = (_, _) => f_equal
           end;
      try (rewrite arrayOrEmpty_array; [reflexivity | apply arrayOrEmpty_isArray]);
      unfold coalesce;
      match goal with
      | |- context [isNullish (field x ?k)] =>
          destruct (isNullish (field x k)) eqn:E; simpl; try rewrite E; reflexivity
      end. }
  split.
  - intros x. destruct (isNullish x) eqn:Hx; [|apply H; exact Hx].
    destruct x; try discriminate Hx; reflexivity.
  - intros props. specialize (H (VObject props) eq_refl).
    rewrite (normalizeParsed_fields (VObject props) eq_refl) in *.
    eexists. split; [reflexivity|]. exact H.
Qed.

(** ** Skills extraction: duplicates and order *)

Section Dedup.

Lemma filter_filter_str (p q : jsstring -> bool) (l : list jsstring) :
  filter p (filter q l) = filter (fun x => q x && p x) l.
Proof.
  induction l as [|x l IH]; simpl; [reflexivity|].
  destruct (q x); simpl; [destruct (p x)|]; rewrite IH; reflexivity.
Qed.

Lemma In_dedupFirst (x : jsstring) (l : list jsstring) :
  In x (dedupFirst l) <-> In x l.
Proof.
  induction l as [|y l IH]; simpl; [tauto|].
  rewrite filter_In, IH. split.
  - intros [H | [H _]]; auto.
  - intros [H | H]; [auto|].
    destruct (streq x y) eqn:E.
    + apply streq_eq in E. auto.
    + right. split; [assumption | reflexivity].
Qed.

Lemma NoDup_dedupFirst (l : list jsstring) : NoDup (dedupFirst l).
Proof.
  induction l as [|y l IH]; simpl; constructor.
  - rewrite filter_In. intros [_ H]. rewrite streq_refl in H. discriminate H.
  - apply NoDup_filter. exact IH.
Qed.

Lemma StronglySorted_map_filter (f : jsstring -> nat) (p : jsstring -> bool)
  (l : list jsstring) :
  StronglySorted lt (map f l) -> StronglySorted lt (map f (filter p l)).
Proof.
  induction l as [|x l IH]; simpl; intros H; [constructor|].
  apply StronglySorted_inv in H as [Hs Hf].
  destruct (p x); simpl; [|auto].
  constructor; [auto|].
  rewrite Forall_forall in *. intros n Hn. apply Hf.
  rewrite in_map_iff in *. destruct Hn as [y [Hy Hin]].
  exists y. split; [assumption|]. apply filter_In in Hin. tauto.
Qed.

Lemma StronglySorted_map_S (l : list nat) :
  StronglySorted lt l -> StronglySorted lt (map S l).
Proof.
  induction 1 as [|n l Hs IH Hf]; simpl; constructor; [assumption|].
  rewrite Forall_forall in *. intros m Hm.
  apply in_map_iff in Hm as [k [<- Hk]]. apply Hf in Hk. lia.
Qed.

Lemma sorted_dedupFirst (l : list jsstring) :
  StronglySorted lt (map (fun x => firstIndex x l) (dedupFirst l)).
Proof.
  induction l as [|y l IH]; simpl; [constructor|].
  rewrite streq_refl.
  set (rest := filter (fun z => negb (streq z y)) (dedupFirst l)).
  assert (E : map (fun x => if streq x y then O else S (firstIndex x l)) rest
              = map S (map (fun x => firstIndex x l) rest)).
  { rewrite map_map. apply map_ext_in. intros z Hz.
    apply filter_In in Hz as [_ Hz].
    destruct (streq z y); [discriminate Hz | reflexivity]. }
  rewrite E. constructor.
  - apply StronglySorted_map_S. apply StronglySorted_map_filter. exact IH.
  - rewrite Forall_forall. intros n Hn.
    apply in_map_iff in Hn as [k [<- _]]. lia.
Qed.

Lemma firstSeen_dedupFirst (l : list jsstring) : FirstSeenOrder (dedupFirst l) l.
Proof.
  split; [apply NoDup_dedupFirst|].
  split; [intros x; apply In_dedupFirst | apply sorted_dedupFirst].
Qed.

(** Adding a sequence to a [Set]: what is already there stays in place, the
    new members follow at their first occurrence. *)
Lemma fold_setAdd (l s : list jsstring) :
  fold_left setAdd l s
  = s ++ filter (fun x => negb (memStr x s)) (dedupFirst l).
Proof.
  revert s. induction l as [|y l IH]; intros s; simpl.
  - rewrite app_nil_r. reflexivity.
  - rewrite IH. unfold setAdd. rewrite filter_filter_str.
    destruct (memStr y s) eqn:E; simpl.
    + f_equal. apply filter_ext_in. intros z _.
      destruct (streq z y) eqn:Ez; simpl; [|reflexivity].
      apply streq_eq in Ez. subst z. rewrite E. reflexivity.
    + rewrite <- app_assoc. simpl. do 2 f_equal.
      apply filter_ext_in. intros z _.
      rewrite memStr_app. simpl. rewrite orb_false_r.
      rewrite negb_orb. apply andb_comm.
  Qed.

Lemma setFromList_dedupFirst (l : list jsstring) : setFromList l = dedupFirst l.
Proof.
  unfold setFromList. rewrite fold_setAdd. simpl.
  induction (dedupFirst l) as [|x d IH]; simpl; [reflexivity|].
  f_equal. exact IH.
Qed.


End Dedup.

Section SkillPasses.

Variable token : jsstring -> option jsstring.

Lemma fold_parts_setAdd (parts s : list jsstring) :
  fold_left
    (fun skills part =>
       match token part with Some t => setAdd skills t | None => skills end)
    parts s
  = fold_left setAdd
      (flat_map (fun part => match token part with Some t => [t] | None => [] end)
         parts) s.
Proof.
  revert s. induction parts as [|p parts IH]; intros s; simpl; [reflexivity|].
  rewrite IH. destruct (token p); simpl; reflexivity.
Qed.


End SkillPasses.

Lemma strictPass_fold (lines s : list jsstring) :
  fold_left
    (fun skills line =>
       if looksLikeHeader line then skills
       else
         fold_left
           (fun skills part =>
              match strictToken part with
              | Some t => setAdd skills t
              | None => skills
              end)
           (splitOn skillDelimiter line) skills)
    lines s
  = fold_left setAdd (keptTokens strictToken lines) s.
Proof.
  revert s. induction lines as [|line lines IH]; intros s; simpl; [reflexivity|].
  rewrite fold_left_app, IH.
  destruct (looksLikeHeader line); simpl; [reflexivity|].
  rewrite fold_parts_setAdd. reflexivity.
Qed.

Lemma strictPass_tokens (lines : list jsstring) :
  strictPass lines = dedupFirst (keptTokens strictToken lines).
Proof.
  rewrite <- setFromList_dedupFirst. apply strictPass_fold.
Qed.




(** ** Segmentation *)

Lemma headerLoop_headerKind (line : jsstring) (st : ScanState) :
  headerLoop line (toLowerCase line) st =
    match headerKind line with
    | Some k => (Build_ScanState (flushBuffer st) (Some k) [], true)
    | None => (st, false)
    end.
Proof.
  unfold headerLoop, headerKind.
  set (rel := fun (acc : ScanState * bool) (kacc : option SectionKind) =>
                acc = match kacc with
                      | Some k => (Build_ScanState (flushBuffer st) (Some k) [], true)
                      | None => (st, false)
                      end).
  assert (H : forall secs acc kacc,
             rel acc kacc ->
             rel (fold_left (headerIter line (toLowerCase line)) secs acc)
                 (fold_left
                    (fun a section =>
                       if isHeader (sectionKeywords section) line (toLowerCase line)
                       then Some section else a) secs kacc)).
  { induction secs as [|s secs IH]; intros acc kacc Hrel; simpl; [exact Hrel|].
    apply IH. unfold rel in *. subst acc.
    unfold headerIter.
    destruct kacc as [k|];
      destruct (isHeader (sectionKeywords s) line (toLowerCase line));
      reflexivity. }
  apply (H sectionOrder (st, false) None). reflexivity.
Qed.

Lemma rawSection_process (P : ResumeData) (sec : option SectionKind)
  (buf : list jsstring) (k : SectionKind) :
  rawSection (processSectionBuffer P sec buf) k =
    match sec with
    | Some s => if SectionKind_eqb s k then Some (join nl buf) else rawSection P k
    | None => rawSection P k
    end.
Proof.
  unfold rawSection, processSectionBuffer.
  destruct sec as [[]|]; destruct k; simpl; destruct (_raw_sections P); reflexivity.
Qed.

Lemma SectionKind_eqb_eq (a b : SectionKind) : SectionKind_eqb a b = true <-> a = b.
Proof. destruct a, b; simpl; split; intros H; try discriminate H; reflexivity. Qed.

Lemma SectionKind_eqb_neq (a b : SectionKind) : a <> b -> SectionKind_eqb a b = false.
Proof.
  intros H. destruct (SectionKind_eqb a b) eqn:E; [|reflexivity].
  apply SectionKind_eqb_eq in E. contradiction.
Qed.

Lemma rawSection_contactStep (line : jsstring) (P : ResumeData) (k : SectionKind) :
  rawSection (contactStep line P) k = rawSection P k.
Proof.
  unfold contactStep. destruct (contact_information P); reflexivity.
Qed.

Lemma rawSection_nameStep (line lower : jsstring) (P : ResumeData) (k : SectionKind) :
  rawSection (nameStep line lower P) k = rawSection P k.
Proof.
  unfold nameStep. destruct (contact_information P) as [ci|]; [|reflexivity].
  destruct (_ && _); reflexivity.
Qed.

Lemma skills_contactStep (line : jsstring) (P : ResumeData) :
  skills_or_tech_stack (contactStep line P) = skills_or_tech_stack P.
Proof.
  unfold contactStep. destruct (contact_information P); reflexivity.
Qed.

Lemma skills_nameStep (line lower : jsstring) (P : ResumeData) :
  skills_or_tech_stack (nameStep line lower P) = skills_or_tech_stack P.
Proof.
  unfold nameStep. destruct (contact_information P) as [ci|]; [|reflexivity].
  destruct (_ && _); reflexivity.
Qed.

Lemma rawSection_contactUpdated i line P k :
  rawSection (contactUpdated i line P) k = rawSection P k.
Proof.
  unfold contactUpdated.
  destruct (i =? 0)%nat; destruct (i <? 5)%nat;
    rewrite ?rawSection_nameStep, ?rawSection_contactStep; reflexivity.
Qed.

Lemma skills_contactUpdated i line P :
  skills_or_tech_stack (contactUpdated i line P) = skills_or_tech_stack P.
Proof.
  unfold contactUpdated.
  destruct (i =? 0)%nat; destruct (i <? 5)%nat;
    rewrite ?skills_nameStep, ?skills_contactStep; reflexivity.
Qed.

Lemma lineStep_cases (i : nat) (rawLine : jsstring) (st : ScanState) :
  trim rawLine <> [] ->
  lineStep i rawLine st =
    let line := trim rawLine in
    let st1 := Build_ScanState (contactUpdated i line (parsed st))
                 (currentSection st) (buffer st) in
    match headerKind line with
    | Some k => Build_ScanState (flushBuffer st1) (Some k) []
    | None => Build_ScanState (parsed st1) (currentSection st) (buffer st ++ [line])
    end.
Proof.
  intros Hne. unfold lineStep.
  destruct (trim rawLine) as [|c line'] eqn:E; [contradiction Hne; reflexivity|].
  simpl isEmpty. cbv iota.
  fold (contactUpdated i (c :: line') (parsed st)).
  rewrite headerLoop_headerKind.
  destruct (headerKind (c :: line')); reflexivity.
Qed.

Lemma dropWhile_head (p : codeunit -> bool) (s : jsstring) c t :
  dropWhile p s = c :: t -> p c = false.
Proof.
  induction s as [|x s IH]; simpl; [discriminate|].
  destruct (p x) eqn:E; [exact IH|].
  intros H. injection H as <- _. exact E.
Qed.

Lemma dropWhile_snoc (p : codeunit -> bool) (l : jsstring) c :
  p c = false -> dropWhile p (l ++ [c]) = dropWhile p l ++ [c].
Proof.
  intros Hc. induction l as [|x l IH]; simpl.
  - rewrite Hc. reflexivity.
  - destruct (p x); [exact IH | reflexivity].
Qed.

Lemma trimEnd_head c s :
  isSpace c = false -> exists t, trimEnd (c :: s) = c :: t.
Proof.
  intros Hc. unfold trimEnd. simpl rev.
  rewrite dropWhile_snoc by exact Hc.
  rewrite rev_app_distr. simpl. eexists. reflexivity.
Qed.

Lemma trim_head r c s : trim r = c :: s -> isSpace c = false.
Proof.
  unfold trim, trimStart. intros H.
  destruct (dropWhile isSpace r) as [|c' u] eqn:E; [discriminate H|].
  pose proof (dropWhile_head _ _ _ _ E) as Hc'.
  destruct (trimEnd_head c' u Hc') as [t Ht]. rewrite Ht in H.
  injection H as <- _. exact Hc'.
Qed.

Lemma trim_nonblank c s : isSpace c = false -> trim (c :: s) <> [].
Proof.
  intros Hc. unfold trim, trimStart. simpl. rewrite Hc.
  destruct (trimEnd_head c s Hc) as [t Ht]. rewrite Ht. discriminate.
Qed.

Lemma join_head (sep l : jsstring) (c : codeunit) (s : jsstring) ls :
  l = c :: s -> exists t, join sep (l :: ls) = c :: t.
Proof.
  intros ->. destruct ls; simpl; eexists; reflexivity.
Qed.

Lemma rawBlank_join (r : jsstring) (ls : list jsstring) :
  trim r <> [] -> rawBlank (Some (join nl (trim r :: ls))) = false.
Proof.
  intros Hne. destruct (trim r) as [|c s] eqn:E; [contradiction Hne; reflexivity|].
  pose proof (trim_head _ _ _ E) as Hc.
  destruct (join_head nl (c :: s) c s ls eq_refl) as [t Ht]. rewrite Ht.
  unfold rawBlank. simpl truthy. simpl orEmpty.
  pose proof (trim_nonblank c t Hc) as Hnb.
  destruct (trim (c :: t)); [contradiction Hnb; reflexivity | reflexivity].
Qed.

Lemma scanLines_app (l1 l2 : list jsstring) i st :
  scanLines i (l1 ++ l2) st = scanLines (i + length l1) l2 (scanLines i l1 st).
Proof.
  revert i st. induction l1 as [|r l1 IH]; intros i st; simpl.
  - rewrite Nat.add_0_r. reflexivity.
  - rewrite IH. f_equal. lia.
Qed.

Lemma rawSection_flushBuffer (st : ScanState) (k : SectionKind) :
  rawSection (flushBuffer st) k =
    match buffer st, currentSection st with
    | _ :: _, Some s =>
        if SectionKind_eqb s k then Some (join nl (buffer st))
        else rawSection (parsed st) k
    | _, _ => rawSection (parsed st) k
    end.
Proof.
  unfold flushBuffer. destruct (buffer st); [reflexivity|].
  rewrite rawSection_process. destruct (currentSection st); reflexivity.
Qed.

(** Lines that are no headers are appended to the buffer and leave the
    sections alone. *)
Lemma scan_body (braws : list jsstring) :
  Forall (fun r => trim r <> [] /\ headerKind (trim r) = None) braws ->
  forall i st,
    currentSection (scanLines i braws st) = currentSection st
    /\ buffer (scanLines i braws st) = buffer st ++ map trim braws
    /\ (forall k, rawSection (parsed (scanLines i braws st)) k
                  = rawSection (parsed st) k)
    /\ skills_or_tech_stack (parsed (scanLines i braws st))
       = skills_or_tech_stack (parsed st).
Proof.
  induction 1 as [|r braws [Hne Hk] _ IH]; intros i st.
  - cbn [scanLines map]. rewrite app_nil_r. repeat split; reflexivity.
  - cbn [scanLines map].
    rewrite (lineStep_cases i r st Hne). cbv zeta. rewrite Hk.
    cbn [parsed currentSection buffer].
    destruct (IH (S i)
                (Build_ScanState (contactUpdated i (trim r) (parsed st))
                   (currentSection st) (buffer st ++ [trim r])))
      as [Hc [Hb [Hr Hs]]].
    cbn [parsed currentSection buffer] in Hc, Hb, Hr, Hs.
    repeat split.
    + exact Hc.
    + rewrite Hb, <- app_assoc. reflexivity.
    + intros k. rewrite Hr. apply rawSection_contactUpdated.
    + rewrite Hs. apply skills_contactUpdated.
Qed.

(** While no later header is of kind [k] and [k] is not the active section,
    the raw text stored for [k] stays as it is. *)
Lemma scan_tail (k : SectionKind) (rraws : list jsstring) :
  Forall (fun r => trim r <> [] /\ headerKind (trim r) <> Some k) rraws ->
  forall i st,
    currentSection st <> Some k ->
    currentSection (scanLines i rraws st) <> Some k
    /\ rawSection (parsed (scanLines i rraws st)) k = rawSection (parsed st) k.
Proof.
  induction 1 as [|r rraws [Hne Hk] _ IH]; intros i st Hcur.
  - cbn [scanLines]. split; [exact Hcur | reflexivity].
  - cbn [scanLines].
    rewrite (lineStep_cases i r st Hne). cbv zeta.
    destruct (headerKind (trim r)) as [k'|] eqn:E;
      cbn [parsed currentSection buffer].
    + match goal with
      | |- context [scanLines (S i) rraws ?s] =>
          destruct (IH (S i) s) as [Hc Hr]; [exact Hk|]
      end.
      split; [exact Hc|]. rewrite Hr. cbn [parsed].
      rewrite rawSection_flushBuffer. cbn [parsed currentSection buffer].
      destruct (buffer st); [apply rawSection_contactUpdated|].
      destruct (currentSection st) as [s|]; [|apply rawSection_contactUpdated].
      rewrite SectionKind_eqb_neq by congruence.
      apply rawSection_contactUpdated.
    + match goal with
      | |- context [scanLines (S i) rraws ?s] =>
          destruct (IH (S i) s) as [Hc Hr]; [exact Hcur|]
      end.
      split; [exact Hc|]. rewrite Hr. apply rawSection_contactUpdated.
Qed.

Lemma rawSection_skillsFallback (text : jsstring) (P : ResumeData) (k : SectionKind) :
  k <> Skills \/ rawBlank (rawSection P Skills) = false ->
  rawSection (skillsFallback text P) k = rawSection P k.
Proof.
  intros H. unfold skillsFallback, fallbackRuns.
  destruct (noItems (skills_or_tech_stack P)); simpl; [|reflexivity].
  destruct (rawBlank (rawSection P Skills)) eqn:E; [|reflexivity].
  destruct H as [H | H]; [|discriminate H].
  assert (Hset : forall v c,
             rawSection (set_skills_or_tech_stack v (setRawSkills c P)) k
             = rawSection P k).
  { intros v c. unfold rawSection, setRawSkills. simpl.
    destruct k; try reflexivity; try (destruct (_raw_sections P); reflexivity).
    contradiction H; reflexivity. }
  destruct (skillsStartIndex _).
  - destruct (collectSkillsLines _ _); [reflexivity | apply Hset].
  - destruct (keywordSweep text); [reflexivity | apply Hset].
Qed.

Lemma nonBlankLines_nonblank (text : jsstring) :
  Forall (fun r => trim r <> []) (nonBlankLines text).
Proof.
  unfold nonBlankLines. rewrite Forall_forall. intros r Hr.
  apply filter_In in Hr as [_ Hr].
  destruct (trim r); [discriminate Hr | discriminate].
Qed.

(** C1, as stated, fails: the stored text is not the text between the header
    line and the end of the document byte for byte.  The lines are trimmed
    and blank lines are dropped before they are buffered. *)
Lemma rawSections_not_verbatim :
  indentedSkillsDoc = str "Skills" ++ nl ++ unlines ["  Python, Go"; EmptyString; "SQL"]%string
  /\ headerKind (str "Skills") = Some Skills
  /\ Forall (fun l => headerKind l = None)
       (map str ["  Python, Go"; EmptyString; "SQL"]%string)
  /\ rawSection (parseResumeTextFallback indentedSkillsDoc) Skills
     = Some (unlines ["Python, Go"; "SQL"]%string)
  /\ rawSection (parseResumeTextFallback indentedSkillsDoc) Skills
     <> Some (unlines ["  Python, Go"; EmptyString; "SQL"]%string).
Proof.
  split; [reflexivity|]. split; [vm_compute; reflexivity|].
  split; [repeat constructor|].
  split; [vm_compute; reflexivity|].
  vm_compute. discriminate.
Qed.

(** C1 (amended): the main loop works on the trimmed non-blank lines of the
    document.  When a line [h] is made a header of kind [k], the lines
    [body] after it (at least one) are no headers, they are followed by a
    header or by the end of the document, and no later line is made a header
    of kind [k], then rawSections[k] of the parse is exactly the
    newline-join of [body]. *)
Theorem rawSections_between_headers (text : jsstring)
  (pre body rest : list jsstring) (h : jsstring) (k : SectionKind) :
  docLines text = pre ++ h :: body ++ rest ->
  headerKind h = Some k ->
  body <> [] ->
  Forall (fun l => headerKind l = None) body ->
  (rest = [] \/ exists h' rest', rest = h' :: rest' /\ headerKind h' <> None) ->
  Forall (fun l => headerKind l <> Some k) rest ->
  rawSection (parseResumeTextFallback text) k = Some (join nl body).
Proof.
  intros Hdoc Hh Hbody Hnone Hnext Hlater.
  unfold docLines in Hdoc.
  apply map_eq_app in Hdoc as (praws & tl & Hraws & Hpre & Htl).
  apply map_eq_cons in Htl as (hraw & tl2 & -> & Hhraw & Htl2).
  apply map_eq_app in Htl2 as (braws & rraws & -> & Hbraws & Hrraws).
  pose proof (nonBlankLines_nonblank text) as Hnb. rewrite Hraws in Hnb.
  apply Forall_app in Hnb as [_ Hnb].
  apply Forall_cons_iff in Hnb as [Hnbh Hnb].
  apply Forall_app in Hnb as [Hnbb Hnbr].
  subst h body rest.
  rewrite Forall_map in Hnone, Hlater.
  assert (Hb : Forall (fun r => trim r <> [] /\ headerKind (trim r) = None) braws).
  { rewrite Forall_forall in *. intros r Hr. split; auto. }
  assert (Hr : Forall (fun r => trim r <> [] /\ headerKind (trim r) <> Some k) rraws).
  { rewrite Forall_forall in *. intros r Hin. split; auto. }
  clear Hnone Hlater Hnbb Hnbr.
  (* the state when the last line has been read *)
  assert (Hseg : rawSection (segment text) k = Some (join nl (map trim braws))).
  { unfold segment. rewrite Hraws, scanLines_app. cbn [scanLines].
    rewrite scanLines_app.
    set (st0 := scanLines 0 praws _).
    rewrite (lineStep_cases _ hraw st0 Hnbh). cbv zeta. rewrite Hh.
    set (st1 := Build_ScanState _ (Some k) []).
    destruct (scan_body braws Hb (S (0 + length praws)) st1) as [Hc [Hbuf [_ _]]].
    set (st2 := scanLines (S (0 + length praws)) braws st1) in *.
    change (currentSection st1) with (Some k) in Hc.
    change (buffer st1 ++ map trim braws) with (map trim braws) in Hbuf.
    assert (Hflush2 : forall P, rawSection
                        (flushBuffer (Build_ScanState P (currentSection st2) (buffer st2))) k
                      = Some (join nl (map trim braws))).
    { intros P. rewrite rawSection_flushBuffer. cbn [parsed currentSection buffer].
      rewrite Hc, Hbuf.
      destruct (map trim braws) eqn:E; [contradiction Hbody; reflexivity|].
      replace (SectionKind_eqb k k) with true
        by (symmetry; apply SectionKind_eqb_eq; reflexivity).
      reflexivity. }
    destruct rraws as [|h'raw rraws'].
    - cbn [scanLines]. destruct st2 as [P2 c2 b2]. apply Hflush2.
    - apply Forall_cons_iff in Hr as [[Hne' Hk'] Hr].
      destruct Hnext as [Hnil | (h' & rest' & Heq & Hh')]; [discriminate Hnil|].
      injection Heq as <- _.
      cbn [scanLines].
      rewrite (lineStep_cases _ h'raw st2 Hne'). cbv zeta.
      destruct (headerKind (trim h'raw)) as [k'|] eqn:Ek';
        [|contradiction Hh'; reflexivity].
      match goal with
      | |- context [scanLines ?j rraws' ?s] =>
          destruct (scan_tail k rraws' Hr j s) as [Hc3 Hr3];
          [cbn [currentSection]; exact Hk'|];
          set (st3 := scanLines j rraws' s) in *
      end.
      rewrite rawSection_flushBuffer.
      assert (E3 : rawSection (parsed st3) k = Some (join nl (map trim braws))).
      { rewrite Hr3. cbn [parsed]. apply Hflush2. }
      destruct (buffer st3); [exact E3|].
      destruct (currentSection st3) as [s|]; [|exact E3].
      rewrite SectionKind_eqb_neq by congruence. exact E3. }
  unfold parseResumeTextFallback.
  rewrite rawSection_skillsFallback; [exact Hseg|].
  destruct k; try (left; discriminate).
  right. rewrite Hseg.
  destruct braws as [|b0 braws']; [contradiction Hbody; reflexivity|].
  apply Forall_cons_iff in Hb as [[Hb0 _] _].
  cbn [map]. apply rawBlank_join. exact Hb0.
Qed.

Lemma rawSections_between_headers_witness :
  rawSection (parseResumeTextFallback sampleResume) Skills
  = Some (unlines ["Python, Go"; "SQL"]%string).
Proof.
  apply (rawSections_between_headers sampleResume
           (map str ["Jane Doe"; "jane@x.com, (555) 123-4567"]%string)
           (map str ["Python, Go"; "SQL"]%string)
           (map str ["Experience"; "Acme Co"; "Engineer"; "2019 - Present";
                     "- Built X"]%string)
           (str "Skills") Skills).
  - vm_compute. reflexivity.
  - vm_compute. reflexivity.
  - discriminate.
  - repeat constructor.
  - right. eexists. eexists. split; [reflexivity|]. vm_compute. discriminate.
  - repeat constructor; vm_compute; discriminate.
Defined.

(** C2 on the enhanced parser: the [continue] of the header loop goes on
    with the later sections, so the last matching section stays active.  The
    line "Programming Languages" is a skills trigger phrase itself and also
    contains "languages": skills come first in the iteration order, yet the
    active section after the line is languages.  On "Language Skills", which
    matches two dictionaries of both parsers, the plain parser leaves its
    loop with [break] at skills, the enhanced one ends on languages. *)
Theorem headerLoop_last_match_stays :
  (forall line st,
      currentSection (fst (headerLoop line (toLowerCase line) st))
      = match headerKind line with
        | Some k => Some k
        | None => currentSection st
        end)
  /\ firstMatch (str "Programming Languages") = Some Skills
  /\ headerKind (str "Programming Languages") = Some Languages
  /\ firstMatch (str "Language Skills") = Some Skills
  /\ Plain.headerLoop (str "Language Skills") (toLowerCase (str "Language Skills"))
     = Some Skills
  /\ headerKind (str "Language Skills") = Some Languages
  /\ rawSection (segment (unlines ["Programming Languages"; "Python, Go"]%string))
       Languages = Some (str "Python, Go")
  /\ rawSection (segment (unlines ["Programming Languages"; "Python, Go"]%string))
       Skills = None.
Proof.
  split.
  { intros line st. rewrite headerLoop_headerKind.
    destruct (headerKind line); reflexivity. }
  repeat split; vm_compute; reflexivity.
Qed.

(** ** The whole-document keyword sweep *)

Lemma RLitI_cons (p : codeunit) (kw : jsstring) :
  RLitI (p :: kw) = RSeq (RUnit (eqUnitCI p)) (RLitI kw).
Proof. reflexivity. Qed.

Lemma rmatch_RLitI (kw : jsstring) :
  forall prev s k,
    rmatch (RLitI kw) prev s k =
      if prefixCI kw s
      then k (lastUnit prev (firstn (length kw) s)) (skipn (length kw) s)
      else None.
Proof.
  induction kw as [|p kw IH]; intros prev s k.
  - reflexivity.
  - rewrite RLitI_cons. cbn [rmatch].
    destruct s as [|c s]; [reflexivity|].
    cbn [prefixCI length firstn skipn].
    destruct (eqUnitCI p c); [|reflexivity].
    rewrite IH. reflexivity.
Qed.

Lemma prefixCI_length (kw s : jsstring) :
  prefixCI kw s = true -> length kw <= length s.
Proof.
  revert s. induction kw as [|p kw IH]; intros [|c s]; simpl; intros H;
    try lia; try discriminate H.
  apply andb_true_iff in H as [_ H]. apply IH in H. lia.
Qed.

Lemma canonUnit_idem (c : codeunit) : canonUnit (canonUnit c) = canonUnit c.
Proof.
  unfold canonUnit, isLowerAZ, inRange.
  destruct (N.leb 97 c) eqn:E1; destruct (N.leb c 122) eqn:E2; simpl;
    rewrite ?E1, ?E2; simpl; try reflexivity.
  apply N.leb_le in E1. apply N.leb_le in E2.
  replace (N.leb 97 (c - 32)) with false; [reflexivity|].
  symmetry. apply N.leb_gt. lia.
Qed.

Lemma prefixCI_same (kw s : jsstring) :
  prefixCI kw s = true -> sameLettersCI kw (firstn (length kw) s).
Proof.
  unfold sameLettersCI.
  revert s. induction kw as [|p kw IH]; intros [|c s]; simpl; intros H;
    try reflexivity; try discriminate H.
  apply andb_true_iff in H as [Hc H]. apply N.eqb_eq in Hc.
  rewrite (IH s H), Hc. reflexivity.
Qed.

Lemma same_prefixCI (kw m post : jsstring) :
  sameLettersCI kw m ->
  prefixCI kw (m ++ post) = true
  /\ firstn (length kw) (m ++ post) = m
  /\ skipn (length kw) (m ++ post) = post.
Proof.
  unfold sameLettersCI.
  revert m. induction kw as [|p kw IH]; intros [|c m]; simpl; intros H;
    try discriminate H.
  - repeat split; reflexivity.
  - injection H as Hc H. destruct (IH m H) as [H1 [H2 H3]].
    unfold eqUnitCI. rewrite Hc, N.eqb_refl, H1, H2, H3. repeat split; reflexivity.
Qed.

Lemma firstn_skipn_length (n : nat) (s : jsstring) :
  n <= length s -> firstn (length s - length (skipn n s)) s = firstn n s.
Proof.
  intros H. rewrite length_skipn. f_equal. lia.
Qed.

(** What the pattern of a keyword matches at a given position. *)
Lemma matchHere_keyword (kw : jsstring) (prev : option codeunit) (s : jsstring) :
  matchHere (keywordRegex kw) prev s =
    if atWordBoundary prev s
       && prefixCI kw s
       && (negb (needsEndBoundary kw)
           || atWordBoundary (lastUnit prev (firstn (length kw) s))
                (skipn (length kw) s))
    then Some (firstn (length kw) s)
    else None.
Proof.
  unfold matchHere, keywordRegex, needsEndBoundary.
  destruct (streq kw (str "c++")) eqn:E1;
    [apply streq_eq in E1; subst kw
    | destruct (streq kw (str "c#")) eqn:E2;
      [apply streq_eq in E2; subst kw|]];
    cbn [RSeqs fold_right rmatch orb negb];
    destruct (atWordBoundary prev s); cbn [andb]; try reflexivity;
    rewrite rmatch_RLitI;
    match goal with
    | |- context [prefixCI ?k s] =>
        destruct (prefixCI k s) eqn:Ep; cbn [andb]; [|reflexivity];
        apply prefixCI_length in Ep
    end.
  - cbn [rmatch]. rewrite firstn_skipn_length by exact Ep. reflexivity.
  - cbn [rmatch]. rewrite firstn_skipn_length by exact Ep. reflexivity.
  - cbn [rmatch].
    destruct (atWordBoundary _ _); [|reflexivity].
    rewrite firstn_skipn_length by exact Ep. reflexivity.
Qed.

Lemma lastUnit_app (prev : option codeunit) (a b : jsstring) :
  lastUnit prev (a ++ b) = lastUnit (lastUnit prev a) b.
Proof. apply fold_left_app. Qed.

Lemma searchFrom_unfold (r : regex) (prev : option codeunit) (s : jsstring) :
  searchFrom r prev s =
    match matchHere r prev s with
    | Some m => Some m
    | None =>
        match s with
        | [] => None
        | c :: s' => searchFrom r (Some c) s'
        end
    end.
Proof. destruct s; reflexivity. Qed.

Lemma searchFrom_found (r : regex) (pre : jsstring) :
  forall prev s m,
    matchHere r (lastUnit prev pre) s = Some m ->
    exists m', searchFrom r prev (pre ++ s) = Some m'.
Proof.
  induction pre as [|c pre IH]; intros prev s m H.
  - exists m. rewrite searchFrom_unfold. simpl in *. rewrite H. reflexivity.
  - rewrite searchFrom_unfold.
    destruct (matchHere r prev ((c :: pre) ++ s)) as [m0|]; [exists m0; reflexivity|].
    apply (IH (Some c) s m). exact H.
Qed.

Lemma searchFrom_sound (r : regex) (s : jsstring) :
  forall prev m,
    searchFrom r prev s = Some m ->
    exists pre s1, s = pre ++ s1 /\ matchHere r (lastUnit prev pre) s1 = Some m.
Proof.
  induction s as [|c s IH]; intros prev m H; rewrite searchFrom_unfold in H.
  - destruct (matchHere r prev []) eqn:E; [|discriminate H].
    injection H as ->. exists [], []. split; [reflexivity | exact E].
  - destruct (matchHere r prev (c :: s)) eqn:E.
    + injection H as ->. exists [], (c :: s). split; [reflexivity | exact E].
    + destruct (IH (Some c) m H) as (pre & s1 & -> & Hm).
      exists (c :: pre), s1. split; [reflexivity | exact Hm].
Qed.

(** An occurrence of the keyword makes the pattern match, and what the
    pattern matches is an occurrence. *)
Lemma keyword_occurrence_found (kw text pre m post : jsstring) :
  text = pre ++ m ++ post ->
  occursAsWord kw pre m post ->
  exists m', regexMatch (keywordRegex kw) text = Some m'.
Proof.
  intros -> (Hsame & Hb & He).
  apply (searchFrom_found (keywordRegex kw) pre None (m ++ post) m).
  rewrite matchHere_keyword.
  destruct (same_prefixCI kw m post Hsame) as [H1 [H2 H3]].
  rewrite Hb, H1, H2, H3, <- lastUnit_app. cbn [andb].
  destruct (needsEndBoundary kw); [rewrite He by reflexivity|]; reflexivity.
Qed.

Lemma keyword_match_occurrence (kw text m : jsstring) :
  regexMatch (keywordRegex kw) text = Some m ->
  exists pre post, text = pre ++ m ++ post /\ occursAsWord kw pre m post.
Proof.
  intros H. apply searchFrom_sound in H as (pre & s1 & -> & Hm).
  rewrite matchHere_keyword in Hm.
  destruct (atWordBoundary (lastUnit None pre) s1) eqn:Hb; [|discriminate Hm].
  destruct (prefixCI kw s1) eqn:Hp; [|discriminate Hm].
  cbn [andb] in Hm.
  destruct (negb (needsEndBoundary kw) || _) eqn:He; [|discriminate Hm].
  injection Hm as <-.
  exists pre, (skipn (length kw) s1).
  split; [rewrite firstn_skipn; reflexivity|].
  unfold occursAsWord. rewrite firstn_skipn.
  split; [apply prefixCI_same; exact Hp|]. split; [exact Hb|].
  intros Hn. rewrite Hn in He. cbn [negb orb] in He.
  rewrite lastUnit_app. exact He.
Qed.

Lemma keywordSweep_In (text : jsstring) (kw m : jsstring) :
  In kw sweepKeywords ->
  regexMatch (keywordRegex kw) text = Some m ->
  In m (keywordSweep text).
Proof.
  unfold keywordSweep.
  assert (H : forall kws acc,
             In m acc \/ In kw kws ->
             regexMatch (keywordRegex kw) text = Some m ->
             In m (fold_left (sweepIter text) kws acc)).
  { induction kws as [|k0 kws IH]; intros acc Hin Hm; simpl.
    - destruct Hin as [Hin | []]. exact Hin.
    - apply IH; [|exact Hm].
      destruct Hin as [Hin | [-> | Hin]].
      + left. unfold sweepIter.
        destruct (regexTest (keywordRegex k0) text); [|exact Hin].
        destruct (regexMatch (keywordRegex k0) text); [|exact Hin].
        apply in_or_app. left. exact Hin.
      + left. unfold sweepIter, regexTest. rewrite Hm.
        apply in_or_app. right. left. reflexivity.
      + right. exact Hin. }
  intros Hin Hm. apply H; [right; exact Hin | exact Hm].
Qed.

Lemma skills_flushBuffer_none (st : ScanState) :
  currentSection st = None ->
  skills_or_tech_stack (flushBuffer st) = skills_or_tech_stack (parsed st).
Proof.
  intros H. unfold flushBuffer. destruct (buffer st); [reflexivity|].
  rewrite H. reflexivity.
Qed.

(** Without any header line the segmentation stores nothing for skills. *)
Lemma segment_no_headers (text : jsstring) :
  Forall (fun l => headerKind l = None) (docLines text) ->
  skills_or_tech_stack (segment text) = Some []
  /\ rawSection (segment text) Skills = None.
Proof.
  intros H. unfold docLines in H. rewrite Forall_map in H.
  assert (Hb : Forall (fun r => trim r <> [] /\ headerKind (trim r) = None)
                 (nonBlankLines text)).
  { pose proof (nonBlankLines_nonblank text) as Hnb.
    rewrite Forall_forall in *. intros r Hr. split; auto. }
  unfold segment.
  destruct (scan_body (nonBlankLines text) Hb 0
              (Build_ScanState initialParsed None [])) as [Hc [_ [Hr Hs]]].
  cbn [parsed currentSection] in Hc, Hr, Hs.
  split.
  - rewrite skills_flushBuffer_none by exact Hc. rewrite Hs. reflexivity.
  - rewrite rawSection_flushBuffer, Hc, Hr.
    destruct (buffer _); reflexivity.
Qed.

(** C7, as stated, fails: no section is detected in this one-line document
    and "Python" occurs in it as a word, yet the sweep does not run, because
    the line counts as a loose skills header for the first tier (it contains
    "software"); that tier collects nothing and the skills stay empty. *)
Lemma sweep_skipped_without_sections :
  Forall (fun l => headerKind l = None) (docLines looseHeaderDoc)
  /\ In (str "python") sweepKeywords
  /\ (exists pre post,
         looseHeaderDoc = pre ++ str "Python" ++ post
         /\ occursAsWord (str "python") pre (str "Python") post)
  /\ skills_or_tech_stack (parseResumeTextFallback looseHeaderDoc) = Some [].
Proof.
  split; [repeat constructor|].
  split; [vm_compute; tauto|].
  split; [|vm_compute; reflexivity].
  exists (firstn 12 looseHeaderDoc), (skipn 18 looseHeaderDoc).
  split; [vm_compute; reflexivity|].
  split; [vm_compute; reflexivity|].
  split; [vm_compute; reflexivity|].
  intros _. vm_compute. reflexivity.
Qed.

(** C7 (amended): the fallback leaves the record as it is unless, after
    segmentation, the skills list is empty and rawSections[skills] is missing
    or blank, which is the case when no section was detected.  When it runs
    and no line of the text is a loose skills header, the sweep runs: every
    keyword of the fixed list that occurs in the text as a word, in whatever
    casing, is in the resulting skills list in the casing of an occurrence
    in the text.  When the tier that runs finds nothing, the record is
    unchanged and the skills list is still empty. *)
Theorem skills_fallback_sweep (text : jsstring) :
  (noItems (skills_or_tech_stack (segment text)) = false
   \/ rawBlank (rawSection (segment text) Skills) = false ->
   parseResumeTextFallback text = segment text)
  /\ (Forall (fun l => headerKind l = None) (docLines text) ->
      fallbackRuns (segment text) = true)
  /\ (fallbackRuns (segment text) = true ->
      skillsStartIndex (splitOn (N.eqb cu_newline) text) = None ->
      forall kw pre m post,
        In kw sweepKeywords ->
        text = pre ++ m ++ post ->
        occursAsWord kw pre m post ->
        exists pre' m' post',
          text = pre' ++ m' ++ post'
          /\ occursAsWord kw pre' m' post'
          /\ In m' (orNil (skills_or_tech_stack (parseResumeTextFallback text))))
  /\ (fallbackRuns (segment text) = true ->
      match skillsStartIndex (splitOn (N.eqb cu_newline) text) with
      | Some i =>
          collectSkillsLines (skipn (S i) (splitOn (N.eqb cu_newline) text)) [] = []
      | None => keywordSweep text = []
      end ->
      parseResumeTextFallback text = segment text
      /\ noItems (skills_or_tech_stack (parseResumeTextFallback text)) = true).
Proof.
  repeat split.
  - intros H. unfold parseResumeTextFallback, skillsFallback, fallbackRuns.
    destruct H as [-> | ->]; [reflexivity | rewrite andb_false_r; reflexivity].
  - intros H. destruct (segment_no_headers text H) as [Hs Hr].
    unfold fallbackRuns. rewrite Hs, Hr. reflexivity.
  - intros Hrun Hidx kw pre m post Hkw Htext Hocc.
    destruct (keyword_occurrence_found kw text pre m post Htext Hocc) as [m' Hm'].
    destruct (keyword_match_occurrence kw text m' Hm') as (pre' & post' & Ht' & Hocc').
    exists pre', m', post'. split; [exact Ht'|]. split; [exact Hocc'|].
    pose proof (keywordSweep_In text kw m' Hkw Hm') as Hin.
    unfold parseResumeTextFallback, skillsFallback. rewrite Hrun, Hidx.
    destruct (keywordSweep text) as [|x l]; [destruct Hin | exact Hin].
  - unfold parseResumeTextFallback, skillsFallback. rewrite H.
    destruct (skillsStartIndex _); rewrite H0; reflexivity.
  - unfold parseResumeTextFallback, skillsFallback. rewrite H.
    unfold fallbackRuns in H. apply andb_true_iff in H as [Hn _].
    destruct (skillsStartIndex _); rewrite H0; exact Hn.
Qed.

Lemma skills_fallback_sweep_witness :
  exists m',
    sameLettersCI (str "python") m'
    /\ In m' (orNil (skills_or_tech_stack (parseResumeTextFallback proseDoc))).
Proof.
  destruct (skills_fallback_sweep proseDoc) as [_ [Hrun [Hsweep _]]].
  assert (Hnone : Forall (fun l => headerKind l = None) (docLines proseDoc))
    by repeat constructor.
  assert (Hidx : skillsStartIndex (splitOn (N.eqb cu_newline) proseDoc) = None)
    by (vm_compute; reflexivity).
  assert (Hocc : occursAsWord (str "python") (str "I know ") (str "Python")
                   (str " and c++ and JavaScript, also GO.")).
  { split; [vm_compute; reflexivity|].
    split; [vm_compute; reflexivity|].
    intros _. vm_compute. reflexivity. }
  destruct (Hsweep (Hrun Hnone) Hidx (str "python") (str "I know ") (str "Python")
              (str " and c++ and JavaScript, also GO."))
    as (pre' & m' & post' & _ & [Hsame _] & Hin).
  - vm_compute. tauto.
  - reflexivity.
  - exact Hocc.
  - exists m'. split; [exact Hsame | exact Hin].
Defined.

(** * Further properties *)

(** ** Trimmed strings *)

Lemma headNonSpace_app (a b : jsstring) :
  headNonSpace a = true -> headNonSpace (a ++ b) = true.
Proof. destruct a; simpl; [discriminate | auto]. Qed.

Lemma tight_nonempty (s : jsstring) : tight s = true -> s <> [].
Proof. destruct s; [discriminate | discriminate]. Qed.

Lemma trimEnd_tight s : headNonSpace (rev s) = true -> trimEnd s = s.
Proof.
  unfold trimEnd. intros H.
  destruct (rev s) as [|c t] eqn:E; [discriminate H|].
  simpl in H. apply negb_true_iff in H.
  simpl. rewrite H. rewrite <- E. apply rev_involutive.
Qed.

Lemma tight_trim_id (s : jsstring) : tight s = true -> trim s = s.
Proof.
  unfold tight. intros H. apply andb_true_iff in H as [H1 H2].
  unfold trim, trimStart.
  destruct s as [|c s]; [discriminate H1|].
  simpl in H1. apply negb_true_iff in H1.
  simpl dropWhile. rewrite H1. apply trimEnd_tight. exact H2.
Qed.

Lemma trimEnd_last u : headNonSpace (rev (trimEnd u)) = true \/ trimEnd u = [].
Proof.
  unfold trimEnd. rewrite rev_involutive.
  destruct (dropWhile isSpace (rev u)) as [|c t] eqn:E; [right; reflexivity|].
  left. simpl. apply dropWhile_head in E. rewrite E. reflexivity.
Qed.

Lemma trim_tight (r : jsstring) : trim r <> [] -> tight (trim r) = true.
Proof.
  intros Hne. unfold tight. apply andb_true_iff. split.
  - destruct (trim r) as [|c s] eqn:E; [contradiction Hne; reflexivity|].
    simpl. rewrite (trim_head _ _ _ E). reflexivity.
  - unfold trim in *. destruct (trimEnd_last (trimStart r)) as [H | H];
      [exact H | contradiction].
Qed.

Lemma trim_idempotent (s : jsstring) : trim (trim s) = trim s.
Proof.
  destruct (trim s) as [|c t] eqn:E; [reflexivity|].
  rewrite <- E. apply tight_trim_id. apply trim_tight. rewrite E. discriminate.
Qed.

Lemma tight_join (sep : jsstring) (ls : list jsstring) :
  forall l0,
    tight l0 = true ->
    Forall (fun l => tight l = true) ls ->
    tight (join sep (l0 :: ls)) = true.
Proof.
  induction ls as [|l1 ls IH]; intros l0 H0 Hls.
  - exact H0.
  - apply Forall_cons_iff in Hls as [H1 Hls].
    specialize (IH l1 H1 Hls).
    change (join sep (l0 :: l1 :: ls)) with (l0 ++ sep ++ join sep (l1 :: ls)).
    unfold tight in *.
    apply andb_true_iff in H0 as [Ha _]. apply andb_true_iff in IH as [_ Hb].
    apply andb_true_iff. split.
    + apply headNonSpace_app. exact Ha.
    + rewrite !rev_app_distr, <- app_assoc. apply headNonSpace_app. exact Hb.
Qed.

Lemma tight_join_list (sep : jsstring) (ls : list jsstring) :
  ls <> [] ->
  Forall (fun l => tight l = true) ls ->
  tight (join sep ls) = true.
Proof.
  destruct ls as [|l0 ls]; [intros H; contradiction H; reflexivity|].
  intros _ H. apply Forall_cons_iff in H as [H0 H]. apply tight_join; assumption.
Qed.

(** ** Stored raw sections are trimmed *)

Lemma flushBuffer_tight (st : ScanState) :
  tightState st ->
  forall k v, rawSection (flushBuffer st) k = Some v -> tight v = true.
Proof.
  intros [Hb Hr] k v. rewrite rawSection_flushBuffer.
  destruct (buffer st) as [|l0 ls] eqn:E; [apply Hr|].
  destruct (currentSection st) as [s|]; [|apply Hr].
  destruct (SectionKind_eqb s k); [|apply Hr].
  intros H. injection H as <-.
  change (tight (join nl (l0 :: ls)) = true).
  apply tight_join_list; [discriminate | exact Hb].
Qed.

Lemma lineStep_tight (i : nat) (r : jsstring) (st : ScanState) :
  trim r <> [] -> tightState st -> tightState (lineStep i r st).
Proof.
  intros Hne Hst. rewrite (lineStep_cases i r st Hne). cbv zeta.
  assert (Hst1 : tightState
                   (Build_ScanState (contactUpdated i (trim r) (parsed st))
                      (currentSection st) (buffer st))).
  { destruct Hst as [Hb Hr]. split; [exact Hb|].
    intros k v. cbn [parsed]. rewrite rawSection_contactUpdated. apply Hr. }
  destruct (headerKind (trim r)).
  - split; [constructor|]. cbn [parsed]. apply flushBuffer_tight. exact Hst1.
  - destruct Hst1 as [Hb Hr]. split; [|exact Hr].
    cbn [buffer] in *. apply Forall_app. split; [exact Hb|].
    constructor; [apply trim_tight; exact Hne | constructor].
Qed.

Lemma scanLines_tight (lines : list jsstring) :
  Forall (fun r => trim r <> []) lines ->
  forall i st, tightState st -> tightState (scanLines i lines st).
Proof.
  induction 1 as [|r lines Hr _ IH]; intros i st Hst; cbn [scanLines].
  - exact Hst.
  - apply IH. apply lineStep_tight; assumption.
Qed.

Lemma segment_tight (text : jsstring) (k : SectionKind) (v : jsstring) :
  rawSection (segment text) k = Some v -> tight v = true.
Proof.
  unfold segment. apply flushBuffer_tight.
  apply scanLines_tight; [apply nonBlankLines_nonblank|].
  split; [constructor|]. intros k' v'. destruct k'; discriminate.
Qed.

Lemma collectSkillsLines_tight (rest : list jsstring) :
  forall acc,
    Forall (fun l => tight l = true) acc ->
    Forall (fun l => tight l = true) (collectSkillsLines rest acc).
Proof.
  induction rest as [|r rest IH]; intros acc Hacc; cbn [collectSkillsLines].
  - exact Hacc.
  - destruct (isEmpty (trim r)) eqn:E.
    + destruct acc as [|a acc']; [apply IH; exact Hacc|].
      destruct (find _ rest); [destruct (isNewSection _)|];
        try exact Hacc; apply IH; exact Hacc.
    + destruct (isNewSection (trim r)); [exact Hacc|].
      apply IH. apply Forall_app. split; [exact Hacc|].
      constructor; [|constructor]. apply trim_tight.
      destruct (trim r); [discriminate E | discriminate].
Qed.

Lemma lower_letter_not_space (c : codeunit) : isLowerAZ c = true -> isSpace c = false.
Proof.
  unfold isLowerAZ, isSpace, inRange. intros H.
  apply andb_true_iff in H as [H1 H2]. apply N.leb_le in H1, H2.
  repeat (apply orb_false_intro);
    try (apply N.eqb_neq; lia);
    apply andb_false_iff;
    try (right; apply N.leb_gt; lia); left; apply N.leb_gt; lia.
Qed.

Lemma canon_not_space (p c : codeunit) :
  canonUnit c = canonUnit p -> isSpace (canonUnit p) = false -> isSpace c = false.
Proof.
  intros H Hp. unfold canonUnit at 1 in H.
  destruct (isLowerAZ c) eqn:E; [apply lower_letter_not_space; exact E|].
  rewrite H. exact Hp.
Qed.

(** The keywords of the sweep hold no white space, in either case. *)
Lemma sweepKeywords_no_space :
  Forall (fun kw => kw <> []
                    /\ forallb (fun p => negb (isSpace (canonUnit p))) kw = true)
    sweepKeywords.
Proof. repeat constructor; discriminate. Qed.

Lemma same_letters_no_space (kw m : jsstring) :
  sameLettersCI kw m ->
  forallb (fun p => negb (isSpace (canonUnit p))) kw = true ->
  forallb (fun c => negb (isSpace c)) m = true.
Proof.
  unfold sameLettersCI. revert kw.
  induction m as [|c m IH]; intros [|p kw] H Hkw; try discriminate H;
    [reflexivity|].
  simpl in *. injection H as Hc H.
  apply andb_true_iff in Hkw as [Hp Hkw]. apply negb_true_iff in Hp.
  rewrite (canon_not_space p c Hc Hp). simpl. apply (IH kw H Hkw).
Qed.

Lemma no_space_tight (m : jsstring) :
  m <> [] -> forallb (fun c => negb (isSpace c)) m = true -> tight m = true.
Proof.
  intros Hne H. unfold tight.
  assert (Hh : forall s, s <> [] ->
                 forallb (fun c => negb (isSpace c)) s = true ->
                 headNonSpace s = true).
  { intros [|c s] Hs Hf; [contradiction Hs; reflexivity|].
    simpl in *. apply andb_true_iff in Hf as [Hc _]. exact Hc. }
  rewrite (Hh m Hne H). simpl. apply Hh.
  - intros Hr. apply Hne. rewrite <- (rev_involutive m), Hr. reflexivity.
  - rewrite forallb_forall in *. intros c Hc. apply H. apply in_rev. exact Hc.
Qed.

Lemma keyword_match_tight (text kw m : jsstring) :
  In kw sweepKeywords ->
  regexMatch (keywordRegex kw) text = Some m ->
  tight m = true.
Proof.
  intros Hkw Hm.
  destruct (keyword_match_occurrence kw text m Hm) as (pre & post & _ & Hsame & _).
  pose proof sweepKeywords_no_space as Hall. rewrite Forall_forall in Hall.
  destruct (Hall kw Hkw) as [Hne Hsp].
  apply no_space_tight; [|apply (same_letters_no_space kw m Hsame Hsp)].
  intros ->. unfold sameLettersCI in Hsame. destruct kw; [contradiction Hne; reflexivity|].
  discriminate Hsame.
Qed.

(** The sweep collects, keyword by keyword, what the pattern matches. *)
Lemma keywordSweep_flat_map (text : jsstring) :
  keywordSweep text =
    flat_map
      (fun kw =>
         match regexMatch (keywordRegex kw) text with
         | Some m => [m]
         | None => []
         end)
      sweepKeywords.
Proof.
  unfold keywordSweep.
  assert (H : forall kws acc,
             fold_left (sweepIter text) kws acc =
               acc ++ flat_map
                        (fun kw =>
                           match regexMatch (keywordRegex kw) text with
                           | Some m => [m]
                           | None => []
                           end) kws).
  { induction kws as [|kw kws IH]; intros acc; simpl.
    - rewrite app_nil_r. reflexivity.
    - rewrite IH. unfold sweepIter, regexTest.
      destruct (regexMatch (keywordRegex kw) text); simpl.
      + rewrite <- app_assoc. reflexivity.
      + reflexivity. }
  apply (H sweepKeywords []).
Qed.

Lemma keywordSweep_tight (text : jsstring) :
  Forall (fun m => tight m = true) (keywordSweep text).
Proof.
  rewrite keywordSweep_flat_map, Forall_forall. intros m Hm.
  apply in_flat_map in Hm as (kw & Hkw & Hin).
  destruct (regexMatch (keywordRegex kw) text) as [m'|] eqn:E; [|destruct Hin].
  destruct Hin as [<- | []]. apply (keyword_match_tight text kw m' Hkw E).
Qed.

Lemma rawSection_setRawSkills (P : ResumeData) (c : jsstring)
  (v : list jsstring) (k : SectionKind) :
  rawSection (set_skills_or_tech_stack v (setRawSkills c P)) k =
    if SectionKind_eqb Skills k then Some c else rawSection P k.
Proof.
  unfold rawSection, setRawSkills. simpl.
  destruct k; simpl; try reflexivity; destruct (_raw_sections P); reflexivity.
Qed.

Lemma skillsFallback_tight (text : jsstring) (P : ResumeData) :
  (forall k v, rawSection P k = Some v -> tight v = true) ->
  forall k v, rawSection (skillsFallback text P) k = Some v -> tight v = true.
Proof.
  intros HP k v. unfold skillsFallback.
  destruct (fallbackRuns P); [|apply HP].
  destruct (skillsStartIndex _) as [i|].
  - destruct (collectSkillsLines _ _) as [|l0 ls] eqn:E; [apply HP|].
    rewrite rawSection_setRawSkills.
    destruct (SectionKind_eqb Skills k); [|apply HP].
    intros H. injection H as <-.
    change (tight (join nl (l0 :: ls)) = true).
    apply tight_join_list; [discriminate|].
    rewrite <- E. apply collectSkillsLines_tight. constructor.
  - destruct (keywordSweep text) as [|m0 ms] eqn:E; [apply HP|].
    rewrite rawSection_setRawSkills.
    destruct (SectionKind_eqb Skills k); [|apply HP].
    intros H. injection H as <-.
    change (tight (join (str ", ") (m0 :: ms)) = true).
    apply tight_join_list; [discriminate|].
    rewrite <- E. apply keywordSweep_tight.
Qed.

Lemma parse_tight (text : jsstring) (k : SectionKind) (v : jsstring) :
  rawSection (parseResumeTextFallback text) k = Some v -> tight v = true.
Proof.
  unfold parseResumeTextFallback. apply skillsFallback_tight.
  intros k' v'. apply segment_tight.
Qed.

Lemma answer_rawPresent (parsed : ResumeData) (q : jsstring)
  (i : Intent) (k : SectionKind) :
  intentOf q = Some i ->
  intentSection i = Some k ->
  rawPresent (rawSection parsed k) = true ->
  answerFromParsedDeterministic parsed q = trim (orEmpty (rawSection parsed k)).
Proof.
  intros Hq Hk Hp.
  unfold intentOf in Hq. unfold answerFromParsedDeterministic.
  destruct (isSkillQuery q);
    [injection Hq as <-; injection Hk as <-; rewrite Hp; reflexivity|].
  destruct (isExperienceQuery q);
    [injection Hq as <-; injection Hk as <-; rewrite Hp; reflexivity|].
  destruct (isEducationQuery q);
    [injection Hq as <-; injection Hk as <-; rewrite Hp; reflexivity|].
  destruct (isProjectsQuery q);
    [injection Hq as <-; injection Hk as <-; rewrite Hp; reflexivity|].
  destruct (isCertificationsQuery q);
    [injection Hq as <-; injection Hk as <-; rewrite Hp; reflexivity|].
  destruct (isContactQuery q); [injection Hq as <-; discriminate Hk|].
  destruct (isSummaryQuery q);
    [injection Hq as <-; injection Hk as <-; rewrite Hp; reflexivity|].
  destruct (isLanguagesQuery q);
    [injection Hq as <-; injection Hk as <-; rewrite Hp; reflexivity|].
  discriminate Hq.
Qed.

Lemma tight_rawPresent (v : jsstring) :
  tight v = true -> rawPresent (Some v) = true /\ trim (orEmpty (Some v)) = v.
Proof.
  intros H. rewrite orEmpty_Some. split; [|apply tight_trim_id; exact H].
  apply rawPresent_trim. rewrite (tight_trim_id v H). apply tight_nonempty. exact H.
Qed.

Lemma tight_rawBlank (v : jsstring) : tight v = true -> rawBlank (Some v) = false.
Proof.
  intros H. unfold rawBlank. rewrite orEmpty_Some, (tight_trim_id v H).
  destruct v; [discriminate H | reflexivity].
Qed.

(** X1: whatever the document, a raw section that the parser stores is never
    empty and carries no white space at its ends: trimming it changes
    nothing. *)
Theorem raw_sections_are_trimmed (text : jsstring) (k : SectionKind) (v : jsstring) :
  rawSection (parseResumeTextFallback text) k = Some v ->
  isEmpty v = false /\ trim v = v.
Proof.
  intros H. apply parse_tight in H. split; [|apply tight_trim_id; exact H].
  destruct v; [discriminate H | reflexivity].
Qed.

Lemma raw_sections_are_trimmed_witness :
  isEmpty (unlines ["Python, Go"; "SQL"]%string) = false
  /\ trim (unlines ["Python, Go"; "SQL"]%string) = unlines ["Python, Go"; "SQL"]%string.
Proof.
  apply (raw_sections_are_trimmed sampleResume Skills).
  vm_compute. reflexivity.
Defined.

(** X2: parser and responder together.  When the parse of a document holds a
    raw section and a query maps to the intent of that section, the
    deterministic answer is exactly the stored raw text. *)
Theorem answer_is_stored_raw_text (text q : jsstring) (i : Intent)
  (k : SectionKind) (v : jsstring) :
  intentOf q = Some i ->
  intentSection i = Some k ->
  rawSection (parseResumeTextFallback text) k = Some v ->
  answerFromParsedDeterministic (parseResumeTextFallback text) q = v.
Proof.
  intros Hq Hk Hv.
  destruct (tight_rawPresent v (parse_tight text k v Hv)) as [Hp Ht].
  rewrite (answer_rawPresent _ q i k Hq Hk); rewrite Hv; assumption.
Qed.

Lemma answer_is_stored_raw_text_witness :
  answerFromParsedDeterministic (parseResumeTextFallback sampleResume)
    (str "what skills does she have")
  = unlines ["Python, Go"; "SQL"]%string.
Proof.
  apply (answer_is_stored_raw_text sampleResume (str "what skills does she have")
           ISkills Skills).
  - vm_compute. reflexivity.
  - reflexivity.
  - vm_compute. reflexivity.
Defined.

(** X3: a skills section found by the segmentation is never overridden:
    when the segmentation has stored raw skills text, the fallback leaves the
    whole record as it is. *)
Theorem fallback_keeps_detected_skills (text v : jsstring) :
  rawSection (segment text) Skills = Some v ->
  parseResumeTextFallback text = segment text.
Proof.
  intros H. unfold parseResumeTextFallback, skillsFallback, fallbackRuns.
  rewrite H, (tight_rawBlank v (segment_tight text Skills v H)).
  rewrite andb_false_r. reflexivity.
Qed.

Lemma fallback_keeps_detected_skills_witness :
  parseResumeTextFallback sampleResume = segment sampleResume.
Proof.
  apply (fallback_keeps_detected_skills sampleResume
           (unlines ["Python, Go"; "SQL"]%string)).
  vm_compute. reflexivity.
Defined.

(** ** Sections without a header *)

Lemma contactStep_shape (line : jsstring) (P : ResumeData) :
  contactStep line P = P
  \/ exists ci, contactStep line P = set_contact_information ci P.
Proof.
  unfold contactStep. destruct (contact_information P); [right | left; reflexivity].
  eexists. reflexivity.
Qed.

Lemma nameStep_shape (line lower : jsstring) (P : ResumeData) :
  nameStep line lower P = P
  \/ exists ci, nameStep line lower P = set_contact_information ci P.
Proof.
  unfold nameStep. destruct (contact_information P); [|left; reflexivity].
  destruct (_ && _); [right | left; reflexivity].
  eexists. reflexivity.
Qed.

Lemma contactUpdated_shape (i : nat) (line : jsstring) (P : ResumeData) :
  contactUpdated i line P = P
  \/ exists ci, contactUpdated i line P = set_contact_information ci P.
Proof.
  unfold contactUpdated.
  assert (H1 : (if (i <? 5)%nat then contactStep line P else P) = P
               \/ exists ci, (if (i <? 5)%nat then contactStep line P else P)
                              = set_contact_information ci P).
  { destruct (i <? 5)%nat; [apply contactStep_shape | left; reflexivity]. }
  destruct (i =? 0)%nat; [|exact H1].
  destruct (nameStep_shape line (toLowerCase line)
              (if (i <? 5)%nat then contactStep line P else P)) as [-> | [ci ->]];
    [exact H1|].
  right. exists ci. destruct H1 as [-> | [ci' ->]]; reflexivity.
Qed.

Lemma sectionEmpty_contactUpdated i line k P :
  sectionEmpty k P -> sectionEmpty k (contactUpdated i line P).
Proof.
  unfold sectionEmpty. rewrite rawSection_contactUpdated.
  intros [Hr Hs]. split; [exact Hr|].
  destruct (contactUpdated_shape i line P) as [-> | [ci ->]]; [exact Hs|].
  destruct k; exact Hs.
Qed.

Lemma sectionEmpty_process (k : SectionKind) (P : ResumeData)
  (sec : option SectionKind) (buf : list jsstring) :
  sec <> Some k -> sectionEmpty k P -> sectionEmpty k (processSectionBuffer P sec buf).
Proof.
  unfold sectionEmpty. intros Hsec [Hr Hs]. rewrite rawSection_process.
  destruct sec as [s|].
  - rewrite SectionKind_eqb_neq by congruence. split; [exact Hr|].
    destruct s, k; try exact Hs; contradiction Hsec; reflexivity.
  - split; [exact Hr|]. destruct k; exact Hs.
Qed.

Lemma sectionEmpty_flushBuffer (k : SectionKind) (st : ScanState) :
  currentSection st <> Some k ->
  sectionEmpty k (parsed st) -> sectionEmpty k (flushBuffer st).
Proof.
  intros Hc H. unfold flushBuffer. destruct (buffer st); [exact H|].
  apply sectionEmpty_process; assumption.
Qed.

Lemma scan_sectionEmpty (k : SectionKind) (rraws : list jsstring) :
  Forall (fun r => trim r <> [] /\ headerKind (trim r) <> Some k) rraws ->
  forall i st,
    currentSection st <> Some k ->
    sectionEmpty k (parsed st) ->
    currentSection (scanLines i rraws st) <> Some k
    /\ sectionEmpty k (parsed (scanLines i rraws st)).
Proof.
  induction 1 as [|r rraws [Hne Hk] _ IH]; intros i st Hcur Hemp.
  - cbn [scanLines]. split; assumption.
  - cbn [scanLines].
    rewrite (lineStep_cases i r st Hne). cbv zeta.
    destruct (headerKind (trim r)) as [k'|] eqn:E; apply IH;
      cbn [parsed currentSection buffer]; try assumption.
    + apply sectionEmpty_flushBuffer; cbn [parsed currentSection];
        [exact Hcur | apply sectionEmpty_contactUpdated; exact Hemp].
    + apply sectionEmpty_contactUpdated; exact Hemp.
Qed.

Lemma segment_sectionEmpty (text : jsstring) (k : SectionKind) :
  Forall (fun l => headerKind l <> Some k) (docLines text) ->
  sectionEmpty k (segment text).
Proof.
  intros H. unfold docLines in H. rewrite Forall_map in H.
  assert (Hb : Forall (fun r => trim r <> [] /\ headerKind (trim r) <> Some k)
                 (nonBlankLines text)).
  { pose proof (nonBlankLines_nonblank text) as Hnb.
    rewrite Forall_forall in *. intros r Hr. split; auto. }
  unfold segment.
  destruct (scan_sectionEmpty k (nonBlankLines text) Hb 0
              (Build_ScanState initialParsed None [])) as [Hc He].
  - discriminate.
  - split; [reflexivity|]. destruct k; reflexivity.
  - apply sectionEmpty_flushBuffer; assumption.
Qed.

Lemma sectionEmpty_skillsFallback (text : jsstring) (k : SectionKind) (P : ResumeData) :
  k <> Skills -> sectionEmpty k P -> sectionEmpty k (skillsFallback text P).
Proof.
  intros Hk [Hr Hs]. split.
  - rewrite rawSection_skillsFallback; [exact Hr | left; exact Hk].
  - unfold skillsFallback. destruct (fallbackRuns P); [|exact Hs].
    destruct (skillsStartIndex _).
    + destruct (collectSkillsLines _ _); [exact Hs|].
      destruct k; try exact Hs. contradiction Hk; reflexivity.
    + destruct (keywordSweep text); [exact Hs|].
      destruct k; try exact Hs. contradiction Hk; reflexivity.
Qed.

(** X4: a section that no line is made a header of gets nothing: neither
    raw text nor structured data, in the segmentation and, for every section
    but skills (which the fallback may fill), in the final parse. *)
Theorem undetected_section_stays_empty (text : jsstring) (k : SectionKind) :
  Forall (fun l => headerKind l <> Some k) (docLines text) ->
  sectionEmpty k (segment text)
  /\ (k <> Skills -> sectionEmpty k (parseResumeTextFallback text)).
Proof.
  intros H. pose proof (segment_sectionEmpty text k H) as Hs.
  split; [exact Hs|]. intros Hk.
  apply sectionEmpty_skillsFallback; assumption.
Qed.

Lemma undetected_section_stays_empty_witness :
  sectionEmpty Education (segment sampleResume)
  /\ (Education <> Skills ->
      sectionEmpty Education (parseResumeTextFallback sampleResume)).
Proof.
  apply (undetected_section_stays_empty sampleResume Education).
  repeat constructor; vm_compute; discriminate.
Defined.

(** ** Invariants of the segmentation *)

Section ScanInvariant.

Variable Q : ResumeData -> Prop.

Hypothesis Q_contact : forall ci P, Q P -> Q (set_contact_information ci P).

Hypothesis Q_process :
  forall P sec buf,
    buf <> [] -> Forall (fun l => tight l = true) buf ->
    Q P -> Q (processSectionBuffer P sec buf).

Lemma Q_contactUpdated i line P : Q P -> Q (contactUpdated i line P).
Proof.
  intros H. destruct (contactUpdated_shape i line P) as [-> | [ci ->]];
    [exact H | apply Q_contact; exact H].
Qed.

Lemma Q_flushBuffer (st : ScanState) :
  tightState st -> Q (parsed st) -> Q (flushBuffer st).
Proof.
  intros [Hb _] H. unfold flushBuffer.
  destruct (buffer st) eqn:E; [exact H|].
  apply Q_process; [discriminate | exact Hb | exact H].
Qed.

Lemma Q_lineStep (i : nat) (r : jsstring) (st : ScanState) :
  trim r <> [] -> tightState st -> Q (parsed st) -> Q (parsed (lineStep i r st)).
Proof.
  intros Hne Hst H. rewrite (lineStep_cases i r st Hne). cbv zeta.
  destruct (headerKind (trim r)); cbn [parsed].
  - apply Q_flushBuffer; cbn [parsed]; [|apply Q_contactUpdated; exact H].
    destruct Hst as [Hb Hr]. split; [exact Hb|].
    intros k v. cbn [parsed]. rewrite rawSection_contactUpdated. apply Hr.
  - apply Q_contactUpdated. exact H.
Qed.

Lemma Q_scanLines (lines : list jsstring) :
  Forall (fun r => trim r <> []) lines ->
  forall i st,
    tightState st -> Q (parsed st) -> Q (parsed (scanLines i lines st)).
Proof.
  induction 1 as [|r lines Hr _ IH]; intros i st Hst H; cbn [scanLines].
  - exact H.
  - apply IH; [apply lineStep_tight | apply Q_lineStep]; assumption.
Qed.

Lemma Q_segment (text : jsstring) : Q initialParsed -> Q (segment text).
Proof.
  intros H0. unfold segment.
  assert (Hinit : tightState (Build_ScanState initialParsed None [])).
  { split; [constructor|]. intros k v. destruct k; discriminate. }
  apply Q_flushBuffer.
  - apply scanLines_tight; [apply nonBlankLines_nonblank | exact Hinit].
  - apply Q_scanLines; [apply nonBlankLines_nonblank | exact Hinit | exact H0].
Qed.

End ScanInvariant.

(** ** The skills list has no duplicates *)

Lemma NoDup_extractSkills (lines : list jsstring) : NoDup (extractSkills lines).
Proof.
  unfold extractSkills. destruct (_ <? 3)%nat.
  - rewrite setFromList_dedupFirst. apply NoDup_dedupFirst.
  - rewrite strictPass_tokens. apply NoDup_dedupFirst.
Qed.

Lemma NoDup_flat_map_option (g : jsstring -> option jsstring) (l : list jsstring) :
  NoDup l ->
  (forall x y m, In x l -> In y l -> g x = Some m -> g y = Some m -> x = y) ->
  NoDup (flat_map (fun x => match g x with Some m => [m] | None => [] end) l).
Proof.
  induction 1 as [|x l Hx Hnd IH]; intros Hinj; simpl; [constructor|].
  assert (IH' : NoDup (flat_map (fun x => match g x with Some m => [m] | None => [] end) l)).
  { apply IH. intros a b m Ha Hb. apply Hinj; right; assumption. }
  destruct (g x) as [m|] eqn:E; [|exact IH'].
  simpl. constructor; [|exact IH'].
  intros Hin. apply in_flat_map in Hin as (y & Hy & Hm).
  destruct (g y) as [m'|] eqn:E'; [|destruct Hm].
  destruct Hm as [<- | []].
  assert (x = y) by (apply (Hinj x y m'); simpl; auto).
  subst y. contradiction.
Qed.

Lemma sweepKeywords_distinct :
  NoDup sweepKeywords
  /\ forall x y,
       In x sweepKeywords -> In y sweepKeywords ->
       map canonUnit x = map canonUnit y -> x = y.
Proof.
  assert (H : NoDup (map (map canonUnit) sweepKeywords)).
  { replace (map (map canonUnit) sweepKeywords)
      with (dedupFirst (map (map canonUnit) sweepKeywords))
      by (vm_compute; reflexivity).
    apply NoDup_dedupFirst. }
  split; [apply (NoDup_map_inv _ _ H)|].
  revert H. generalize sweepKeywords as l.
  induction l as [|a l IH]; intros H x y Hx Hy Heq; [destruct Hx|].
  simpl in H. apply NoDup_cons_iff in H as [Ha H].
  destruct Hx as [<- | Hx]; destruct Hy as [<- | Hy].
  - reflexivity.
  - exfalso. apply Ha. rewrite Heq. apply in_map. exact Hy.
  - exfalso. apply Ha. rewrite <- Heq. apply in_map. exact Hx.
  - apply IH; assumption.
Qed.

Lemma NoDup_keywordSweep (text : jsstring) : NoDup (keywordSweep text).
Proof.
  rewrite keywordSweep_flat_map.
  destruct sweepKeywords_distinct as [Hnd Hinj].
  apply (NoDup_flat_map_option (fun kw => regexMatch (keywordRegex kw) text));
    [exact Hnd|].
  intros x y m Hx Hy Hmx Hmy.
  destruct (keyword_match_occurrence x text m Hmx) as (_ & _ & _ & Hsx & _).
  destruct (keyword_match_occurrence y text m Hmy) as (_ & _ & _ & Hsy & _).
  apply Hinj; try assumption.
  unfold sameLettersCI in *. congruence.
Qed.

Lemma skills_process_NoDup (P : ResumeData) (sec : option SectionKind)
  (buf : list jsstring) :
  NoDup (orNil (skills_or_tech_stack P)) ->
  NoDup (orNil (skills_or_tech_stack (processSectionBuffer P sec buf))).
Proof.
  intros H. unfold processSectionBuffer.
  destruct sec as [[]|]; cbn; try exact H. apply NoDup_extractSkills.
Qed.

(** X5: for every document the skills list of the parse has no duplicates
    (exact string equality), whether it comes from a skills section, from
    the loose header search or from the keyword sweep. *)
Theorem parsed_skills_have_no_duplicates (text : jsstring) :
  NoDup (orNil (skills_or_tech_stack (parseResumeTextFallback text))).
Proof.
  assert (Hseg : NoDup (orNil (skills_or_tech_stack (segment text)))).
  { apply (Q_segment (fun P => NoDup (orNil (skills_or_tech_stack P)))).
    - intros ci P H. exact H.
    - intros P sec buf _ _. apply skills_process_NoDup.
    - constructor. }
  unfold parseResumeTextFallback, skillsFallback.
  destruct (fallbackRuns (segment text)); [|exact Hseg].
  destruct (skillsStartIndex _).
  - destruct (collectSkillsLines _ _); [exact Hseg|].
    cbn. apply NoDup_extractSkills.
  - destruct (keywordSweep text) eqn:E; [exact Hseg|].
    cbn. rewrite <- E. apply NoDup_keywordSweep.
Qed.

(** ** Which lines are headers *)

Lemma startsWith_refl (s : jsstring) : startsWith s s = true.
Proof. induction s as [|c s IH]; simpl; [reflexivity|]. rewrite N.eqb_refl. exact IH. Qed.

Lemma startsWith_app (a b : jsstring) :
  forall s, startsWith s (a ++ b) = true -> startsWith s a = true.
Proof.
  induction a as [|x a IH]; intros s H; [destruct s; reflexivity|].
  destruct s as [|c s]; [discriminate H|].
  simpl in *. apply andb_true_iff in H as [Hx H].
  rewrite Hx. simpl. apply IH. exact H.
Qed.

Lemma startsWith_includes (s p : jsstring) :
  startsWith s p = true -> includes s p = true.
Proof. intros H. destruct s; cbn [includes]; rewrite H; reflexivity. Qed.

Lemma isHeader_includes (keywords : list jsstring) (line lowerLine : jsstring) :
  isHeader keywords line lowerLine = true ->
  exists keyword, In keyword keywords /\ includes lowerLine keyword = true.
Proof.
  unfold isHeader. intros H. apply existsb_exists in H as (kw & Hin & H).
  exists kw. split; [exact Hin|].
  repeat (apply orb_true_iff in H as [H | H]).
  - apply streq_eq in H. subst. apply startsWith_includes, startsWith_refl.
  - apply streq_eq in H. subst.
    apply startsWith_includes, (startsWith_app kw (str ":")), startsWith_refl.
  - apply startsWith_includes, (startsWith_app kw (str ":")). exact H.
  - apply startsWith_includes, (startsWith_app kw (str " -")). exact H.
  - apply startsWith_includes, (startsWith_app kw (str " ")). exact H.
  - apply andb_true_iff in H as [H _]. exact H.
Qed.

Lemma headerKind_isHeader (line : jsstring) (k : SectionKind) :
  headerKind line = Some k ->
  isHeader (sectionKeywords k) line (toLowerCase line) = true.
Proof.
  unfold headerKind. cbn [fold_left sectionOrder].
  destruct (isHeader (sectionKeywords Objective) line (toLowerCase line)) eqn:E1;
  destruct (isHeader (sectionKeywords Skills) line (toLowerCase line)) eqn:E2;
  destruct (isHeader (sectionKeywords Education) line (toLowerCase line)) eqn:E3;
  destruct (isHeader (sectionKeywords Experience) line (toLowerCase line)) eqn:E4;
  destruct (isHeader (sectionKeywords Projects) line (toLowerCase line)) eqn:E5;
  destruct (isHeader (sectionKeywords Certifications) line (toLowerCase line)) eqn:E6;
  destruct (isHeader (sectionKeywords Languages) line (toLowerCase line)) eqn:E7;
    intros H; try discriminate H; injection H as <-; assumption.
Qed.

Lemma isHeader_headerKind (line : jsstring) (s : SectionKind) :
  isHeader (sectionKeywords s) line (toLowerCase line) = true ->
  exists k, headerKind line = Some k.
Proof.
  intros H. unfold headerKind. cbn [fold_left sectionOrder].
  destruct (isHeader (sectionKeywords Languages) line (toLowerCase line)) eqn:E7;
    [eexists; reflexivity|].
  destruct (isHeader (sectionKeywords Certifications) line (toLowerCase line)) eqn:E6;
    [eexists; reflexivity|].
  destruct (isHeader (sectionKeywords Projects) line (toLowerCase line)) eqn:E5;
    [eexists; reflexivity|].
  destruct (isHeader (sectionKeywords Experience) line (toLowerCase line)) eqn:E4;
    [eexists; reflexivity|].
  destruct (isHeader (sectionKeywords Education) line (toLowerCase line)) eqn:E3;
    [eexists; reflexivity|].
  destruct (isHeader (sectionKeywords Skills) line (toLowerCase line)) eqn:E2;
    [eexists; reflexivity|].
  destruct (isHeader (sectionKeywords Objective) line (toLowerCase line)) eqn:E1;
    [eexists; reflexivity|].
  destruct s; congruence.
Qed.

Lemma no_keyword_no_header (line : jsstring) :
  containsKeyword line = false -> headerKind line = None.
Proof.
  intros H. destruct (headerKind line) as [k|] eqn:E; [|reflexivity].
  apply headerKind_isHeader, isHeader_includes in E as (kw & Hin & Hinc).
  unfold containsKeyword in H.
  assert (Hex : existsb (fun keyword => includes (toLowerCase line) keyword)
                  (flat_map sectionKeywords sectionOrder) = true).
  { apply existsb_exists. exists kw. split; [|exact Hinc].
    apply in_flat_map. exists k. split; [destruct k; simpl; tauto | exact Hin]. }
  rewrite Hex in H. discriminate H.
Qed.

(** X6: a line is made a header of a section only if, in lower case, it
    contains one of that section's trigger phrases. *)
Theorem header_contains_trigger_phrase (line : jsstring) (k : SectionKind) :
  headerKind line = Some k ->
  exists keyword,
    In keyword (sectionKeywords k)
    /\ includes (toLowerCase line) keyword = true.
Proof.
  intros H. apply isHeader_includes with (line := line).
  apply headerKind_isHeader. exact H.
Qed.

Lemma header_contains_trigger_phrase_witness :
  exists keyword,
    In keyword (sectionKeywords Experience)
    /\ includes (toLowerCase (str "WORK EXPERIENCE:")) keyword = true.
Proof.
  apply (header_contains_trigger_phrase (str "WORK EXPERIENCE:") Experience).
  vm_compute. reflexivity.
Defined.

(** ** The name *)

Lemma parsedName_set_other (P : ResumeData) (ci ci' : ContactInfo) :
  contact_information P = Some ci ->
  name ci' = name ci ->
  parsedName (set_contact_information ci' P) = parsedName P.
Proof.
  intros H Hn. unfold parsedName. cbn. rewrite H, Hn. reflexivity.
Qed.

Lemma parsedName_contactStep (line : jsstring) (P : ResumeData) :
  parsedName (contactStep line P) = parsedName P.
Proof.
  unfold contactStep. destruct (contact_information P) as [ci|] eqn:E;
    [|reflexivity].
  apply (parsedName_set_other P ci); [exact E|].
  destruct (regexMatch emailRegex line); destruct (regexMatch phoneRegex line);
    destruct (regexMatch linkedinRegex line);
    repeat match goal with
           | |- context [if ?b then _ else _] => destruct b
           end; reflexivity.
Qed.

Lemma parsedName_process (P : ResumeData) (sec : option SectionKind)
  (buf : list jsstring) :
  parsedName (processSectionBuffer P sec buf) = parsedName P.
Proof. destruct sec as [[]|]; reflexivity. Qed.

Lemma parsedName_flushBuffer (st : ScanState) :
  parsedName (flushBuffer st) = parsedName (parsed st).
Proof.
  unfold flushBuffer. destruct (buffer st); [reflexivity|].
  apply parsedName_process.
Qed.

Lemma lineStep_blank (i : nat) (r : jsstring) (st : ScanState) :
  trim r = [] -> lineStep i r st = st.
Proof. intros H. unfold lineStep. rewrite H. reflexivity. Qed.

Lemma parsedName_lineStep (i : nat) (r : jsstring) (st : ScanState) :
  parsedName (parsed (lineStep i r st)) =
    parsedName (if (i =? 0)%nat && negb (isEmpty (trim r))
                then nameStep (trim r) (toLowerCase (trim r))
                       (contactStep (trim r) (parsed st))
                else parsed st).
Proof.
  destruct (trim r) as [|c t] eqn:E.
  - rewrite (lineStep_blank i r st E). rewrite andb_false_r. reflexivity.
  - assert (Hne : trim r <> []) by (rewrite E; discriminate).
    rewrite (lineStep_cases i r st Hne). cbv zeta. rewrite E.
    cbn [isEmpty negb]. rewrite andb_true_r.
    assert (Hc : parsedName (contactUpdated i (c :: t) (parsed st)) =
                 parsedName (if (i =? 0)%nat
                             then nameStep (c :: t) (toLowerCase (c :: t))
                                    (contactStep (c :: t) (parsed st))
                             else parsed st)).
    { unfold contactUpdated. destruct (i =? 0)%nat eqn:Ei.
      - apply Nat.eqb_eq in Ei. subst i. reflexivity.
      - destruct (i <? 5)%nat; [apply parsedName_contactStep | reflexivity]. }
    destruct (headerKind (c :: t)); cbn [parsed];
      [rewrite parsedName_flushBuffer; cbn [parsed]|]; exact Hc.
Qed.

Lemma parsedName_scanLines (lines : list jsstring) :
  forall i st,
    (1 <= i)%nat ->
    parsedName (parsed (scanLines i lines st)) = parsedName (parsed st).
Proof.
  induction lines as [|r lines IH]; intros i st Hi; cbn [scanLines];
    [reflexivity|].
  rewrite IH by lia. rewrite (parsedName_lineStep i r st).
  replace (i =? 0)%nat with false by (symmetry; apply Nat.eqb_neq; lia).
  reflexivity.
Qed.

Lemma parsedName_skillsFallback (text : jsstring) (P : ResumeData) :
  parsedName (skillsFallback text P) = parsedName P.
Proof.
  unfold skillsFallback. destruct (fallbackRuns P); [|reflexivity].
  destruct (skillsStartIndex _).
  - destruct (collectSkillsLines _ _); reflexivity.
  - destruct (keywordSweep text); reflexivity.
Qed.

(** X8: the name of the parse is decided by the first non-blank line alone:
    it is that line, trimmed, unless the line contains a trigger phrase of
    some section in lower case, in which case the name stays empty; no later
    line changes it.  A line taken as the name is never a section header. *)
Theorem parsed_name_is_first_line (text : jsstring) :
  parsedName (parseResumeTextFallback text) =
    match docLines text with
    | [] => []
    | l0 :: _ => if containsKeyword l0 then [] else l0
    end
  /\ (isEmpty (parsedName (parseResumeTextFallback text)) = false ->
      headerKind (parsedName (parseResumeTextFallback text)) = None).
Proof.
  assert (Hname : parsedName (parseResumeTextFallback text) =
                    match docLines text with
                    | [] => []
                    | l0 :: _ => if containsKeyword l0 then [] else l0
                    end);
    [|split; [exact Hname|]; rewrite Hname;
      destruct (docLines text) as [|l0 ?]; [discriminate|];
      destruct (containsKeyword l0) eqn:Ek; [discriminate|];
      intros _; apply no_keyword_no_header; exact Ek].
  unfold parseResumeTextFallback, segment, docLines.
  rewrite parsedName_skillsFallback, parsedName_flushBuffer.
  destruct (nonBlankLines text) as [|r rest] eqn:E; [reflexivity|].
  cbn [scanLines map]. rewrite parsedName_scanLines by lia.
  rewrite (parsedName_lineStep 0 r _). cbn [parsed Nat.eqb andb].
  pose proof (nonBlankLines_nonblank text) as Hnb. rewrite E in Hnb.
  apply Forall_cons_iff in Hnb as [Hr _].
  destruct (trim r) as [|c t] eqn:Et; [contradiction Hr; reflexivity|].
  cbn [isEmpty negb].
  unfold nameStep.
  assert (Hc : exists ci,
             contact_information (contactStep (c :: t) initialParsed) = Some ci
             /\ name ci = Some []).
  { unfold contactStep. cbn [contact_information initialParsed].
    eexists. split; [reflexivity|].
    destruct (regexMatch emailRegex (c :: t));
      destruct (regexMatch phoneRegex (c :: t));
      destruct (regexMatch linkedinRegex (c :: t)); reflexivity. }
  destruct Hc as (ci & Hci & Hn). rewrite Hci, Hn. cbn [truthy negb andb].
  unfold containsKeyword.
  destruct (existsb _ _); cbn [negb].
  - unfold parsedName. rewrite Hci, Hn. reflexivity.
  - reflexivity.
Qed.

(** ** Blank documents *)

Lemma splitOn_all (p : codeunit -> bool) (sep : codeunit -> bool) (s : jsstring) :
  forallb p s = true ->
  Forall (fun l => forallb p l = true) (splitOn sep s).
Proof.
  induction s as [|c s IH]; intros H; cbn [splitOn].
  - repeat constructor.
  - simpl in H. apply andb_true_iff in H as [Hc H]. specialize (IH H).
    destruct (splitOn sep s) as [|cur rest]; [repeat constructor|].
    apply Forall_cons_iff in IH as [Hcur Hrest].
    destruct (sep c).
    + constructor; [reflexivity|]. constructor; assumption.
    + constructor; [|assumption]. simpl. rewrite Hc. exact Hcur.
Qed.

Lemma dropWhile_all (p : codeunit -> bool) (s : jsstring) :
  forallb p s = true -> dropWhile p s = [].
Proof.
  induction s as [|c s IH]; simpl; intros H; [reflexivity|].
  apply andb_true_iff in H as [Hc H]. rewrite Hc. apply IH. exact H.
Qed.

Lemma trim_all_space (s : jsstring) : forallb isSpace s = true -> trim s = [].
Proof.
  intros H. unfold trim, trimStart. rewrite (dropWhile_all isSpace s H). reflexivity.
Qed.

Lemma codePoints_units (s : jsstring) :
  forallb (fun c => negb (isLeadSurrogate c)) s = true -> codePoints s = s.
Proof.
  induction s as [|c s IH]; [reflexivity|]. intros H.
  apply andb_true_iff in H as [Hc H]. specialize (IH H).
  destruct s as [|d s]; [reflexivity|].
  change (codePoints (c :: d :: s))
    with (if isLeadSurrogate c && isTrailSurrogate d
          then (65536 + (c - 55296) * 1024 + (d - 56320))%N :: codePoints s
          else c :: codePoints (d :: s)).
  apply negb_true_iff in Hc. rewrite Hc, IH. reflexivity.
Qed.

Lemma unchangedUnit_spec (c : codeunit) :
  unchangedUnit c = true ->
  N.ltb c 65536 = true /\ isLeadSurrogate c = false
  /\ N.eqb c 931 = false /\ N.eqb c 304 = false
  /\ lowerSimple c = c.
Proof.
  unfold unchangedUnit. intros H.
  apply andb_true_iff in H as [H H5]. apply andb_true_iff in H as [H H4].
  apply andb_true_iff in H as [H H3]. apply andb_true_iff in H as [H1 H2].
  apply negb_true_iff in H2, H3, H4. apply N.eqb_eq in H5. auto.
Qed.

Lemma lowerFrom_unchanged (s : list N) :
  forall before, forallb unchangedUnit s = true -> lowerFrom before s = s.
Proof.
  induction s as [|c s IH]; intros before H; [reflexivity|].
  apply andb_true_iff in H as [Hc H].
  destruct (unchangedUnit_spec c Hc) as (_ & _ & H1 & H2 & H3).
  cbn [lowerFrom]. unfold lowerCodePoint. rewrite H1, H2, H3.
  cbn [app]. rewrite (IH (c :: before) H). reflexivity.
Qed.

Lemma codeUnits_units (s : list N) :
  forallb (fun c => N.ltb c 65536) s = true -> flat_map codeUnits s = s.
Proof.
  induction s as [|c s IH]; [reflexivity|]. intros H.
  apply andb_true_iff in H as [Hc H]. cbn [flat_map]. rewrite (IH H).
  unfold codeUnits. rewrite Hc. reflexivity.
Qed.

(** Lower-casing leaves a string of unchanged code units as it is. *)
Lemma toLowerCase_unchanged (s : jsstring) :
  forallb unchangedUnit s = true -> toLowerCase s = s.
Proof.
  intros H.
  assert (Hu : forallb (fun c => N.ltb c 65536) s = true
               /\ forallb (fun c => negb (isLeadSurrogate c)) s = true).
  { rewrite !forallb_forall in *. split; intros c Hc;
      destruct (unchangedUnit_spec c (H c Hc)) as (A & B & _);
      [exact A | rewrite B; reflexivity]. }
  destruct Hu as [Hu Hl].
  unfold toLowerCase. rewrite (codePoints_units s Hl).
  rewrite (lowerFrom_unchanged s [] H). apply (codeUnits_units s Hu).
Qed.

Lemma inRange_In (lo hi c : N) :
  inRange lo hi c = true ->
  In c (map (fun i => (lo + N.of_nat i)%N) (seq 0 (S (N.to_nat (hi - lo))))).
Proof.
  unfold inRange. intros H. apply andb_true_iff in H as [A B].
  apply N.leb_le in A, B. apply in_map_iff.
  exists (N.to_nat (c - lo)). split; [rewrite N2Nat.id; lia|].
  apply in_seq. lia.
Qed.

Lemma space_unchanged (c : codeunit) : isSpace c = true -> unchangedUnit c = true.
Proof.
  unfold isSpace. intros H.
  repeat (apply orb_true_iff in H; destruct H as [H | H]);
    try (apply N.eqb_eq in H; subst c; vm_compute; reflexivity);
    apply inRange_In in H;
    match type of H with
    | In _ ?l =>
        assert (F : forallb unchangedUnit l = true) by (vm_compute; reflexivity);
        rewrite forallb_forall in F; exact (F c H)
    end.
Qed.

Lemma toLowerCase_all_space (s : jsstring) :
  forallb isSpace s = true -> toLowerCase s = s.
Proof.
  intros H. apply toLowerCase_unchanged.
  rewrite forallb_forall in *. intros c Hc. apply space_unchanged. apply H. exact Hc.
Qed.

Lemma looseSkillsHeader_blank (l : jsstring) :
  forallb isSpace l = true -> looseSkillsHeader l = false.
Proof.
  intros H. unfold looseSkillsHeader.
  rewrite (toLowerCase_all_space l H), (trim_all_space l H). reflexivity.
Qed.

Lemma skillsStartIndex_blank (lines : list jsstring) :
  Forall (fun l => forallb isSpace l = true) lines ->
  skillsStartIndex lines = None.
Proof.
  induction 1 as [|l lines Hl _ IH]; cbn [skillsStartIndex]; [reflexivity|].
  rewrite (looseSkillsHeader_blank l Hl), IH. reflexivity.
Qed.

Lemma forallb_app_inv (p : codeunit -> bool) (a b : jsstring) :
  forallb p (a ++ b) = true -> forallb p a = true /\ forallb p b = true.
Proof. rewrite forallb_app. apply andb_true_iff. Qed.

Lemma keywordSweep_blank (text : jsstring) :
  forallb isSpace text = true -> keywordSweep text = [].
Proof.
  intros H. rewrite keywordSweep_flat_map.
  assert (Hnone : forall kw, In kw sweepKeywords ->
                    regexMatch (keywordRegex kw) text = None).
  { intros kw Hkw. destruct (regexMatch (keywordRegex kw) text) as [m|] eqn:E;
      [|reflexivity].
    pose proof (keyword_match_tight text kw m Hkw E) as Ht.
    destruct (keyword_match_occurrence kw text m E) as (pre & post & -> & _).
    apply forallb_app_inv in H as [_ H]. apply forallb_app_inv in H as [H _].
    destruct m as [|c m]; [discriminate Ht|].
    unfold tight in Ht. simpl in Ht, H.
    apply andb_true_iff in Ht as [Ht _]. apply andb_true_iff in H as [H _].
    rewrite H in Ht. discriminate Ht. }
  induction sweepKeywords as [|kw kws IH]; [reflexivity|].
  simpl. rewrite (Hnone kw) by (left; reflexivity).
  apply IH. intros kw' Hin. apply Hnone. right. exact Hin.
Qed.

(** X9: a document made of white space only (the empty document included)
    parses to the initial record: empty lists, an empty contact record, no
    raw section. *)
Theorem blank_document_parses_to_empty_record (text : jsstring) :
  forallb isSpace text = true ->
  parseResumeTextFallback text = initialParsed.
Proof.
  intros H.
  pose proof (splitOn_all isSpace (N.eqb cu_newline) text H) as Hlines.
  assert (Hseg : segment text = initialParsed).
  { unfold segment, nonBlankLines.
    replace (filter _ (splitOn (N.eqb cu_newline) text)) with (@nil jsstring);
      [reflexivity|].
    symmetry. induction Hlines as [|l ls Hl _ IH]; [reflexivity|].
    simpl. rewrite (trim_all_space l Hl). exact IH. }
  unfold parseResumeTextFallback. rewrite Hseg. unfold skillsFallback.
  cbn [fallbackRuns initialParsed]. 
  replace (fallbackRuns initialParsed) with true by reflexivity.
  rewrite (skillsStartIndex_blank _ Hlines), (keywordSweep_blank text H).
  reflexivity.
Qed.

Lemma blank_document_parses_to_empty_record_witness :
  parseResumeTextFallback blankDoc = initialParsed.
Proof.
  apply (blank_document_parses_to_empty_record blankDoc). reflexivity.
Defined.

(** ** The loose header search *)

Lemma find_first_nonblank (rest : list jsstring) (next : jsstring) :
  find (fun l => negb (isEmpty (trim l))) rest = Some next ->
  exists tl,
    filter (fun l => negb (isEmpty l)) (map trim rest) = trim next :: tl.
Proof.
  induction rest as [|r rest IH]; simpl; [discriminate|].
  destruct (isEmpty (trim r)) eqn:E; simpl.
  - exact IH.
  - intros H. injection H as <-. eexists. reflexivity.
Qed.

Lemma find_no_nonblank (rest : list jsstring) :
  find (fun l => negb (isEmpty (trim l))) rest = None ->
  filter (fun l => negb (isEmpty l)) (map trim rest) = [].
Proof.
  induction rest as [|r rest IH]; simpl; [reflexivity|].
  destruct (isEmpty (trim r)) eqn:E; simpl; [exact IH | discriminate].
Qed.

(** X10: the collecting loop of the loose header search gathers exactly the
    trimmed non-blank lines up to the first one that looks like another
    section; its look-ahead at blank lines never changes the result. *)
Theorem collectSkillsLines_takeWhile (rest acc : list jsstring) :
  collectSkillsLines rest acc =
    acc ++ takeWhile (fun l => negb (isNewSection l))
             (filter (fun l => negb (isEmpty l)) (map trim rest)).
Proof.
  revert acc. induction rest as [|r rest IH]; intros acc; cbn [collectSkillsLines].
  - simpl. rewrite app_nil_r. reflexivity.
  - cbn [map filter]. destruct (isEmpty (trim r)) eqn:E; cbn [negb].
    + destruct acc as [|a acc']; [apply IH|].
      destruct (find (fun l => negb (isEmpty (trim l))) rest) as [next|] eqn:F.
      * destruct (isNewSection (trim next)) eqn:N; [|apply IH].
        destruct (find_first_nonblank rest next F) as [tl ->].
        cbn [takeWhile]. rewrite N. cbn [negb]. rewrite app_nil_r. reflexivity.
      * apply IH.
    + cbn [takeWhile]. destruct (isNewSection (trim r)); cbn [negb].
      * rewrite app_nil_r. reflexivity.
      * rewrite IH, <- app_assoc. reflexivity.
Qed.

(** ** Experience entries *)

Lemma setProp_nonempty (o : StrObj) (k : string) (v : jsstring) :
  setProp o k v <> [].
Proof. destruct o as [|[k' v'] o]; simpl; [|destruct (String.eqb k k')]; discriminate. Qed.

Lemma allResponsibilities_app (a b : list ExperienceEntry) :
  allResponsibilities (a ++ b) = allResponsibilities a ++ allResponsibilities b.
Proof. apply flat_map_app. Qed.

Lemma experienceStep_inv (st : list ExperienceEntry * StrObj * list jsstring)
  (seen : list jsstring) (line : jsstring) :
  experienceInv st seen -> experienceInv (experienceStep st line) (seen ++ [line]).
Proof.
  destruct st as [[entries cur] resp]. unfold experienceInv, experienceStep.
  intros (H1 & H2 & H3).
  rewrite filter_app, map_app. cbn [filter]. unfold isBulletLine at 2.
  destruct (regexTest datePattern line) eqn:Ed; cbn [negb andb map].
  - rewrite app_nil_r. destruct cur as [|kv cur].
    + split; [exact H1|]. split; [discriminate|exact H3].
    + split.
      * rewrite allResponsibilities_app, app_nil_r. cbn. rewrite app_nil_r. exact H1.
      * split; [discriminate|]. apply Forall_app. split; [exact H3|].
        constructor; [|constructor]. cbn. split; [discriminate | eauto].
  - destruct (regexTest bulletRe line) eqn:Eb; cbn [map].
    + split; [rewrite app_assoc, H1; reflexivity|]. split; assumption.
    + rewrite app_nil_r.
      destruct (negb (truthy (prop cur "company")) && (2 <? length line)%nat);
        [split; [exact H1|]; split; [intros _; apply setProp_nonempty | exact H3]|].
      destruct (negb (truthy (prop cur "position")) && (2 <? length line)%nat);
        [split; [exact H1|]; split; [intros _; apply setProp_nonempty | exact H3]|].
      destruct (0 <? length (trim line))%nat;
        [split; [exact H1|]; split; [intros _; apply setProp_nonempty | exact H3]|].
      split; [exact H1|]. split; assumption.
Qed.

Lemma experience_fold_inv (lines : list jsstring) :
  forall st seen,
    experienceInv st seen ->
    experienceInv (fold_left experienceStep lines st) (seen ++ lines).
Proof.
  induction lines as [|l lines IH]; intros st seen H; cbn [fold_left].
  - rewrite app_nil_r. exact H.
  - replace (seen ++ l :: lines) with ((seen ++ [l]) ++ lines)
      by (rewrite <- app_assoc; reflexivity).
    apply IH. apply experienceStep_inv. exact H.
Qed.

(** X11: [extractExperience] loses no responsibility: unless no entry at all
    is produced, the responsibilities of the entries, taken in order, are
    exactly the bullet lines of the buffer with the marker stripped, none
    lost, repeated or reordered.  Every entry has at least one field and a
    responsibilities list. *)
Theorem extractExperience_keeps_responsibilities (lines : list jsstring) :
  (extractExperience lines = []
   \/ allResponsibilities (extractExperience lines)
      = map stripBullet (filter isBulletLine lines))
  /\ Forall (fun e => exp_fields e <> [] /\ exists r, responsibilities e = Some r)
       (extractExperience lines).
Proof.
  pose proof (experience_fold_inv lines ([], [], []) []) as H.
  unfold extractExperience.
  destruct (fold_left experienceStep lines ([], [], []))
    as [[entries cur] resp] eqn:E.
  cbn [app] in H.
  destruct H as (H1 & H2 & H3).
  { split; [reflexivity|]. split; [intros F; contradiction F; reflexivity | constructor]. }
  destruct cur as [|kv cur].
  - split; [|exact H3]. left.
    destruct entries; [reflexivity|]. exfalso. apply H2; [discriminate | reflexivity].
  - split.
    + right. rewrite allResponsibilities_app. cbn. rewrite app_nil_r. exact H1.
    + apply Forall_app. split; [exact H3|].
      constructor; [|constructor]. cbn. split; [discriminate | eauto].
Qed.

(** ** Education entries *)

Lemma prop_setProp_other (o : StrObj) (k k' : string) (v : jsstring) :
  String.eqb k' k = false -> prop (setProp o k v) k' = prop o k'.
Proof.
  intros Hk. induction o as [|[k0 v0] o IH]; simpl.
  - rewrite Hk. reflexivity.
  - destruct (String.eqb k k0) eqn:E; simpl.
    + apply String.eqb_eq in E. subst k0. rewrite Hk. reflexivity.
    + rewrite IH. reflexivity.
Qed.

Lemma prop_setProp_same (o : StrObj) (k : string) (v : jsstring) :
  prop (setProp o k v) k = Some v.
Proof.
  induction o as [|[k0 v0] o IH]; simpl.
  - rewrite String.eqb_refl. reflexivity.
  - destruct (String.eqb k k0) eqn:E; simpl; rewrite E; [reflexivity | exact IH].
Qed.

Lemma yearsOfEntries_app (a b : list EducationEntry) :
  yearsOfEntries (a ++ b) = yearsOfEntries a ++ yearsOfEntries b.
Proof. apply flat_map_app. Qed.

Lemma educationStep_inv (st : list EducationEntry * EducationEntry)
  (seen : list jsstring) (line : jsstring) :
  educationInv st seen -> educationInv (educationStep st line) (seen ++ [line]).
Proof.
  destruct st as [entries cur]. unfold educationInv, educationStep.
  intros [H1 H2].
  assert (Hs : yearsOfLines (seen ++ [line])
               = yearsOfLines seen ++ optList (regexMatch yearRe line)).
  { unfold yearsOfLines. rewrite flat_map_app. cbn [flat_map].
    rewrite app_nil_r. reflexivity. }
  rewrite Hs, <- H1. clear Hs H1.
  destruct (regexMatch yearRe line) as [y|] eqn:E.
  - destruct cur as [|kv cur].
    + cbn. rewrite app_nil_r. split; [reflexivity | exact H2].
    + split.
      * rewrite yearsOfEntries_app. cbn. rewrite app_nil_r, <- app_assoc. reflexivity.
      * apply Forall_app. split; [exact H2|].
        constructor; [discriminate | constructor].
  - cbn [optList]. rewrite app_nil_r.
    destruct (negb (truthy (prop cur "institution")) && (3 <? length line)%nat);
      [rewrite prop_setProp_other by reflexivity; split; [reflexivity | exact H2]|].
    destruct (negb (truthy (prop cur "degree")) && (3 <? length line)%nat);
      [rewrite prop_setProp_other by reflexivity; split; [reflexivity | exact H2]|].
    destruct (truthy (prop cur "degree"));
      [rewrite prop_setProp_other by reflexivity; split; [reflexivity | exact H2]|].
    split; [reflexivity | exact H2].
Qed.

Lemma education_fold_inv (lines : list jsstring) :
  forall st seen,
    educationInv st seen ->
    educationInv (fold_left educationStep lines st) (seen ++ lines).
Proof.
  induction lines as [|l lines IH]; intros st seen H; cbn [fold_left].
  - rewrite app_nil_r. exact H.
  - replace (seen ++ l :: lines) with ((seen ++ [l]) ++ lines)
      by (rewrite <- app_assoc; reflexivity).
    apply IH. apply educationStep_inv. exact H.
Qed.

Lemma RLit_cons (p : codeunit) (kw : jsstring) :
  RLit (p :: kw) = RSeq (RUnit (N.eqb p)) (RLit kw).
Proof. reflexivity. Qed.

Lemma rmatch_RLit (kw : jsstring) :
  forall prev s k,
    rmatch (RLit kw) prev s k =
      if startsWith s kw
      then k (lastUnit prev (firstn (length kw) s)) (skipn (length kw) s)
      else None.
Proof.
  induction kw as [|p kw IH]; intros prev s k.
  - destruct s; reflexivity.
  - rewrite RLit_cons. cbn [rmatch].
    destruct s as [|c s]; [reflexivity|].
    cbn [startsWith length firstn skipn].
    destruct (N.eqb p c); [|reflexivity].
    rewrite IH. reflexivity.
Qed.

Lemma rmatch_RRep_unit (p : codeunit -> bool) (n : nat) :
  forall prev s k,
    rmatch (RRep n (RUnit p)) prev s k =
      if (n <=? length s)%nat && forallb p (firstn n s)
      then k (lastUnit prev (firstn n s)) (skipn n s)
      else None.
Proof.
  induction n as [|n IH]; intros prev s k.
  - destruct s; reflexivity.
  - cbn [RRep rmatch]. destruct s as [|c s]; [reflexivity|].
    cbn [length firstn skipn forallb Nat.leb].
    destruct (p c); [|rewrite andb_false_r; reflexivity].
    rewrite IH. reflexivity.
Qed.

Lemma startsWith_prefix (p : jsstring) :
  forall s, startsWith s p = true -> exists t, s = p ++ t.
Proof.
  induction p as [|x p IH]; intros s H; [exists s; reflexivity|].
  destruct s as [|c s]; [discriminate H|].
  simpl in H. apply andb_true_iff in H as [Hx H]. apply N.eqb_eq in Hx. subst c.
  destruct (IH s H) as [t ->]. exists t. reflexivity.
Qed.

Lemma startsWith_app_same (p t : jsstring) : startsWith (p ++ t) p = true.
Proof. induction p as [|x p IH]; simpl; [destruct t; reflexivity|]. rewrite N.eqb_refl. exact IH. Qed.

Lemma firstn_drop_suffix (a b : jsstring) :
  firstn (length (a ++ b) - length b) (a ++ b) = a.
Proof.
  rewrite length_app.
  replace (length a + length b - length b) with (length a + 0) by lia.
  rewrite firstn_app_2. cbn [firstn]. apply app_nil_r.
Qed.

(** What the year pattern matches is a year between 1900 and 2099. *)
Lemma yearRe_match (prev : option codeunit) (s y : jsstring) :
  matchHere yearRe prev s = Some y -> isYear y = true.
Proof.
  unfold matchHere, yearRe. cbn [RSeqs fold_right rmatch].
  destruct (atWordBoundary prev s); [|discriminate].
  assert (Hlit : forall lit rest,
             (lit = str "19" \/ lit = str "20") ->
             rmatch (RLit lit) prev s
               (fun p' s' =>
                  rmatch (RRep 2 digit) p' s'
                    (fun p'0 s'0 =>
                       if atWordBoundary p'0 s'0 then Some s'0 else None))
             = Some rest ->
             isYear (firstn (length s - length rest) s) = true).
  { intros lit rest Hl H. rewrite rmatch_RLit in H.
    destruct (startsWith s lit) eqn:Es; [|discriminate H].
    apply startsWith_prefix in Es as [t ->].
    replace (length lit) with 2%nat in H by (destruct Hl as [-> | ->]; reflexivity).
    replace (skipn 2 (lit ++ t)) with t in H
      by (destruct Hl as [-> | ->]; reflexivity).
    unfold digit in H. rewrite rmatch_RRep_unit in H.
    destruct ((2 <=? length t)%nat && forallb isDigit (firstn 2 t)) eqn:Ed;
      [|discriminate H].
    destruct (atWordBoundary _ _); [|discriminate H].
    injection H as <-.
    apply andb_true_iff in Ed as [Hlen Hd]. apply Nat.leb_le in Hlen.
    destruct t as [|d1 [|d2 t]]; simpl in Hlen; try lia.
    cbn [skipn]. simpl in Hd.
    replace (lit ++ d1 :: d2 :: t) with ((lit ++ [d1; d2]) ++ t)
      by (rewrite <- app_assoc; reflexivity).
    rewrite firstn_drop_suffix. unfold isYear.
    destruct Hl as [-> | ->]; cbn; rewrite Hd; reflexivity. }
  match goal with
  | |- context [match ?a with Some x => Some x | None => ?b end] =>
      destruct a as [rest|] eqn:E1
  end.
  - intros H. injection H as <-. apply (Hlit (str "19") rest); [left; reflexivity | exact E1].
  - match goal with
    | |- context [match ?b with Some _ => _ | None => _ end] =>
        destruct b as [rest|] eqn:E2
    end; [|discriminate].
    intros H. injection H as <-.
    apply (Hlit (str "20") rest); [right; reflexivity | exact E2].
Qed.

Lemma yearsOfLines_are_years (lines : list jsstring) :
  Forall (fun y => isYear y = true) (yearsOfLines lines).
Proof.
  unfold yearsOfLines. rewrite Forall_forall. intros y Hy.
  apply in_flat_map in Hy as (l & _ & Hy).
  destruct (regexMatch yearRe l) as [y'|] eqn:E; [|destruct Hy].
  destruct Hy as [<- | []].
  apply searchFrom_sound in E as (pre & s1 & _ & Hm).
  apply (yearRe_match _ _ _ Hm).
Qed.

(** X12: [extractEducation] records every year it sees: the years held by
    the entries, in order, are exactly the first year matched in each line
    that has one, each a four-digit year from 1900 to 2099; and no entry is
    empty. *)
Theorem extractEducation_years (lines : list jsstring) :
  yearsOfEntries (extractEducation lines) = yearsOfLines lines
  /\ Forall (fun y => isYear y = true) (yearsOfEntries (extractEducation lines))
  /\ Forall (fun e => e <> []) (extractEducation lines).
Proof.
  pose proof (education_fold_inv lines ([], []) []) as H.
  assert (Hy : yearsOfEntries (extractEducation lines) = yearsOfLines lines
               /\ Forall (fun e => e <> []) (extractEducation lines)).
  { unfold extractEducation.
    destruct (fold_left educationStep lines ([], [])) as [entries cur] eqn:E.
    cbn [app] in H. destruct H as [H1 H2]; [split; [reflexivity | constructor]|].
    destruct cur as [|kv cur].
    - cbn in H1. rewrite app_nil_r in H1. split; assumption.
    - split.
      + rewrite yearsOfEntries_app. cbn. rewrite app_nil_r. exact H1.
      + apply Forall_app. split; [exact H2|].
        constructor; [discriminate | constructor]. }
  destruct Hy as [Hy He]. split; [exact Hy|]. split; [|exact He].
  rewrite Hy. apply yearsOfLines_are_years.
Qed.

(** ** Project entries *)

Lemma nonempty_trim_tight (s : jsstring) :
  isEmpty (trim s) = false -> tight (trim s) = true.
Proof.
  intros H. apply trim_tight. intros E. rewrite E in H. discriminate H.
Qed.

Lemma namedProject_single (n : jsstring) (rest : StrObj) (t : option (list jsstring)) :
  tight n = true ->
  prop rest "title" = None ->
  namedProject (Build_ProjectEntry (("name"%string, n) :: rest) t).
Proof.
  intros Hn Hr. split; [exact Hr|]. exists n. split; [reflexivity | exact Hn].
Qed.

Lemma namedProject_setDescription (e : ProjectEntry) (v : jsstring)
  (t : option (list jsstring)) :
  namedProject e ->
  namedProject (Build_ProjectEntry (setProp (proj_fields e) "description" v) t).
Proof.
  intros [Ht (n & Hn & Htn)]. split; cbn [proj_fields].
  - rewrite prop_setProp_other by reflexivity. exact Ht.
  - exists n. rewrite prop_setProp_other by reflexivity. split; assumption.
Qed.

Lemma namedProject_setTechnologies (e : ProjectEntry) (t : option (list jsstring)) :
  namedProject e -> namedProject (Build_ProjectEntry (proj_fields e) t).
Proof. intros H. exact H. Qed.

Lemma projectInv_push (entries : list ProjectEntry) (cur : ProjectEntry) :
  projectInv (entries, cur) ->
  Forall namedProject
    (if projectHasContent cur then entries ++ [cur] else entries).
Proof.
  intros [He Hc]. destruct (projectHasContent cur) eqn:E; [|exact He].
  apply Forall_app. split; [exact He|]. constructor; [|constructor].
  destruct Hc as [Hc | Hc]; [|exact Hc].
  unfold projectHasContent in E. rewrite Hc in E. discriminate E.
Qed.

Lemma projectStep_inv (st : list ProjectEntry * ProjectEntry) (line : jsstring) :
  projectInv st -> projectInv (projectStep st line).
Proof.
  destruct st as [entries cur]. intros H. pose proof H as [He Hc].
  unfold projectStep.
  destruct (isEmpty (trim line)) eqn:El; [exact H|].
  destruct (isNewProject (trim line)).
  - pose proof (projectInv_push entries cur H) as Hp.
    destruct (isEmpty (trim (removePrefixMatch projectMarksRe (trim line)))) eqn:Ec.
    + split; [exact Hp | left; reflexivity].
    + split; [exact Hp | right].
      apply namedProject_single; [|reflexivity].
      apply nonempty_trim_tight. exact Ec.
  - destruct (truthy (prop (proj_fields cur) "name")) eqn:En.
    + assert (Hn : namedProject cur).
      { destruct Hc as [Hc | Hc]; [|exact Hc]. rewrite Hc in En. discriminate En. }
      destruct (negb (truthy (prop (proj_fields cur) "description"))).
      * split; [exact He | right]. apply namedProject_setDescription. exact Hn.
      * destruct (technologies cur) as [techs|].
        -- split; [exact He | right]. apply namedProject_setDescription. exact Hn.
        -- destruct (regexTest techPattern (trim line)
                     || includes (trim line) (str ",")
                     || includes (trim line) (str "|")).
           ++ split; [exact He | right].
              apply namedProject_setTechnologies. exact Hn.
           ++ split; [exact He | right].
              apply namedProject_setDescription. exact Hn.
    + destruct ((length (trim line) <? 100)%nat
                && negb (regexTest year4Re (trim line))
                && (5 <? length (trim line))%nat); [|exact H].
      split; [exact He | right].
      apply namedProject_single; [|reflexivity].
      apply nonempty_trim_tight. exact El.
Qed.

Lemma project_fold_inv (lines : list jsstring) :
  forall st, projectInv st -> projectInv (fold_left projectStep lines st).
Proof.
  induction lines as [|l lines IH]; intros st H; cbn [fold_left]; [exact H|].
  apply IH. apply projectStep_inv. exact H.
Qed.

Lemma bareProjects_named (lines : list jsstring) :
  Forall namedProject (bareProjects lines).
Proof.
  unfold bareProjects.
  assert (G : forall acc, Forall namedProject acc ->
              Forall namedProject
                (fold_left
                   (fun entries line =>
                      let trimmed := trim line in
                      if negb (isEmpty trimmed) && (10 <? length trimmed)%nat
                         && (length trimmed <? 200)%nat
                      then
                        if negb (regexTest year4Re trimmed)
                           && negb (regexTest allCapsRe trimmed)
                           && negb (includes trimmed (str "@"))
                           && (10 <? length trimmed)%nat
                        then entries ++ [Build_ProjectEntry
                                           [("name"%string, trimmed);
                                            ("description"%string, [])]
                                           None]
                        else entries
                      else entries)
                   lines acc)).
  { induction lines as [|l lines IH]; intros acc Hacc; cbn [fold_left]; [exact Hacc|].
    apply IH. cbv zeta.
    destruct (isEmpty (trim l)) eqn:El; cbn [negb andb]; [exact Hacc|].
    destruct ((10 <? length (trim l))%nat && (length (trim l) <? 200)%nat);
      [|exact Hacc].
    destruct (negb (regexTest year4Re (trim l))
              && negb (regexTest allCapsRe (trim l))
              && negb (includes (trim l) (str "@"))
              && (10 <? length (trim l))%nat); [|exact Hacc].
    apply Forall_app. split; [exact Hacc|]. constructor; [|constructor].
    apply namedProject_single; [|reflexivity].
    apply nonempty_trim_tight. exact El. }
  apply G. constructor.
Qed.

Lemma extractProjects_named (lines : list jsstring) :
  Forall namedProject (extractProjects lines).
Proof.
  unfold extractProjects.
  pose proof (project_fold_inv lines ([], emptyProject)) as H.
  destruct (fold_left projectStep lines ([], emptyProject)) as [entries cur].
  assert (Hp : Forall namedProject
                 (if projectHasContent cur then entries ++ [cur] else entries)).
  { apply projectInv_push. apply H. split; [constructor | left; reflexivity]. }
  destruct (if projectHasContent cur then entries ++ [cur] else entries)
    as [|e es]; [|exact Hp].
  destruct lines; [constructor | apply bareProjects_named].
Qed.

Lemma formatProject_named (e : ProjectEntry) (n : jsstring) :
  prop (proj_fields e) "title" = None ->
  prop (proj_fields e) "name" = Some n ->
  tight n = true ->
  startsWith (formatProject e) (str "- " ++ bold n) = true.
Proof.
  intros Ht Hn Htn. unfold formatProject. rewrite Ht, Hn.
  cbn [orElse truthy].
  destruct n as [|c n]; [discriminate Htn|].
  cbn [orEmpty]. rewrite (tight_trim_id _ Htn). cbn [isEmpty negb].
  rewrite app_assoc. apply startsWith_app_same.
Qed.

(** X13: every entry that [extractProjects] returns has a name that is not
    empty and carries no surrounding white space, and the responder's line
    for such an entry starts with that name in bold: a parsed project is
    never rendered as a bare object. *)
Theorem extractProjects_entries_named (lines : list jsstring) :
  Forall (fun e =>
            exists n,
              prop (proj_fields e) "name" = Some n
              /\ isEmpty n = false /\ trim n = n
              /\ startsWith (formatProject e) (str "- " ++ bold n) = true)
    (extractProjects lines).
Proof.
  eapply Forall_impl; [|apply extractProjects_named].
  intros e [Ht (n & Hn & Htn)]. exists n. split; [exact Hn|].
  split; [destruct n; [discriminate Htn | reflexivity]|].
  split; [apply tight_trim_id; exact Htn|].
  apply formatProject_named; assumption.
Qed.

(** ** The responder always says something *)

Lemma rawPresent_nonempty (raw : option jsstring) :
  rawPresent raw = true -> isEmpty (trim (orEmpty raw)) = false.
Proof.
  unfold rawPresent. intros H. apply andb_true_iff in H as [_ H].
  apply Nat.ltb_lt in H. destruct (trim (orEmpty raw)); [simpl in H; lia | reflexivity].
Qed.

Lemma join_nonempty (sep x : jsstring) (l : list jsstring) :
  isEmpty x = false -> isEmpty (join sep (x :: l)) = false.
Proof.
  intros H. destruct x as [|c x]; [discriminate H|].
  destruct l; reflexivity.
Qed.

Lemma structuredLines_nonempty (A : Type) (format : A -> jsstring)
  (items : option (list A)) :
  (forall a, isEmpty (format a) = false) ->
  isEmpty (structuredLines format items) = false.
Proof.
  intros H. unfold structuredLines.
  destruct (orNil items) as [|x l]; [reflexivity|].
  cbn [map]. apply join_nonempty. apply H.
Qed.

Lemma orFallback_nonempty (a : option jsstring) :
  isEmpty (orEmpty (orElse a (Some FALLBACK))) = false.
Proof. destruct a as [[|c s]|]; reflexivity. Qed.

Lemma formatExperience_nonempty (e : ExperienceEntry) :
  isEmpty (formatExperience e) = false.
Proof. reflexivity. Qed.

Lemma formatEducation_nonempty (e : EducationEntry) :
  isEmpty (formatEducation e) = false.
Proof.
  unfold formatEducation. cbv zeta.
  repeat match goal with
         | |- context [if ?b then _ else _] => destruct b
         end; reflexivity.
Qed.

Lemma formatProject_nonempty (p : ProjectEntry) :
  isEmpty (formatProject p) = false.
Proof.
  unfold formatProject. cbv zeta.
  repeat match goal with
         | |- isEmpty (if ?b then _ else _) = false => destruct b
         end; reflexivity.
Qed.

Lemma formatContact_parts (ci : ContactInfo) :
  Forall (fun part => isEmpty part = false) (formatContact ci).
Proof.
  unfold formatContact.
  repeat (apply Forall_app; split);
    match goal with
    | |- Forall _ (if ?b then _ else _) =>
        destruct b; [constructor; [reflexivity | constructor] | constructor]
    end.
Qed.

Lemma formatContact_nonempty (ci : ContactInfo) :
  isEmpty (match formatContact ci with
           | [] => FALLBACK
           | _ :: _ => join nl (formatContact ci)
           end) = false.
Proof.
  pose proof (formatContact_parts ci) as H.
  destruct (formatContact ci) as [|x l]; [reflexivity|].
  apply join_nonempty. inversion H. assumption.
Qed.

(** X14: the responder never answers with the empty string, whatever the
    record and the query are. *)
Theorem answer_never_empty (parsed : ResumeData) (q : jsstring) :
  isEmpty (answerFromParsedDeterministic parsed q) = false.
Proof.
  unfold answerFromParsedDeterministic. cbv zeta.
  destruct (isSkillQuery q).
  { destruct (rawPresent (rawSection parsed Skills)) eqn:E;
      [apply rawPresent_nonempty; exact E|].
    destruct (extractSkillNames (orNil (skills_or_tech_stack parsed)));
      [reflexivity | apply orFallback_nonempty]. }
  destruct (isExperienceQuery q).
  { destruct (rawPresent (rawSection parsed Experience)) eqn:E;
      [apply rawPresent_nonempty; exact E|].
    apply structuredLines_nonempty. apply formatExperience_nonempty. }
  destruct (isEducationQuery q).
  { destruct (rawPresent (rawSection parsed Education)) eqn:E;
      [apply rawPresent_nonempty; exact E|].
    apply structuredLines_nonempty. apply formatEducation_nonempty. }
  destruct (isProjectsQuery q).
  { destruct (rawPresent (rawSection parsed Projects)) eqn:E;
      [apply rawPresent_nonempty; exact E|].
    apply structuredLines_nonempty. apply formatProject_nonempty. }
  destruct (isCertificationsQuery q).
  { destruct (rawPresent (rawSection parsed Certifications)) eqn:E;
      [apply rawPresent_nonempty; exact E|].
    apply structuredLines_nonempty. intros a. reflexivity. }
  destruct (isContactQuery q).
  { destruct (contact_information parsed) as [ci|];
      [apply formatContact_nonempty | reflexivity]. }
  destruct (isSummaryQuery q).
  { destruct (rawPresent (rawSection parsed Objective)) eqn:E;
      [apply rawPresent_nonempty; exact E|].
    destruct (isEmpty (orEmpty (objective_or_summary parsed))); [reflexivity|].
    cbn [orb].
    destruct (isEmpty (trim (orEmpty (objective_or_summary parsed)))) eqn:Et;
      [reflexivity | exact Et]. }
  destruct (isLanguagesQuery q).
  { destruct (rawPresent (rawSection parsed Languages)) eqn:E;
      [apply rawPresent_nonempty; exact E|].
    destruct (orNil (languages parsed)); [reflexivity | apply orFallback_nonempty]. }
  destruct (length q =? 0)%nat; reflexivity.
Qed.

(** ** [sanitizeData] *)

Lemma forallb_filter_self (A : Type) (f : A -> bool) (l : list A) :
  forallb f (filter f l) = true.
Proof.
  induction l as [|x l IH]; [reflexivity|]. simpl.
  destruct (f x) eqn:E; [simpl; rewrite E; exact IH | exact IH].
Qed.

Lemma filter_all (A : Type) (f : A -> bool) (l : list A) :
  forallb f l = true -> filter f l = l.
Proof.
  induction l as [|x l IH]; [reflexivity|]. simpl. intros H.
  apply andb_true_iff in H as [Hx Hl]. rewrite Hx, (IH Hl). reflexivity.
Qed.

Lemma control_zero (c : codeunit) :
  negb (isControlUnit c) = true -> negb (N.eqb c 0%N) = true.
Proof.
  destruct (N.eqb c 0%N) eqn:E; [|reflexivity].
  apply N.eqb_eq in E. subst c. intros H. discriminate H.
Qed.

Lemma sanitizeString_clean (s : jsstring) :
  forallb (fun c => negb (isControlUnit c)) (sanitizeString s) = true.
Proof. apply forallb_filter_self. Qed.

Lemma sanitizeString_fixed (s : jsstring) :
  forallb (fun c => negb (isControlUnit c)) s = true -> sanitizeString s = s.
Proof.
  intros H. unfold sanitizeString.
  rewrite (filter_all _ (fun c => negb (N.eqb c 0%N)) s).
  - apply filter_all. exact H.
  - rewrite forallb_forall in *. intros c Hc. apply control_zero. apply H. exact Hc.
Qed.

Lemma assignOwn_Forall (Q : string * JSValue -> Prop)
  (props : list (string * JSValue)) (key : string) (value : JSValue) :
  Q (key, value) ->
  Forall Q props -> Forall Q (assignOwn props key value).
Proof.
  intros Hv. induction props as [|[k v] rest IH]; intros H; simpl.
  - constructor; [exact Hv | constructor].
  - inversion H as [|? ? Hk Hrest]; subst.
    destruct (String.eqb key k) eqn:E; constructor; auto.
    apply String.eqb_eq in E. subst k. exact Hv.
Qed.

Lemma assignOwn_keys (props : list (string * JSValue)) (key : string)
  (value : JSValue) :
  map fst (assignOwn props key value)
  = if existsb (String.eqb key) (map fst props) then map fst props
    else map fst props ++ [key].
Proof.
  induction props as [|[k v] rest IH]; simpl; [reflexivity|].
  destruct (String.eqb key k); simpl; [reflexivity|].
  rewrite IH. destruct (existsb (String.eqb key) (map fst rest)); reflexivity.
Qed.

Lemma existsb_eqb_In (key : string) (keys : list string) :
  existsb (String.eqb key) keys = true <-> In key keys.
Proof.
  rewrite existsb_exists. split.
  - intros (k & Hk & E). apply String.eqb_eq in E. subst k. exact Hk.
  - intros H. exists key. split; [exact H | apply String.eqb_refl].
Qed.

Lemma distinctKeys_NoDup (keys : list string) :
  distinctKeys keys = true <-> NoDup keys.
Proof.
  induction keys as [|k rest IH]; simpl.
  - split; [constructor | reflexivity].
  - rewrite andb_true_iff, negb_true_iff, IH. split.
    + intros [Hk Hr]. constructor; [|exact Hr].
      intros Hin. apply existsb_eqb_In in Hin. rewrite Hin in Hk. discriminate Hk.
    + intros H. inversion H as [|? ? Hk Hr]; subst. split; [|exact Hr].
      destruct (existsb (String.eqb k) rest) eqn:E; [|reflexivity].
      apply existsb_eqb_In in E. contradiction.
Qed.

Lemma assignOwn_NoDup (props : list (string * JSValue)) (key : string)
  (value : JSValue) :
  NoDup (map fst props) -> NoDup (map fst (assignOwn props key value)).
Proof.
  intros H. rewrite assignOwn_keys.
  destruct (existsb (String.eqb key) (map fst props)) eqn:E; [exact H|].
  apply NoDup_app; [exact H | constructor; [intros [] | constructor] |].
  intros k Hk [<- | []]. apply existsb_eqb_In in Hk. rewrite Hk in E. discriminate E.
Qed.

Lemma assignOwn_fresh (props : list (string * JSValue)) (key : string)
  (value : JSValue) :
  ~ In key (map fst props) -> assignOwn props key value = props ++ [(key, value)].
Proof.
  induction props as [|[k v] rest IH]; simpl; intros H; [reflexivity|].
  destruct (String.eqb key k) eqn:E.
  - apply String.eqb_eq in E. subst k. contradiction H. left. reflexivity.
  - rewrite IH; [reflexivity|]. intros Hin. apply H. right. exact Hin.
Qed.

Lemma sanitize_fold_inv (Q : JSValue -> Prop) (f : JSValue -> JSValue)
  (props : list (string * JSValue)) :
  Forall (fun kv => Q (f (snd kv))) props ->
  forall acc,
    NoDup (map fst acc) -> Forall (goodEntry Q) acc ->
    let out := fold_left (fun sanitized kv => assign sanitized (fst kv) (f (snd kv)))
                 props acc in
    NoDup (map fst out) /\ Forall (goodEntry Q) out.
Proof.
  induction 1 as [|[k v] rest Hv Hrest IH]; intros acc Hn Ha; cbn [fold_left].
  - split; assumption.
  - apply IH; unfold assign; cbn [fst snd];
      destruct (String.eqb k "__proto__") eqn:E; try assumption.
    + apply assignOwn_NoDup. exact Hn.
    + apply assignOwn_Forall; [|exact Ha].
      split; [exact E | exact Hv].
Qed.

Lemma sanitize_fold_map (f : JSValue -> JSValue) (props : list (string * JSValue)) :
  forall acc,
    NoDup (map fst (acc ++ props)) ->
    Forall (fun kv => String.eqb (fst kv) "__proto__" = false) props ->
    fold_left (fun sanitized kv => assign sanitized (fst kv) (f (snd kv))) props acc
    = acc ++ map (fun kv => (fst kv, f (snd kv))) props.
Proof.
  induction props as [|[k v] rest IH]; intros acc Hn Hp; cbn [fold_left map].
  - rewrite app_nil_r. reflexivity.
  - inversion Hp as [|? ? Hk Hrest]; subst. cbn [fst snd] in *.
    unfold assign. rewrite Hk.
    rewrite map_app in Hn. cbn [map fst] in Hn.
    rewrite assignOwn_fresh.
    + rewrite IH; [rewrite <- app_assoc; reflexivity | | exact Hrest].
      rewrite !map_app. cbn [map fst]. rewrite <- app_assoc. exact Hn.
    + intros Hin. apply NoDup_remove_2 in Hn. apply Hn.
      apply in_or_app. left. exact Hin.
Qed.

Lemma plain_object (props : list (string * JSValue)) :
  plain (VObject props) = true <->
  NoDup (map fst props)
  /\ Forall (goodEntry (fun v => plain v = true)) props.
Proof.
  cbn [plain]. rewrite andb_true_iff, distinctKeys_NoDup, forallb_forall, Forall_forall.
  split; intros [Hn H]; (split; [exact Hn|]); intros kv Hkv; specialize (H kv Hkv).
  - apply andb_true_iff in H as [H1 H2]. apply negb_true_iff in H1. split; assumption.
  - destruct H as [H1 H2]. rewrite H1, H2. reflexivity.
Qed.

Lemma goodEntry_proto (Q : JSValue -> Prop) (props : list (string * JSValue)) :
  Forall (goodEntry Q) props ->
  Forall (fun kv => String.eqb (fst kv) "__proto__" = false) props.
Proof. apply Forall_impl. intros kv [H _]. exact H. Qed.

Lemma goodEntry_value (Q : JSValue -> Prop) (props : list (string * JSValue)) :
  Forall (goodEntry Q) props -> Forall (fun kv => Q (snd kv)) props.
Proof. apply Forall_impl. intros kv [_ H]. exact H. Qed.

(** On a plain object the loop of [sanitizeData] rebuilds the entries one
    for one. *)
Lemma sanitizeData_plain_object (props : list (string * JSValue)) :
  plain (VObject props) = true ->
  sanitizeData (VObject props)
  = VObject (map (fun kv => (fst kv, sanitizeData (snd kv))) props).
Proof.
  intros H. apply plain_object in H as [Hn Hg]. cbn [sanitizeData].
  rewrite (sanitize_fold_map sanitizeData props []); [reflexivity | exact Hn |].
  apply (goodEntry_proto _ _ Hg).
Qed.

Lemma sanitizeData_clean (v : JSValue) : clean (sanitizeData v) = true.
Proof.
  induction v as [| | | |s|items IH|props IH] using JSValue_induction;
    try reflexivity.
  - apply sanitizeString_clean.
  - cbn [sanitizeData clean]. rewrite forallb_forall. intros x Hx.
    apply in_map_iff in Hx as (y & <- & Hy).
    rewrite Forall_forall in IH. apply IH. exact Hy.
  - cbn [sanitizeData clean].
    destruct (sanitize_fold_inv (fun v => clean v = true) sanitizeData props IH []
                (NoDup_nil _) (Forall_nil _)) as [_ H].
    rewrite forallb_forall. rewrite Forall_forall in H.
    intros kv Hkv. apply (H kv Hkv).
Qed.

Lemma sanitizeData_plain (v : JSValue) : plain (sanitizeData v) = true.
Proof.
  induction v as [| | | |s|items IH|props IH] using JSValue_induction;
    try reflexivity.
  - cbn [sanitizeData plain]. rewrite forallb_forall. intros x Hx.
    apply in_map_iff in Hx as (y & <- & Hy).
    rewrite Forall_forall in IH. apply IH. exact Hy.
  - cbn [sanitizeData]. apply plain_object.
    apply (sanitize_fold_inv (fun v => plain v = true) sanitizeData props IH []
             (NoDup_nil _) (Forall_nil _)).
Qed.

Lemma map_fixed (A : Type) (f : A -> A) (l : list A) :
  Forall (fun x => f x = x) l -> map f l = l.
Proof.
  induction 1 as [|x l Hx Hl IH]; [reflexivity|]. cbn [map]. rewrite Hx, IH. reflexivity.
Qed.

(** A plain value without control characters is left as it is. *)
Lemma sanitizeData_fixed (v : JSValue) :
  plain v = true -> clean v = true -> sanitizeData v = v.
Proof.
  induction v as [| | | |s|items IH|props IH] using JSValue_induction;
    intros Hp Hc; try reflexivity.
  - cbn [sanitizeData]. cbn [clean] in Hc. rewrite (sanitizeString_fixed s Hc).
    reflexivity.
  - cbn [sanitizeData]. f_equal. apply map_fixed.
    cbn [plain clean] in Hp, Hc. rewrite forallb_forall in Hp, Hc.
    rewrite Forall_forall in *. intros x Hx. apply IH; auto.
  - rewrite (sanitizeData_plain_object props Hp). f_equal.
    apply plain_object in Hp as [_ Hg]. apply goodEntry_value in Hg.
    cbn [clean] in Hc. rewrite forallb_forall in Hc.
    apply map_fixed. rewrite Forall_forall in *.
    intros [k x] Hx. cbn [fst snd]. f_equal.
    apply (IH (k, x) Hx); [apply (Hg (k, x) Hx) | apply (Hc (k, x) Hx)].
Qed.

(** X15: whatever value [sanitizeData] is given, no string value of its
    result, at any depth, holds a code unit of the removed class, and
    sanitizing the result again changes nothing. *)
Theorem sanitizeData_removes_control_units (v : JSValue) :
  clean (sanitizeData v) = true
  /\ sanitizeData (sanitizeData v) = sanitizeData v.
Proof.
  split; [apply sanitizeData_clean|].
  apply sanitizeData_fixed; [apply sanitizeData_plain | apply sanitizeData_clean].
Qed.

(** X16: [sanitizeData] returns unchanged a value that holds no code unit of
    the removed class, when the objects in it have distinct keys, none of
    them [__proto__]. *)
Theorem sanitizeData_keeps_clean_values (v : JSValue) :
  plain v = true -> clean v = true -> sanitizeData v = v.
Proof. apply sanitizeData_fixed. Qed.

Lemma sanitizeData_keeps_clean_values_witness :
  sanitizeData partialContactRecord = partialContactRecord.
Proof.
  apply (sanitizeData_keeps_clean_values partialContactRecord); reflexivity.
Defined.

Lemma sanitizeData_literal (props : list (string * JSValue)) :
  distinctKeys (map fst props) = true ->
  forallb (fun kv => negb (String.eqb (fst kv) "__proto__")) props = true ->
  sanitizeData (VObject props)
  = VObject (map (fun kv => (fst kv, sanitizeData (snd kv))) props).
Proof.
  intros Hd Hp. cbn [sanitizeData].
  rewrite (sanitize_fold_map sanitizeData props []); [reflexivity | |].
  - apply distinctKeys_NoDup. exact Hd.
  - rewrite forallb_forall in Hp. rewrite Forall_forall. intros kv Hkv.
    apply negb_true_iff. apply Hp. exact Hkv.
Qed.

Lemma sanitizeData_nullish (x : JSValue) :
  isNullish (sanitizeData x) = isNullish x.
Proof. destruct x; reflexivity. Qed.

Lemma sanitizeData_isArray (x : JSValue) :
  isArray (sanitizeData x) = isArray x.
Proof. destruct x; reflexivity. Qed.

Lemma coalesce_sanitizeData (x d : JSValue) :
  sanitizeData d = d ->
  coalesce (sanitizeData x) d = sanitizeData (coalesce x d).
Proof.
  intros Hd. unfold coalesce. rewrite sanitizeData_nullish.
  destruct (isNullish x); [symmetry; exact Hd | reflexivity].
Qed.

Lemma arrayOrEmpty_sanitizeData (x : JSValue) :
  arrayOrEmpty (sanitizeData x) = sanitizeData (arrayOrEmpty x).
Proof.
  unfold arrayOrEmpty. rewrite sanitizeData_isArray.
  destruct (isArray x); reflexivity.
Qed.

Lemma coalesce_coalesce (x d : JSValue) : coalesce (coalesce x d) d = coalesce x d.
Proof.
  unfold coalesce. destruct (isNullish x) eqn:E; [|rewrite E; reflexivity].
  destruct (isNullish d); reflexivity.
Qed.

Lemma arrayOrEmpty_arrayOrEmpty (x : JSValue) :
  arrayOrEmpty (arrayOrEmpty x) = arrayOrEmpty x.
Proof. apply arrayOrEmpty_array. apply arrayOrEmpty_isArray. Qed.

Lemma lookup_sanitized (props : list (string * JSValue)) (k : string) :
  lookup (map (fun kv => (fst kv, sanitizeData (snd kv))) props) k
  = sanitizeData (lookup props k).
Proof.
  induction props as [|[k' v] rest IH]; [reflexivity|].
  cbn [map lookup fst snd]. destruct (String.eqb k k'); [reflexivity | exact IH].
Qed.

(** [normalizeParsed] on an object that has the ten canonical entries. *)
Lemma normalizeParsed_ten (x1 x2 x3 x4 x5 x6 x7 x8 x9 x10 : JSValue) :
  normalizeParsed
    (VObject
       [("objective_or_summary", x1); ("skills_or_tech_stack", x2);
        ("education", x3); ("experience", x4); ("projects", x5);
        ("certifications", x6); ("languages", x7);
        ("contact_information", x8); ("_raw_sections", x9);
        ("_raw_text", x10)]%string)
  = Normal
      (VObject
         [("objective_or_summary", coalesce x1 VNull);
          ("skills_or_tech_stack", arrayOrEmpty x2);
          ("education", arrayOrEmpty x3); ("experience", arrayOrEmpty x4);
          ("projects", arrayOrEmpty x5); ("certifications", arrayOrEmpty x6);
          ("languages", arrayOrEmpty x7);
          ("contact_information", coalesce x8 defaultContact);
          ("_raw_sections", coalesce x9 (VObject []));
          ("_raw_text", coalesce x10 VUndefined)]%string).
Proof. reflexivity. Qed.

Lemma sanitizeData_ten (x1 x2 x3 x4 x5 x6 x7 x8 x9 x10 : JSValue) :
  sanitizeData
    (VObject
       [("objective_or_summary", x1); ("skills_or_tech_stack", x2);
        ("education", x3); ("experience", x4); ("projects", x5);
        ("certifications", x6); ("languages", x7);
        ("contact_information", x8); ("_raw_sections", x9);
        ("_raw_text", x10)]%string)
  = VObject
      [("objective_or_summary", sanitizeData x1);
       ("skills_or_tech_stack", sanitizeData x2);
       ("education", sanitizeData x3); ("experience", sanitizeData x4);
       ("projects", sanitizeData x5); ("certifications", sanitizeData x6);
       ("languages", sanitizeData x7);
       ("contact_information", sanitizeData x8);
       ("_raw_sections", sanitizeData x9);
       ("_raw_text", sanitizeData x10)]%string.
Proof. rewrite sanitizeData_literal; reflexivity. Qed.

Lemma sanitizeData_defaults :
  sanitizeData VNull = VNull
  /\ sanitizeData defaultContact = defaultContact
  /\ sanitizeData (VObject []) = VObject []
  /\ sanitizeData VUndefined = VUndefined.
Proof. repeat split; reflexivity. Qed.

(** Normalizing the sanitized form of a normalized record. *)
Lemma normalizeParsed_sanitized_ten (x1 x2 x3 x4 x5 x6 x7 x8 x9 x10 : JSValue) :
  let r :=
    VObject
      [("objective_or_summary", coalesce x1 VNull);
       ("skills_or_tech_stack", arrayOrEmpty x2);
       ("education", arrayOrEmpty x3); ("experience", arrayOrEmpty x4);
       ("projects", arrayOrEmpty x5); ("certifications", arrayOrEmpty x6);
       ("languages", arrayOrEmpty x7);
       ("contact_information", coalesce x8 defaultContact);
       ("_raw_sections", coalesce x9 (VObject []));
       ("_raw_text", x10)]%string in
  isNullish (sanitizeData x10) = false ->
  normalizeParsed (sanitizeData r) = Normal (sanitizeData r).
Proof.
  intros r H10. unfold r. rewrite sanitizeData_ten, normalizeParsed_ten.
  destruct sanitizeData_defaults as (D1 & D2 & D3 & D4).
  rewrite (coalesce_sanitizeData _ VNull D1), coalesce_coalesce.
  rewrite (coalesce_sanitizeData _ defaultContact D2), coalesce_coalesce.
  rewrite (coalesce_sanitizeData _ (VObject []) D3), coalesce_coalesce.
  rewrite !arrayOrEmpty_sanitizeData, !arrayOrEmpty_arrayOrEmpty.
  rewrite (coalesce_value _ VUndefined H10). reflexivity.
Qed.

Lemma Normal_inj (A : Type) (a b : A) : Normal a = Normal b -> a = b.
Proof. intros H. injection H as H. exact H. Qed.

Lemma assign_raw_text_ten (x1 x2 x3 x4 x5 x6 x7 x8 x9 x10 t : JSValue) :
  assign
    [("objective_or_summary", x1); ("skills_or_tech_stack", x2);
     ("education", x3); ("experience", x4); ("projects", x5);
     ("certifications", x6); ("languages", x7);
     ("contact_information", x8); ("_raw_sections", x9);
     ("_raw_text", x10)]%string "_raw_text" t
  = [("objective_or_summary", x1); ("skills_or_tech_stack", x2);
     ("education", x3); ("experience", x4); ("projects", x5);
     ("certifications", x6); ("languages", x7);
     ("contact_information", x8); ("_raw_sections", x9);
     ("_raw_text", t)]%string.
Proof. reflexivity. Qed.

(** X17: the record [handleFileUpload] stores is canonical and clean:
    normalizing it again returns it unchanged, none of its strings holds a
    control character, and its [_raw_text] is the sanitized text of the
    file. *)
Theorem stored_record_is_canonical (parsedData : JSValue) (text : jsstring)
  (stored : JSValue) :
  storedRecord parsedData text = Normal stored ->
  normalizeParsed stored = Normal stored
  /\ clean stored = true
  /\ field stored "_raw_text" = VString (sanitizeString text).
Proof.
  unfold storedRecord. intros H.
  destruct (isNullish parsedData) eqn:En;
    [destruct parsedData; try discriminate En; discriminate H|].
  rewrite (normalizeParsed_fields parsedData En) in H.
  cbn [bind setField] in H.
  rewrite assign_raw_text_ten in H. apply Normal_inj in H. subst stored.
  split; [|split].
  - exact (normalizeParsed_sanitized_ten
             (field parsedData "objective_or_summary")
             (field parsedData "skills_or_tech_stack")
             (field parsedData "education")
             (field parsedData "experience")
             (field parsedData "projects")
             (field parsedData "certifications")
             (field parsedData "languages")
             (field parsedData "contact_information")
             (field parsedData "_raw_sections")
             (VString text) eq_refl).
  - apply sanitizeData_clean.
  - rewrite sanitizeData_ten. reflexivity.
Qed.

Lemma stored_record_is_canonical_witness :
  exists stored,
    storedRecord formFeedRecord (str "Go" ++ [12%N]) = Normal stored
    /\ normalizeParsed stored = Normal stored
    /\ clean stored = true
    /\ field stored "_raw_text" = VString (str "Go").
Proof.
  eexists. split; [reflexivity|].
  exact (stored_record_is_canonical formFeedRecord (str "Go" ++ [12%N]) _ eq_refl).
Defined.

(** X18: on a value whose objects have distinct keys, none of them
    [__proto__], sanitizing and normalizing commute: normalizing the
    sanitized value throws exactly when normalizing the value does, and
    otherwise returns the sanitized form of the normalized record. *)
Theorem sanitize_commutes_with_normalize (v : JSValue) :
  plain v = true ->
  normalizeParsed (sanitizeData v)
  = (r <- normalizeParsed v ;; Normal (sanitizeData r)).
Proof.
  intros Hp. destruct v as [| | | | |items|props]; try reflexivity.
  rewrite (sanitizeData_plain_object props Hp).
  rewrite !normalizeParsed_fields by reflexivity.
  cbn [bind]. unfold field. rewrite sanitizeData_ten, !lookup_sanitized.
  destruct sanitizeData_defaults as (D1 & D2 & D3 & D4).
  rewrite (coalesce_sanitizeData _ VNull D1).
  rewrite (coalesce_sanitizeData _ defaultContact D2).
  rewrite (coalesce_sanitizeData _ (VObject []) D3).
  rewrite (coalesce_sanitizeData _ VUndefined D4).
  rewrite !arrayOrEmpty_sanitizeData. reflexivity.
Qed.

Lemma sanitize_commutes_with_normalize_witness :
  normalizeParsed (sanitizeData formFeedRecord)
  = (r <- normalizeParsed formFeedRecord ;; Normal (sanitizeData r)).
Proof. apply (sanitize_commutes_with_normalize formFeedRecord). reflexivity. Defined.

(** ** Which queries reach which branch *)

Lemma includes_iff (p : jsstring) :
  forall s, includes s p = true <-> exists a b, s = a ++ p ++ b.
Proof.
  intros s. split.
  - induction s as [|c s IH]; cbn [includes]; intros H.
    + rewrite orb_false_r in H. apply startsWith_prefix in H as [t ->].
      exists [], t. reflexivity.
    + apply orb_true_iff in H as [H | H].
      * apply startsWith_prefix in H as [t ->]. exists [], t. reflexivity.
      * destruct (IH H) as (a & b & ->). exists (c :: a), b. reflexivity.
  - intros (a & b & ->). induction a as [|c a IH].
    + cbn [app]. destruct (p ++ b) eqn:E; cbn [includes]; rewrite <- E;
        rewrite startsWith_app_same; reflexivity.
    + cbn [app includes]. rewrite IH. apply orb_true_r.
Qed.

Lemma includes_trans (s k stem : jsstring) :
  includes k stem = true -> includes s k = true -> includes s stem = true.
Proof.
  intros H1 H2. apply includes_iff in H1 as (a & b & ->).
  apply includes_iff in H2 as (a' & b' & ->).
  apply includes_iff. exists (a' ++ a), (b ++ b').
  rewrite <- !app_assoc. reflexivity.
Qed.

Lemma includes_self (s : jsstring) : includes s s = true.
Proof. apply includes_iff. exists [], []. rewrite app_nil_r. reflexivity. Qed.

(** The keys of a branch can be replaced by the [stems]: keys that contain
    no other key. *)
Lemma queryMatches_stems (keys stems : list string) (q : jsstring) :
  forallb (fun k => containsAny (str k) stems) keys = true ->
  forallb (fun stem => existsb (String.eqb stem) keys) stems = true ->
  queryMatches q keys = containsAny q stems.
Proof.
  intros Hk Hs. rewrite forallb_forall in Hk, Hs.
  apply eq_true_iff_eq. unfold queryMatches, containsAny.
  rewrite !existsb_exists. split.
  - intros (k & Hin & H).
    assert (Hq : includes q (str k) = true).
    { apply orb_true_iff in H as [H | H]; [|exact H].
      apply streq_eq in H. subst q. apply includes_self. }
    specialize (Hk k Hin). unfold containsAny in Hk.
    apply existsb_exists in Hk as (stem & Hstem & Hinc).
    exists stem. split; [exact Hstem|].
    apply (includes_trans q (str k) (str stem) Hinc Hq).
  - intros (stem & Hin & H). specialize (Hs stem Hin).
    apply existsb_eqb_In in Hs. exists stem. split; [exact Hs|].
    rewrite H. apply orb_true_r.
Qed.

(** X19: each test of the responder is a substring test on a few stems: the
    comparison [q === k] and the longer keys add nothing.  A query is a
    skills query exactly when it contains [skill], [tech] or
    [competencies], and so on for the other branches. *)
Theorem intents_are_substring_tests (q : jsstring) :
  isSkillQuery q = containsAny q ["skill"; "tech"; "competencies"]%string
  /\ isExperienceQuery q
     = containsAny q ["experience"; "work"; "employment"; "job"; "career"]%string
  /\ isEducationQuery q
     = containsAny q ["education"; "degree"; "college"; "university";
                      "qualification"; "academic"]%string
  /\ isProjectsQuery q = containsAny q ["project"; "portfolio"]%string
  /\ isCertificationsQuery q
     = containsAny q ["certificate"; "licenses"; "certification";
                      "credentials"]%string
  /\ isContactQuery q = containsAny q ["contact"; "email"; "phone"]%string
  /\ isSummaryQuery q
     = containsAny q ["summary"; "about"; "objective"; "overview"; "profile"]%string
  /\ isLanguagesQuery q = containsAny q ["language"]%string.
Proof.
  repeat split; apply queryMatches_stems; reflexivity.
Qed.

(** ** The extractors of lib/layoutlmParser.ts *)

Lemma plain_parts_fold (parts skills : list jsstring) :
  fold_left
    (fun skills part =>
       let trimmed := trim part in
       if (1 <? length trimmed)%nat && (length trimmed <? 50)%nat
       then skills ++ [trimmed] else skills)
    parts skills
  = skills ++ filter (fun t => (1 <? length t)%nat && (length t <? 50)%nat)
                (map trim parts).
Proof.
  revert skills. induction parts as [|part parts IH]; intros skills;
    cbn [fold_left map filter].
  - rewrite app_nil_r. reflexivity.
  - rewrite IH. cbv zeta.
    destruct ((1 <? length (trim part))%nat && (length (trim part) <? 50)%nat);
      [rewrite <- app_assoc|]; reflexivity.
Qed.

Lemma plain_lines_fold (lines skills : list jsstring) :
  fold_left
    (fun skills line =>
       fold_left
         (fun skills part =>
            let trimmed := trim part in
            if (1 <? length trimmed)%nat && (length trimmed <? 50)%nat
            then skills ++ [trimmed] else skills)
         (splitOn Layoutlm.skillPatterns line) skills)
    lines skills
  = skills ++ plainTokens lines.
Proof.
  revert skills. induction lines as [|line lines IH]; intros skills;
    cbn [fold_left plainTokens flat_map].
  - rewrite app_nil_r. reflexivity.
  - rewrite IH, plain_parts_fold, <- app_assoc. reflexivity.
Qed.

Lemma plain_extractSkills_dedup (lines : list jsstring) :
  Layoutlm.extractSkills lines = dedupFirst (plainTokens lines).
Proof.
  unfold Layoutlm.extractSkills. rewrite plain_lines_fold.
  apply setFromList_dedupFirst.
Qed.

Lemma splitOn_free (sep : codeunit -> bool) (s : jsstring) :
  Forall (fun part => forallb (fun c => negb (sep c)) part = true) (splitOn sep s).
Proof.
  induction s as [|c s IH]; cbn [splitOn]; [repeat constructor|].
  destruct (splitOn sep s) as [|cur rest]; [repeat constructor|].
  apply Forall_cons_iff in IH as [Hcur Hrest].
  destruct (sep c) eqn:E.
  - constructor; [reflexivity|]. constructor; assumption.
  - constructor; [|assumption]. simpl. rewrite E. exact Hcur.
Qed.

Lemma forallb_dropWhile (p q : codeunit -> bool) (s : jsstring) :
  forallb p s = true -> forallb p (dropWhile q s) = true.
Proof.
  induction s as [|c s IH]; [reflexivity|]. intros H. cbn [dropWhile].
  destruct (q c); [|exact H].
  simpl in H. apply andb_true_iff in H as [_ H]. apply IH. exact H.
Qed.

Lemma forallb_rev (p : codeunit -> bool) (s : jsstring) :
  forallb p s = true -> forallb p (rev s) = true.
Proof.
  rewrite !forallb_forall. intros H c Hc. apply H. apply in_rev. exact Hc.
Qed.

Lemma forallb_trim (p : codeunit -> bool) (s : jsstring) :
  forallb p s = true -> forallb p (trim s) = true.
Proof.
  intros H. unfold trim, trimEnd, trimStart.
  apply forallb_rev, forallb_dropWhile, forallb_rev, forallb_dropWhile. exact H.
Qed.

(** X20: [extractSkills] of layoutlmParser.ts returns, without repetition
    and in the order of first appearance, the trimmed parts between the
    separators that are 2 to 49 code units long; so every skill is trimmed,
    within that length, and free of the separators. *)
Theorem plain_extractSkills_spec (lines : list jsstring) :
  FirstSeenOrder (Layoutlm.extractSkills lines) (plainTokens lines)
  /\ Forall (fun s =>
               (1 < length s < 50)%nat /\ trim s = s
               /\ forallb (fun c => negb (Layoutlm.skillPatterns c)) s = true)
       (Layoutlm.extractSkills lines).
Proof.
  rewrite plain_extractSkills_dedup. split; [apply firstSeen_dedupFirst|].
  rewrite Forall_forall. intros s Hs.
  apply (proj1 (In_dedupFirst s (plainTokens lines))) in Hs.
  unfold plainTokens in Hs. apply in_flat_map in Hs as (line & _ & Hs).
  apply filter_In in Hs as [Hs Hlen].
  apply in_map_iff in Hs as (part & <- & Hpart).
  apply andb_true_iff in Hlen as [H1 H2].
  apply Nat.ltb_lt in H1, H2. split; [lia|]. split; [apply trim_idempotent|].
  apply forallb_trim.
  pose proof (splitOn_free Layoutlm.skillPatterns line) as Hf.
  rewrite Forall_forall in Hf. apply Hf. exact Hpart.
Qed.

Lemma truthy_prop_fields (o : StrObj) (k : string) :
  truthy (prop o k) = true -> o <> [].
Proof. intros H E. subst o. discriminate H. Qed.

Lemma hasKeys_fields (fields : StrObj) (t : option (list jsstring)) :
  fields <> [] -> Layoutlm.hasKeys (Build_ProjectEntry fields t) = true.
Proof. destruct fields; [contradiction | reflexivity]. Qed.

Lemma plain_projectStep_inv (st : list ProjectEntry * ProjectEntry)
  (seen : list jsstring) (line : jsstring) :
  plainProjectInv st seen ->
  plainProjectInv (Layoutlm.projectStep st line) (seen ++ [line]).
Proof.
  destruct st as [entries cur]. unfold plainProjectInv, Layoutlm.projectStep.
  intros H. rewrite filter_app, map_app. cbn [filter]. cbv zeta.
  destruct (regexTest bulletRe line) eqn:Eb.
  - cbn [map]. rewrite <- H. cbn [Layoutlm.hasKeys proj_fields negb orb].
    unfold projectNames.
    destruct (Layoutlm.hasKeys cur).
    + rewrite map_app. reflexivity.
    + rewrite app_nil_r. reflexivity.
  - cbn [map]. rewrite app_nil_r, <- H.
    destruct cur as [fields techs]. cbn [proj_fields technologies].
    destruct (truthy (prop fields "name")
              && negb (truthy (prop fields "description"))) eqn:E1.
    + apply andb_true_iff in E1 as [En _].
      rewrite (hasKeys_fields _ techs (truthy_prop_fields _ _ En)).
      rewrite (hasKeys_fields _ techs (setProp_nonempty fields "description" line)).
      cbn [proj_fields]. rewrite prop_setProp_other by reflexivity. reflexivity.
    + destruct (truthy (prop fields "description")) eqn:E2; [|reflexivity].
      rewrite !(hasKeys_fields _ _ (truthy_prop_fields _ _ E2)). reflexivity.
Qed.

Lemma plain_project_fold_inv (lines : list jsstring) :
  forall st seen,
    plainProjectInv st seen ->
    plainProjectInv (fold_left Layoutlm.projectStep lines st) (seen ++ lines).
Proof.
  induction lines as [|l lines IH]; intros st seen H; cbn [fold_left].
  - rewrite app_nil_r. exact H.
  - replace (seen ++ l :: lines) with ((seen ++ [l]) ++ lines)
      by (rewrite <- app_assoc; reflexivity).
    apply IH. apply plain_projectStep_inv. exact H.
Qed.

(** X21: [extractProjects] of layoutlmParser.ts returns one entry for each
    line that starts with a bullet marker, in order, named by the line
    without its marker; the lines before the first such line are dropped. *)
Theorem plain_extractProjects_names (lines : list jsstring) :
  projectNames (Layoutlm.extractProjects lines)
  = map (fun l => Some (stripBullet l)) (filter (regexTest bulletRe) lines).
Proof.
  pose proof (plain_project_fold_inv lines ([], emptyProject) [] eq_refl) as H.
  unfold Layoutlm.extractProjects.
  destruct (fold_left Layoutlm.projectStep lines ([], emptyProject))
    as [entries cur].
  cbn [app] in H. unfold plainProjectInv in H. rewrite <- H.
  unfold projectNames. destruct (Layoutlm.hasKeys cur).
  - rewrite map_app. reflexivity.
  - rewrite app_nil_r. reflexivity.
Qed.
